(** * Group call lifecycle: a shallow embedding of
      [src/controllers/groupCallController.js]

    The controller is a set of request handlers over three pieces of
    state: the [GroupCall] collection of the document store, the
    process-wide map of "no participant" timers together with the
    timeouts pending in the event loop, and the socket events emitted.
    Every handler is a function from the state before the request to the
    state after it and the HTTP response.  What a handler reads from its
    environment (the clock, the uuid generated, the id of a new document,
    whether an attempt of the store write in [leave] throws) is an
    argument of the handler.

    A handler runs as one step: no other request is interleaved at its
    [await]s.  Store calls other than the write in [leave] do not throw.
    [populate], which only resolves references in the response, is left
    out. *)

From Stdlib Require Import ZArith Lia.
From stdpp Require Import base strings list sorting gmap.

(** ** Data model *)

Module CallStatus.
Inductive t := ringing | active | ended.
#[global] Instance eq_dec : EqDecision t.
Proof. solve_decision. Defined.
End CallStatus.

Module PStatus.
Inductive t := invited | joined | declined | left | missed.
#[global] Instance eq_dec : EqDecision t.
Proof. solve_decision. Defined.
End PStatus.

Inductive CallType := audio | video.

(** Dates are milliseconds since the epoch; an absent date is [None]. *)
Module Participant.
Record t := mk {
  userId : string;
  status : PStatus.t;
  joinedAt : option Z;
  leftAt : option Z;
  notificationSent : bool;
  notificationDelivered : bool
}.

Definition set_status (s : PStatus.t) (p : t) : t :=
  mk (userId p) s (joinedAt p) (leftAt p)
     (notificationSent p) (notificationDelivered p).
Definition set_joinedAt (d : option Z) (p : t) : t :=
  mk (userId p) (status p) d (leftAt p)
     (notificationSent p) (notificationDelivered p).
Definition set_leftAt (d : option Z) (p : t) : t :=
  mk (userId p) (status p) (joinedAt p) d
     (notificationSent p) (notificationDelivered p).
Definition set_notificationSent (b : bool) (p : t) : t :=
  mk (userId p) (status p) (joinedAt p) (leftAt p)
     b (notificationDelivered p).
End Participant.

Module GroupCall.
Record t := mk {
  _id : string;
  roomId : string;
  callRoomId : string;
  initiator : string;
  participants : list Participant.t;
  callType : CallType;
  status : CallStatus.t;
  activeParticipants : list string;
  startedAt : Z;
  endedAt : option Z;
  duration : option Z;
  createdAt : Z
}.

Definition set_participants (ps : list Participant.t) (c : t) : t :=
  mk (_id c) (roomId c) (callRoomId c) (initiator c) ps (callType c)
     (status c) (activeParticipants c) (startedAt c) (endedAt c)
     (duration c) (createdAt c).
Definition set_status (s : CallStatus.t) (c : t) : t :=
  mk (_id c) (roomId c) (callRoomId c) (initiator c) (participants c)
     (callType c) s (activeParticipants c) (startedAt c) (endedAt c)
     (duration c) (createdAt c).
Definition set_activeParticipants (ap : list string) (c : t) : t :=
  mk (_id c) (roomId c) (callRoomId c) (initiator c) (participants c)
     (callType c) (status c) ap (startedAt c) (endedAt c)
     (duration c) (createdAt c).
Definition set_endedAt (d : option Z) (c : t) : t :=
  mk (_id c) (roomId c) (callRoomId c) (initiator c) (participants c)
     (callType c) (status c) (activeParticipants c) (startedAt c) d
     (duration c) (createdAt c).
Definition set_duration (d : option Z) (c : t) : t :=
  mk (_id c) (roomId c) (callRoomId c) (initiator c) (participants c)
     (callType c) (status c) (activeParticipants c) (startedAt c)
     (endedAt c) d (createdAt c).
End GroupCall.

Module Room.
Record t := mk {
  _id : string;
  name : string;
  participants : list string
}.
End Room.

(** A connected socket: [socket.id], [socket.user] (absent for an
    unauthenticated socket) and the socket.io rooms it is in. *)
Module Socket.
Record t := mk {
  id : string;
  user : option string;
  rooms : list string
}.
End Socket.

(** Socket events, with the payload fields the controller puts in them. *)
Inductive Event :=
| group_incoming_call (callId callRoomId roomId roomName : string)
    (callType : CallType) (initiator : string)
    (participants : list (string * PStatus.t))
| participantJoined (callId userId : string) (activeParticipants : list string)
| participantLeft (callId userId : string) (activeParticipants : list string)
    (callEnded : bool)
| group_call_ended (callId reason : string).

(** [io.to(target).emit(event)] *)
Record Emit := mkEmit { target : string; event : Event }.

(** A pending [setTimeout]: the call id its closure captured and its delay. *)
Record Timeout := mkTimeout { t_callId : string; t_delay : Z }.

Record World := mkWorld {
  rooms : list Room.t;                 (* Room collection *)
  calls : list GroupCall.t;            (* GroupCall collection, insertion order *)
  io : option (list Socket.t);         (* global.__io and its connected sockets *)
  emitted : list Emit;                 (* events emitted so far, oldest first *)
  _noParticipantTimers : gmap string nat;  (* callId -> timeoutId *)
  timeouts : gmap nat Timeout;         (* timeouts pending in the event loop *)
  nextTimeoutId : nat
}.

Definition set_calls (cs : list GroupCall.t) (w : World) : World :=
  mkWorld (rooms w) cs (io w) (emitted w) (_noParticipantTimers w)
          (timeouts w) (nextTimeoutId w).
Definition set_emitted (es : list Emit) (w : World) : World :=
  mkWorld (rooms w) (calls w) (io w) es (_noParticipantTimers w)
          (timeouts w) (nextTimeoutId w).
Definition set_timers (ts : gmap string nat) (tos : gmap nat Timeout)
    (next : nat) (w : World) : World :=
  mkWorld (rooms w) (calls w) (io w) (emitted w) ts tos next.

(** ** HTTP responses *)

Inductive Body :=
| Calls (calls : list GroupCall.t)
| Message (message : string)
| MessageCall (message : string) (call : GroupCall.t)
| Call (call : GroupCall.t)
| MessageCallEnded (message : string) (callEnded : bool)
| MessageError (message : string).

Record Response := mkResponse { code : nat; body : Body }.

(** ** The document store *)

Definition same_id (id : string) (c : GroupCall.t) : bool :=
  bool_decide (GroupCall._id c = id).

(** [GroupCall.findById(id)] *)
Definition findById (id : string) (cs : list GroupCall.t) : option GroupCall.t :=
  find (same_id id) cs.

(** [doc.save()]: a document already in the collection is overwritten in
    place, a new one is inserted at the end. *)
Fixpoint save_doc (c : GroupCall.t) (cs : list GroupCall.t) : list GroupCall.t :=
  match cs with
  | [] => [c]
  | d :: cs' =>
      if same_id (GroupCall._id c) d then c :: cs' else d :: save_doc c cs'
  end.

Definition save (c : GroupCall.t) (w : World) : World :=
  set_calls (save_doc c (calls w)) w.

Definition is_user (u : string) (p : Participant.t) : bool :=
  bool_decide (Participant.userId p = u).

(** [participants.find(p => p.userId.toString() === userId.toString())] *)
Definition find_participant (u : string) (ps : list Participant.t)
    : option Participant.t :=
  find (is_user u) ps.

(** The object returned by [find] is the array element itself: assigning to
    its fields changes the first matching element of the array. *)
Fixpoint update_first (f : Participant.t -> bool)
    (g : Participant.t -> Participant.t) (ps : list Participant.t)
    : list Participant.t :=
  match ps with
  | [] => []
  | p :: ps' => if f p then g p :: ps' else p :: update_first f g ps'
  end.

(** [activeParticipants.includes(userId)] *)
Definition includes (u : string) (ap : list string) : bool :=
  bool_decide (u ∈ ap).

(** ** The timer registry *)

(** [if (timers.has(id)) { clearTimeout(timers.get(id)); timers.delete(id) }] *)
Definition clear_timer (callId : string) (w : World) : World :=
  match _noParticipantTimers w !! callId with
  | Some tid =>
      set_timers (delete callId (_noParticipantTimers w))
                 (delete tid (timeouts w)) (nextTimeoutId w) w
  | None => w
  end.

(** [const t = setTimeout(handler, delay); timers.set(id, t)] *)
Definition set_timer (callId : string) (delay : Z) (w : World) : World :=
  let t := nextTimeoutId w in
  set_timers (<[callId := t]> (_noParticipantTimers w))
             (<[t := mkTimeout callId delay]> (timeouts w)) (S t) w.

(** [if (global.__io) io.to(target).emit(event)] *)
Definition emit (tgt : string) (e : Event) (w : World) : World :=
  match io w with
  | Some _ => set_emitted (emitted w ++ [mkEmit tgt e]) w
  | None => w
  end.

(** ** The end-of-call transition *)

(** [Math.floor((endedAt - startedAt) / 1000)]; [Z.div] rounds down. *)
Definition call_duration (endedAt startedAt : Z) : Z :=
  ((endedAt - startedAt) / 1000)%Z.

(** The body of the [participants.forEach] run when a call ends:
    [if (p.status === 'invited') p.status = 'missed';
     else if (p.status === 'joined' && !p.leftAt) p.leftAt = endedAt]. *)
Definition finalize_participant (endedAt : Z) (p : Participant.t) : Participant.t :=
  match Participant.status p with
  | PStatus.invited => Participant.set_status PStatus.missed p
  | PStatus.joined =>
      match Participant.leftAt p with
      | None => Participant.set_leftAt (Some endedAt) p
      | Some _ => p
      end
  | _ => p
  end.

(** The end-of-call assignments written out in [leave] and again in the
    timer handler: status, endedAt, duration, then the participants. *)
Definition end_transition (now : Z) (c : GroupCall.t) : GroupCall.t :=
  GroupCall.set_participants
    (map (finalize_participant now) (GroupCall.participants c))
    (GroupCall.set_duration (Some (call_duration now (GroupCall.startedAt c)))
       (GroupCall.set_endedAt (Some now)
          (GroupCall.set_status CallStatus.ended c))).

(** Modelled from the spec: the document method [endCall] of
    [lib/models/GroupCall], which [initiate] calls and which is not among
    the source files.  Section 4.3 of the specification describes it as
    the shared force-end logic: set [status = ended], [endedAt = now],
    [duration] computed, finalize the participant statuses as in step 3 of
    [leave], and cancel any outstanding timer of the session.  Persisting
    is done by the caller ([initiate] calls [save] right after). *)
Definition endCall (now : Z) (c : GroupCall.t) (w : World) : GroupCall.t * World :=
  (end_transition now c, clear_timer (GroupCall._id c) w).

(** ** GroupCallController *)

Module GroupCallController.

(** *** getPending *)

(** The filter of [getPending]:
    [{ 'participants.userId': userId, 'participants.status': 'invited',
       status: 'ringing' }].
    A dotted path into an array of sub-documents matches when some element
    satisfies it; the two conditions on [participants] are independent of
    each other (the query has no [$elemMatch]). *)
Definition pending_filter (userId : string) (c : GroupCall.t) : bool :=
  existsb (is_user userId) (GroupCall.participants c)
  && existsb (fun p => bool_decide (Participant.status p = PStatus.invited))
       (GroupCall.participants c)
  && bool_decide (GroupCall.status c = CallStatus.ringing).

(** [.sort({ createdAt: -1 })] *)
Fixpoint insert_desc (c : GroupCall.t) (cs : list GroupCall.t) : list GroupCall.t :=
  match cs with
  | [] => [c]
  | d :: cs' =>
      if (GroupCall.createdAt d <? GroupCall.createdAt c)%Z
      then c :: d :: cs'
      else d :: insert_desc c cs'
  end.

Definition sort_createdAt_desc (cs : list GroupCall.t) : list GroupCall.t :=
  foldr insert_desc [] cs.

Definition getPending (userId : string) (w : World) : World * Response :=
  let pendingCalls :=
    sort_createdAt_desc (List.filter (pending_filter userId) (calls w)) in
  (w, mkResponse 200 (Calls pendingCalls)).

(** *** initiate *)

Definition is_live (c : GroupCall.t) : bool :=
  bool_decide (GroupCall.status c = CallStatus.ringing)
  || bool_decide (GroupCall.status c = CallStatus.active).

(** [GroupCall.findOne({ roomId, status: { $in: ['ringing', 'active'] } })] *)
Definition findLiveForRoom (roomId : string) (cs : list GroupCall.t)
    : option GroupCall.t :=
  find (fun c => bool_decide (GroupCall.roomId c = roomId) && is_live c) cs.

(** [Room.findById(roomId)] *)
Definition findRoom (roomId : string) (rs : list Room.t) : option Room.t :=
  find (fun r => bool_decide (Room._id r = roomId)) rs.

Definition isAbandoned (now : Z) (existingCall : GroupCall.t) : bool :=
  let callAge := (now - GroupCall.startedAt existingCall)%Z in
  bool_decide (length (GroupCall.activeParticipants existingCall) = 0)
  || (bool_decide (GroupCall.status existingCall = CallStatus.ringing)
      && (5 * 60 * 1000 <? callAge)%Z).

Definition new_participant (userId : string) (now : Z) (participantId : string)
    : Participant.t :=
  Participant.mk participantId
    (if bool_decide (participantId = userId) then PStatus.joined else PStatus.invited)
    (if bool_decide (participantId = userId) then Some now else None)
    None false false.

(** [new GroupCall({...})]: the fields the controller passes; [startedAt]
    and [createdAt] are filled in by the schema with the current time. *)
Definition new_call (newId roomId uuid userId : string) (room : Room.t)
    (callType : CallType) (now : Z) : GroupCall.t :=
  GroupCall.mk newId roomId ("group-call-" +:+ uuid) userId
    (map (new_participant userId now) (Room.participants room))
    callType CallStatus.ringing [userId] now None None now.

Definition sockets_of (participantId : string) (allSockets : list Socket.t)
    : list Socket.t :=
  List.filter (fun s => bool_decide (Socket.user s = Some participantId)) allSockets.

(** The notification block of [initiate], run when [global.__io] is set. *)
Definition notify_invited (sockets : list Socket.t) (roomId : string)
    (room : Room.t) (groupCall : GroupCall.t) (w : World)
    : GroupCall.t * World :=
  let payload :=
    group_incoming_call (GroupCall._id groupCall) (GroupCall.callRoomId groupCall)
      (GroupCall.roomId groupCall) (Room.name room) (GroupCall.callType groupCall)
      (GroupCall.initiator groupCall)
      (map (fun p => (Participant.userId p, Participant.status p))
           (GroupCall.participants groupCall)) in
  let socketsInRoom :=
    List.filter (fun s => bool_decide (roomId ∈ Socket.rooms s)) sockets in
  let allSockets :=
    match socketsInRoom with [] => sockets | _ => socketsInRoom end in
  let others :=
    List.filter (fun pid => negb (bool_decide (pid = GroupCall.initiator groupCall)))
      (Room.participants room) in
  let sent :=
    flat_map (fun pid => map (fun s => (pid, Socket.id s)) (sockets_of pid allSockets))
      others in
  let notifiedParticipants := map fst sent in
  let w1 := set_emitted (emitted w ++ map (fun x => mkEmit (snd x) payload) sent) w in
  let groupCall' :=
    GroupCall.set_participants
      (map (fun p =>
              if bool_decide (Participant.userId p ∈ notifiedParticipants)
              then Participant.set_notificationSent true p else p)
           (GroupCall.participants groupCall))
      groupCall in
  let notificationsSent := length sent in
  (groupCall', if bool_decide (0 < notificationsSent) then save groupCall' w1 else w1).

(** The rest of [initiate] once no live call stands in the way: create
    the document, save it, notify, respond 201. *)
Definition create_call (userId roomId : string) (room : Room.t)
    (callType : CallType) (now : Z) (uuid newId : string) (w : World)
    : World * Response :=
  let groupCall := new_call newId roomId uuid userId room callType now in
  let w1 := save groupCall w in
  let '(groupCall, w2) :=
    match io w1 with
    | Some sockets => notify_invited sockets roomId room groupCall w1
    | None => (groupCall, w1)
    end in
  (w2, mkResponse 201 (MessageCall "Group call initiated" groupCall)).

(** [roomId] is [None] when the request body has none (or an empty one);
    [callType] defaults to ['video'].  [uuid] is the value [uuidv4()]
    returns, [newId] the [_id] the new document gets, [now] the clock. *)
Definition initiate (userId : string) (roomId : option string)
    (callType : option CallType) (now : Z) (uuid newId : string) (w : World)
    : World * Response :=
  let callType := default video callType in
  match roomId with
  | None => (w, mkResponse 400 (Message "Room ID is required"))
  | Some roomId =>
    match findRoom roomId (rooms w) with
    | None => (w, mkResponse 404 (Message "Room not found"))
    | Some room =>
      if negb (existsb (fun p => bool_decide (p = userId)) (Room.participants room))
      then (w, mkResponse 403 (Message "You are not a participant of this room"))
      else
        match findLiveForRoom roomId (calls w) with
        | Some existingCall =>
            if isAbandoned now existingCall then
              let '(existingCall, w1) := endCall now existingCall w in
              let w2 := save existingCall w1 in
              create_call userId roomId room callType now uuid newId w2
            else
              (w, mkResponse 200
                    (MessageCall "Active call already exists for this room"
                       existingCall))
        | None => create_call userId roomId room callType now uuid newId w
        end
    end
  end.

(** *** getCall *)

Definition getCall (userId callId : string) (w : World) : World * Response :=
  match findById callId (calls w) with
  | None => (w, mkResponse 404 (Message "Group call not found"))
  | Some groupCall =>
      if existsb (is_user userId) (GroupCall.participants groupCall)
      then (w, mkResponse 200 (Call groupCall))
      else (w, mkResponse 403 (Message "You are not a participant of this call"))
  end.

(** *** decline *)

(** [participant.status = 'declined'] on the participant found. *)
Definition decline_doc (userId : string) (groupCall : GroupCall.t) : GroupCall.t :=
  GroupCall.set_participants
    (update_first (is_user userId) (Participant.set_status PStatus.declined)
       (GroupCall.participants groupCall))
    groupCall.

Definition decline (userId callId : string) (w : World) : World * Response :=
  match findById callId (calls w) with
  | None => (w, mkResponse 404 (Message "Group call not found"))
  | Some groupCall =>
      match find_participant userId (GroupCall.participants groupCall) with
      | None => (w, mkResponse 403 (Message "You are not a participant of this call"))
      | Some _ =>
          let groupCall := decline_doc userId groupCall in
          (save groupCall w, mkResponse 200 (Message "Group call declined"))
      end
  end.

(** *** join *)

Definition join_participant (now : Z) (p : Participant.t) : Participant.t :=
  Participant.set_joinedAt (Some now) (Participant.set_status PStatus.joined p).

(** The assignments [join] makes to the fetched document before saving it. *)
Definition join_doc (userId : string) (now : Z) (groupCall : GroupCall.t)
    : GroupCall.t :=
  let c1 :=
    GroupCall.set_participants
      (update_first (is_user userId) (join_participant now)
         (GroupCall.participants groupCall))
      groupCall in
  let c2 :=
    if includes userId (GroupCall.activeParticipants c1) then c1
    else GroupCall.set_activeParticipants
           (GroupCall.activeParticipants c1 ++ [userId]) c1 in
  if bool_decide (GroupCall.status c2 = CallStatus.ringing)
     && bool_decide (2 <= length (GroupCall.activeParticipants c2))
  then GroupCall.set_status CallStatus.active c2
  else c2.

Definition join (userId callId : string) (now : Z) (w : World) : World * Response :=
  match findById callId (calls w) with
  | None => (w, mkResponse 404 (Message "Group call not found"))
  | Some groupCall =>
      match find_participant userId (GroupCall.participants groupCall) with
      | None => (w, mkResponse 403 (Message "You are not a participant of this call"))
      | Some _ =>
          let groupCall := join_doc userId now groupCall in
          let w1 := save groupCall w in
          let w2 := clear_timer (GroupCall._id groupCall) w1 in
          let w3 :=
            emit (GroupCall.callRoomId groupCall)
              (participantJoined (GroupCall._id groupCall) userId
                 (GroupCall.activeParticipants groupCall)) w2 in
          (w3, mkResponse 200 (MessageCall "Joined group call" groupCall))
      end
  end.

(** *** leave *)

Definition maxRetries : nat := 3.

(** The [$set] of [leave], applied to every element the array filter
    [{ 'elem.userId': userId }] selects. *)
Definition leave_participant (userId : string) (now : Z) (p : Participant.t)
    : Participant.t :=
  if is_user userId p
  then Participant.set_leftAt (Some now) (Participant.set_status PStatus.left p)
  else p.

(** The update document of [leave]: the [$set] above and
    [$pull: { activeParticipants: userId }]. *)
Definition leave_update (userId : string) (now : Z) (c : GroupCall.t) : GroupCall.t :=
  GroupCall.set_activeParticipants
    (List.filter (fun u => negb (bool_decide (u = userId)))
       (GroupCall.activeParticipants c))
    (GroupCall.set_participants
       (map (leave_participant userId now) (GroupCall.participants c)) c).

(** [GroupCall.findOneAndUpdate({ _id: callId }, update, { new: true })]:
    the updated document, or nothing when no document has that id. *)
Definition findOneAndUpdate (callId userId : string) (now : Z) (w : World)
    : option (GroupCall.t * World) :=
  match findById callId (calls w) with
  | None => None
  | Some c => let c' := leave_update userId now c in Some (c', save c' w)
  end.

(** How the retry loop of [leave] is left. *)
Inductive LoopResult :=
| Updated (updateResult : GroupCall.t)   (* [break] after a successful write *)
| NotFound                               (* [!updateResult]: respond 404 *)
| Thrown                                 (* the error is rethrown *)
| CondFalse.                             (* the [while] condition is false *)

Record Loop := mkLoop {
  result : LoopResult;
  world : World;
  attempts : nat;          (* calls of [findOneAndUpdate] made *)
  backoffs : list Z        (* delays slept between attempts, in order *)
}.

(** [while (retryCount < maxRetries) { try {...} catch {...} }].
    [throws k] tells whether the write throws when it is attempted with
    [retryCount = k].  [fuel] bounds the iterations; [None] is "out of
    fuel". *)
Fixpoint retry_loop (fuel retryCount : nat) (throws : nat -> bool)
    (callId userId : string) (now : Z) (w : World) (attempts : nat)
    (backoffs : list Z) : option Loop :=
  match fuel with
  | O => None
  | S fuel' =>
      if bool_decide (retryCount < maxRetries) then
        if throws retryCount then
          let retryCount := S retryCount in
          if bool_decide (maxRetries <= retryCount)
          then Some (mkLoop Thrown w (S attempts) backoffs)
          else retry_loop fuel' retryCount throws callId userId now w
                 (S attempts) (backoffs ++ [(100 * Z.of_nat retryCount)%Z])
        else
          match findOneAndUpdate callId userId now w with
          | None => Some (mkLoop NotFound w (S attempts) backoffs)
          | Some (updateResult, w') =>
              Some (mkLoop (Updated updateResult) w' (S attempts) backoffs)
          end
      else Some (mkLoop CondFalse w attempts backoffs)
  end.

(** What [leave] does once the participant has been removed. *)
Definition leave_finish (userId callId : string) (tEnd : Z)
    (groupCall : GroupCall.t) (w : World) : World * Response :=
  let '(groupCall, w1) :=
    if bool_decide (length (GroupCall.activeParticipants groupCall) = 0) then
      let c := end_transition tEnd groupCall in (c, save c w)
    else (groupCall, w) in
  let callIdStr := GroupCall._id groupCall in
  let w2 :=
    if bool_decide (length (GroupCall.activeParticipants groupCall) = 1)
    then set_timer callIdStr (30 * 1000) (clear_timer callIdStr w1)
    else clear_timer callIdStr w1 in
  let callEnded := bool_decide (GroupCall.status groupCall = CallStatus.ended) in
  let w3 :=
    emit (GroupCall.callRoomId groupCall)
      (participantLeft (GroupCall._id groupCall) userId
         (GroupCall.activeParticipants groupCall) callEnded) w2 in
  (w3, mkResponse 200 (MessageCallEnded "Left group call" callEnded)).

Record LeaveRun := mkLeaveRun {
  lr_world : World;
  lr_response : Response;
  lr_attempts : nat;
  lr_backoffs : list Z
}.

(** [tLeft] is the clock when the write is made, [tEnd] the clock when
    the call is ended. *)
Definition leave_run (fuel : nat) (userId callId : string)
    (throws : nat -> bool) (tLeft tEnd : Z) (w : World) : option LeaveRun :=
  match findById callId (calls w) with
  | None =>
      Some (mkLeaveRun w (mkResponse 404 (Message "Group call not found")) 0 [])
  | Some groupCall =>
      match retry_loop fuel 0 throws callId userId tLeft w 0 [] with
      | None => None
      | Some l =>
          let '(w', r) :=
            match result l with
            | Updated updateResult =>
                leave_finish userId callId tEnd updateResult (world l)
            | CondFalse => leave_finish userId callId tEnd groupCall (world l)
            | NotFound =>
                (world l, mkResponse 404 (Message "Group call not found"))
            | Thrown =>
                (world l, mkResponse 500 (MessageError "Internal server error"))
            end in
          Some (mkLeaveRun w' r (attempts l) (backoffs l))
      end
  end.

(** *** The timer handler *)

(** A [Timeout] of the event loop stands for the closure [leave] created.
    The closure re-fetches by [callId] and, in its [finally], deletes the
    registry entry [callIdStr = groupCall._id.toString()]; the document
    was fetched by [callId], so the two are the same string, [t_callId]. *)
Definition noParticipantTimerHandler (t : Timeout) (now : Z) (w : World) : World :=
  let w1 :=
    match findById (t_callId t) (calls w) with
    | None => w
    | Some fresh =>
        if bool_decide (length (GroupCall.activeParticipants fresh) <= 1)
           && negb (bool_decide (GroupCall.status fresh = CallStatus.ended))
        then
          let fresh := end_transition now fresh in
          emit (GroupCall.callRoomId fresh)
            (group_call_ended (GroupCall._id fresh) "no_participants")
            (save fresh w)
        else w
    end in
  set_timers (delete (t_callId t) (_noParticipantTimers w1))
             (timeouts w1) (nextTimeoutId w1) w1.

(** The event loop runs the pending timeout [tid]. *)
Definition fire (tid : nat) (now : Z) (w : World) : World :=
  match timeouts w !! tid with
  | None => w
  | Some t =>
      noParticipantTimerHandler t now
        (set_timers (_noParticipantTimers w) (delete tid (timeouts w))
           (nextTimeoutId w) w)
  end.

(** [leave] runs its loop with the fuel [maxRetries]; see [leave_total]. *)
Definition leave (userId callId : string) (throws : nat -> bool)
    (tLeft tEnd : Z) (w : World) : option (World * Response) :=
  match leave_run maxRetries userId callId throws tLeft tEnd w with
  | Some run => Some (lr_world run, lr_response run)
  | None => None
  end.

End GroupCallController.

Import GroupCallController.

(** ** Notions used in the statements *)

(** The write of one attempt, as a loop exit. *)
Definition write_once (callId u : string) (now : Z) (w : World)
    (attempts : nat) (backoffs : list Z) : Loop :=
  match findOneAndUpdate callId u now w with
  | None => mkLoop NotFound w attempts backoffs
  | Some (c, w') => mkLoop (Updated c) w' attempts backoffs
  end.

(** The document a successful [leave] leaves in the store. *)
Definition leave_doc (u : string) (tLeft tEnd : Z) (c : GroupCall.t) : GroupCall.t :=
  let g := leave_update u tLeft c in
  if bool_decide (length (GroupCall.activeParticipants g) = 0)
  then end_transition tEnd g else g.

(** A ringing session has at most one active participant. *)
Definition ringing_bound (c : GroupCall.t) : Prop :=
  GroupCall.status c = CallStatus.ringing ->
  length (GroupCall.activeParticipants c) <= 1.

(** Newest first: no document is followed by one created later. *)
Definition newest_first (cs : list GroupCall.t) : Prop :=
  Sorted (fun a b => (GroupCall.createdAt b <= GroupCall.createdAt a)%Z) cs.

(** The operations that change the participants of a session, with the
    values they read from the request and from the environment. *)
Inductive Op :=
| OpJoin (userId callId : string) (now : Z)
| OpDecline (userId callId : string)
| OpLeave (userId callId : string) (throws : nat -> bool) (tLeft tEnd : Z)
| OpFire (tid : nat) (now : Z).

Definition run (op : Op) (w : World) : World :=
  match op with
  | OpJoin u callId now => (join u callId now w).1
  | OpDecline u callId => (decline u callId w).1
  | OpLeave u callId throws tLeft tEnd =>
      match leave u callId throws tLeft tEnd w with
      | Some (w', _) => w'
      | None => w
      end
  | OpFire tid now => fire tid now w
  end.

(** The document [d] an operation stores in place of the document [c] it
    fetched, when it stores one. *)
Definition op_effect (op : Op) (c d : GroupCall.t) : Prop :=
  match op with
  | OpJoin u _ now => d = join_doc u now c
  | OpDecline u _ => d = decline_doc u c
  | OpLeave u _ _ tLeft tEnd => d = leave_doc u tLeft tEnd c
  | OpFire _ now =>
      d = end_transition now c
      /\ length (GroupCall.activeParticipants c) <= 1
      /\ GroupCall.status c <> CallStatus.ended
  end.

(** The status an operation assigns to the participant it is called by. *)
Definition assigns (op : Op) (u : string) (s : PStatus.t) : Prop :=
  match op with
  | OpJoin v _ _ => v = u /\ s = PStatus.joined
  | OpDecline v _ => v = u /\ s = PStatus.declined
  | OpLeave v _ _ _ _ => v = u /\ s = PStatus.left
  | OpFire _ _ => False
  end.

(** How one participant record may differ before and after [op]. *)
Definition status_step (op : Op) (p p' : Participant.t) : Prop :=
  Participant.userId p' = Participant.userId p
  /\ (Participant.status p' = Participant.status p
      \/ (Participant.status p = PStatus.invited
          /\ Participant.status p' = PStatus.missed)
      \/ assigns op (Participant.userId p) (Participant.status p')).

(** ** Concrete worlds used by the examples *)

Definition alice : string := "alice".
Definition bob : string := "bob".
Definition carol : string := "carol".
Definition mallory : string := "mallory".

Definition never_throws : nat -> bool := fun _ => false.

Definition general : Room.t := Room.mk "room1" "General" [alice; bob; carol].

Definition world0 : World := mkWorld [general] [] (Some []) [] ∅ ∅ 0.

(** alice initiates a call in [general] at time 1000. *)
Definition world1 : World :=
  (initiate alice (Some "room1") (Some audio) 1000 "uuid-1" "call1" world0).1.

(** bob joins at time 2000: the call is active with alice and bob. *)
Definition world2 : World := (join bob "call1" 2000 world1).1.

(** The call that [scripts/seed.js] creates: ringing, everybody invited,
    no active participant. *)
Definition seed_call : GroupCall.t :=
  GroupCall.mk "seed1" "room1" "seed-call-1" alice
    (map (fun u => Participant.mk u PStatus.invited None None false false)
       [alice; bob; carol])
    audio CallStatus.ringing [] 500 None None 500.

Definition world_seed : World := mkWorld [general] [seed_call] (Some []) [] ∅ ∅ 0.


(** alice leaves at time 3000, bob at 4000: the call has ended. *)
Definition world3 : World := run (OpLeave alice "call1" never_throws 3000 3000) world2.
Definition world4 : World := run (OpLeave bob "call1" never_throws 4000 4000) world3.

(** Instead, the timeout registered by alice's leave runs at time 33000:
    the call is ended by the timer handler, which leaves bob among the
    active participants. *)
Definition world3e : World := run (OpFire 0 33000) world3.

(** ** Notions about the collection and the timers as a whole *)

(** Every active participant of a session is one of its participants. *)
Definition active_are_participants (c : GroupCall.t) : Prop :=
  forall v, v ∈ GroupCall.activeParticipants c ->
    exists p, p ∈ GroupCall.participants c /\ Participant.userId p = v.

(** The rooms of the live (ringing or active) sessions, one entry per
    session. *)
Definition live_rooms (cs : list GroupCall.t) : list string :=
  map GroupCall.roomId (List.filter is_live cs).

(** Document ids are distinct and no room has two live sessions. *)
Definition store_ok (cs : list GroupCall.t) : Prop :=
  NoDup (map GroupCall._id cs) /\ NoDup (live_rooms cs).


(** The sockets [initiate] searches for the room members: those in the
    socket.io room of the chat room when there is one, else all connected
    sockets. *)
Definition invite_sockets (roomId : string) (sockets : list Socket.t)
    : list Socket.t :=
  match List.filter (fun s => bool_decide (roomId ∈ Socket.rooms s)) sockets with
  | [] => sockets
  | socketsInRoom => socketsInRoom
  end.

(** The (member, socket id) pairs an invitation of [initiate] goes to, in
    the order of emission: for every room member other than the initiator,
    the sockets of that member among [invite_sockets]. *)
Definition invited_sockets (userId rid : string) (room : Room.t)
    (sockets : list Socket.t) : list (string * string) :=
  flat_map
    (fun pid => map (fun s => (pid, Socket.id s))
                  (sockets_of pid (invite_sockets rid sockets)))
    (List.filter (fun pid => negb (bool_decide (pid = userId)))
       (Room.participants room)).

Definition sent_to (userId rid : string) (room : Room.t) (w : World)
    : list (string * string) :=
  match io w with
  | Some sockets => invited_sockets userId rid room sockets
  | None => []
  end.

(** The document [initiate] creates, with the [notificationSent] flags it
    sets after notifying. *)
Definition created_call (userId rid : string) (room : Room.t)
    (callType : CallType) (now : Z) (uuid newId : string) (w : World)
    : GroupCall.t :=
  let nc := new_call newId rid uuid userId room callType now in
  GroupCall.set_participants
    (map (fun p => if bool_decide (Participant.userId p
                                   ∈ map fst (sent_to userId rid room w))
                   then Participant.set_notificationSent true p else p)
       (GroupCall.participants nc))
    nc.

(** The payload of the invitation. *)
Definition invite_payload (userId rid : string) (room : Room.t)
    (callType : CallType) (now : Z) (uuid newId : string) : Event :=
  group_incoming_call newId ("group-call-" +:+ uuid) rid (Room.name room)
    callType userId
    (map (fun p => (Participant.userId p, Participant.status p))
       (map (new_participant userId now) (Room.participants room))).

(** A world with connected sockets: bob and alice are in the socket.io
    room of the chat room, carol is connected but not in it, and one socket
    is not authenticated. *)
Definition world_sockets : World :=
  mkWorld [general] []
    (Some [Socket.mk "s1" (Some bob) ["room1"];
           Socket.mk "s2" (Some carol) [];
           Socket.mk "s3" (Some alice) ["room1"];
           Socket.mk "s4" None ["room1"]])
    [] ∅ ∅ 0.

(** ** lib/db.js *)

Module Db.

Definition DEFAULT_RETRIES : nat := 3.
Definition DEFAULT_BACKOFF_MS : Z := 1000.

(** What a settled [connectionPromise] holds: [mongoose.connection], or
    [undefined] when the loop was left without connecting. *)
Inductive Value := Connection | Undefined.

(** The module variable [connectionPromise] and
    [mongoose.connection.readyState]. *)
Record State := mkState {
  readyState : nat;
  connectionPromise : option Value
}.

(** [process.env]; an unset variable is [None]. *)
Record Env := mkEnv {
  MONGO_URI : option string;
  MONGODB_URI : option string;
  MONGO_URL : option string
}.

(** [a || b] on values that are strings or undefined: the empty string is
    falsy. *)
Definition or_else (a b : option string) : option string :=
  match a with
  | Some s => if bool_decide (s = "") then b else a
  | None => b
  end.

Definition truthy (a : option string) : bool :=
  match a with
  | Some s => negb (bool_decide (s = ""))
  | None => false
  end.

Inductive Error :=
| UriNotDefined            (* 'MongoDB URI is not defined. ...' *)
| ConnectionFailed (attempts : nat).
                           (* 'MongoDB connection failed after n attempts: ...' *)

Inductive Outcome := Resolved (v : Value) | Rejected (e : Error).

(** How the loop in the cached promise is left. *)
Inductive LoopEnd :=
| Connected                (* [return mongoose.connection] *)
| FinalError (attempt : nat)   (* [throw finalErr] *)
| CondFalse.               (* the [while] condition is false *)

Record Loop := mkLoop {
  loop_end : LoopEnd;
  attempts : nat;          (* calls of [mongoose.connect] made *)
  waits : list Z           (* delays slept between attempts, in order *)
}.

(** [while (attempt < retries) { try { attempt += 1; connect } catch {...} }].
    [fails n] tells whether [mongoose.connect] throws at attempt number
    [n] (from 1).  [fuel] bounds the iterations; [None] is "out of fuel". *)
Fixpoint connect_loop (fuel attempt retries : nat) (backoffMs : Z)
    (fails : nat -> bool) (waits : list Z) : option Loop :=
  match fuel with
  | O => None
  | S fuel' =>
      if bool_decide (attempt < retries) then
        let attempt := S attempt in
        if fails attempt then
          if bool_decide (retries <= attempt)
          then Some (mkLoop (FinalError attempt) attempt waits)
          else connect_loop fuel' attempt retries backoffMs fails
                 (waits ++ [(backoffMs * 2 ^ Z.of_nat (attempt - 1))%Z])
        else Some (mkLoop Connected attempt waits)
      else Some (mkLoop CondFalse attempt waits)
  end.

Record Run := mkRun {
  outcome : Outcome;
  state : State;
  run_attempts : nat;
  run_waits : list Z
}.

(** One call of [connectDB({ retries, backoffMs })], awaited to the end
    before the next call is made. *)
Definition connectDB_fuel (fuel : nat) (retries : nat) (backoffMs : Z)
    (env : Env) (fails : nat -> bool) (st : State) : option Run :=
  if bool_decide (readyState st = 1) then
    Some (mkRun (Resolved Connection) st 0 [])
  else
    match connectionPromise st with
    | Some v => Some (mkRun (Resolved v) st 0 [])
    | None =>
        let mongoURI := or_else (MONGO_URI env) (or_else (MONGODB_URI env) (MONGO_URL env)) in
        if negb (truthy mongoURI) then
          Some (mkRun (Rejected UriNotDefined) st 0 [])
        else
          match connect_loop fuel 0 retries backoffMs fails [] with
          | None => None
          | Some l =>
              Some
                match loop_end l with
                | Connected =>
                    mkRun (Resolved Connection) (mkState 1 (Some Connection))
                      (attempts l) (waits l)
                | FinalError n =>
                    mkRun (Rejected (ConnectionFailed n))
                      (mkState (readyState st) None) (attempts l) (waits l)
                | CondFalse =>
                    mkRun (Resolved Undefined)
                      (mkState (readyState st) (Some Undefined))
                      (attempts l) (waits l)
                end
          end
    end.

(** The loop is given one unit of fuel per attempt and one for the last
    test of its condition, which is as many as it can use. *)
Definition connectDB (retries : nat) (backoffMs : Z) (env : Env)
    (fails : nat -> bool) (st : State) : option Run :=
  connectDB_fuel (S retries) retries backoffMs env fails st.

End Db.

(** ** Chat messages: the state of the message and history controllers

    [src/controllers/messageController.js] and
    [src/controllers/historyController.js] over the [User] and [Chat]
    collections.  As for the calls, a handler runs as one step, with the
    database connected ([await connectDB()] resolves).  The ids the
    authentication layer and the request body give are well-formed
    ObjectId strings, written as they are stored, so that the casts of the
    schema do not throw and the schema accepts the document [sendMessage]
    builds; the id in the query of [getHistory] is any string, and the
    cast of it may throw.  A room is named by a string.
    [translations] is not read by these handlers and is left out, and so
    is [populate]. *)

Module User.
Record t := mk {
  _id : string;
  username : string;
  preferredLanguage : option string
}.
End User.

Module Chat.
Record t := mk {
  _id : string;
  sender : string;
  receiver : option string;
  room : option string;
  isGroupMessage : bool;
  originalContent : string;
  content : string;
  originalLanguage : string;
  status : string;
  timestamp : Z
}.
End Chat.

(** The events the message controller emits; the message object sent to
    the clients is the stored document with the client's [clientTempId]
    attached. *)
Inductive ChatEvent :=
| receiveMessage (message : Chat.t) (clientTempId : option string)
| messageStatusUpdate (messageId status : string) (clientTempId : option string).

Record ChatEmit := mkChatEmit { chat_target : string; chat_event : ChatEvent }.

Record ChatWorld := mkChatWorld {
  users : list User.t;                (* User collection *)
  chats : list Chat.t;                (* Chat collection, insertion order *)
  chat_io : option (list Socket.t);   (* global.__io and its connected sockets *)
  chat_emitted : list ChatEmit        (* events emitted so far, oldest first *)
}.

Inductive ChatBody :=
| Error (error : string)
| Saved (message : Chat.t) (clientTempId : option string)
| Messages (messages : list Chat.t) (hasMore : bool)
| Unread (unreadByContact unreadByRoom : gmap string nat).

Record ChatResponse := mkChatResponse { chat_code : nat; chat_body : ChatBody }.

(** A request field is truthy when it is present and not the empty
    string. *)
Definition present (a : option string) : option string :=
  match a with
  | Some s => if bool_decide (s = "") then None else Some s
  | None => None
  end.

Module MessageController.

(** [User.findById(id)] *)
Definition findUser (id : string) (us : list User.t) : option User.t :=
  find (fun u => bool_decide (User._id u = id)) us.

(** [Chat.findById(id)] *)
Definition findChat (id : string) (ms : list Chat.t) : option Chat.t :=
  find (fun m => bool_decide (Chat._id m = id)) ms.

(** The sockets of a user:
    [s.user && s.user.userId === userId] *)
Definition sockets_of_user (userId : string) (sockets : list Socket.t)
    : list Socket.t :=
  List.filter (fun s => bool_decide (Socket.user s = Some userId)) sockets.

Definition emit_to_sockets (ss : list Socket.t) (e : ChatEvent) : list ChatEmit :=
  map (fun s => mkChatEmit (Socket.id s) e) ss.

(** The fields of the request body, as sent; [newId] is the [_id] the new
    document gets and [now] the clock.  Inserting a document whose [_id]
    is taken makes [save] throw. *)
Definition sendMessage (userId : string)
    (receiverId content roomId clientTempId : option string)
    (now : Z) (newId : string) (w : ChatWorld) : ChatWorld * ChatResponse :=
  match present content with
  | None => (w, mkChatResponse 400 (Error "Message content is required"))
  | Some content =>
    match findUser userId (users w) with
    | None => (w, mkChatResponse 500 (Error "Failed to save message"))
    | Some sender =>
      let originalLanguage := default "en" (present (User.preferredLanguage sender)) in
      let newMessage (receiver room : option string) (isGroupMessage : bool) :=
        Chat.mk newId userId receiver room isGroupMessage content content
          originalLanguage "sent" now in
      let target :=
        match present roomId, present receiverId with
        | Some roomId, _ => Some (newMessage None (Some roomId) true)
        | None, Some receiverId => Some (newMessage (Some receiverId) None false)
        | None, None => None
        end in
      match target with
      | None =>
          (w, mkChatResponse 400 (Error "Either receiverId or roomId is required"))
      | Some newMessage =>
        match findChat newId (chats w) with
        | Some _ => (w, mkChatResponse 500 (Error "Failed to save message"))
        | None =>
          let populatedMessage := newMessage in
          let clientTempId := present clientTempId in
          let received := receiveMessage populatedMessage clientTempId in
          let emits :=
            match chat_io w with
            | None => []
            | Some sockets =>
                match present roomId, present receiverId with
                | Some roomId, _ => [mkChatEmit roomId received]
                | None, Some receiverId =>
                    emit_to_sockets (sockets_of_user receiverId sockets) received
                    ++ emit_to_sockets (sockets_of_user userId sockets) received
                | None, None => []
                end
                ++ emit_to_sockets (sockets_of_user userId sockets)
                     (messageStatusUpdate (Chat._id populatedMessage) "sent"
                        clientTempId)
            end in
          (mkChatWorld (users w) (chats w ++ [newMessage]) (chat_io w)
             (chat_emitted w ++ emits),
           mkChatResponse 201 (Saved populatedMessage clientTempId))
        end
      end
    end
  end.

End MessageController.

Module HistoryController.

(** The query of [getHistory] for direct messages:
    [{ $or: [{ sender: current, receiver: target },
             { sender: target, receiver: current }],
       room: { $exists: false } }] *)
Definition direct_between (currentUserId targetUserId : string) (m : Chat.t) : bool :=
  (bool_decide (Chat.sender m = currentUserId /\ Chat.receiver m = Some targetUserId)
   || bool_decide (Chat.sender m = targetUserId /\ Chat.receiver m = Some currentUserId))
  && bool_decide (Chat.room m = None).

(** [{ room: roomId }] *)
Definition in_room (roomId : string) (m : Chat.t) : bool :=
  bool_decide (Chat.room m = Some roomId).

(** [.sort({ timestamp: 1 })]: ascending by timestamp.  The store leaves
    the order of documents with the same timestamp open: [tie m n] tells
    whether it puts [m] before [n] then. *)
Fixpoint insert_asc (tie : Chat.t -> Chat.t -> bool) (m : Chat.t)
    (ms : list Chat.t) : list Chat.t :=
  match ms with
  | [] => [m]
  | n :: ms' =>
      if (Chat.timestamp m <? Chat.timestamp n)%Z
         || ((Chat.timestamp m =? Chat.timestamp n)%Z && tie m n)
      then m :: n :: ms'
      else n :: insert_asc tie m ms'
  end.

Definition sort_timestamp_asc (tie : Chat.t -> Chat.t -> bool)
    (ms : list Chat.t) : list Chat.t :=
  foldr (insert_asc tie) [] ms.

(** What [getHistory] does with its query: [Chat.find(query)], sorted, is
    answered 200. *)
Definition find_sorted (tie : Chat.t -> Chat.t -> bool) (query : Chat.t -> bool)
    (w : ChatWorld) : ChatWorld * ChatResponse :=
  let messages := sort_timestamp_asc tie (List.filter query (chats w)) in
  (w, mkChatResponse 200 (Messages messages false)).

(** [currentUserId] is [req.user.userId]; [userId] and [roomId] are the
    query parameters.  [ObjectId s] is [new mongoose.Types.ObjectId(s)]:
    the id, written as it is stored, or [None] when the constructor throws
    because [s] is not a well-formed id; the handler's [catch] then
    answers 500.  The id asked for is cast first, the caller's after it. *)
Definition getHistory (ObjectId : string -> option string)
    (tie : Chat.t -> Chat.t -> bool) (currentUserId : string)
    (userId roomId : option string) (w : ChatWorld) : ChatWorld * ChatResponse :=
  match present userId, present roomId with
  | Some userId, _ =>
      match ObjectId userId with
      | None => (w, mkChatResponse 500 (Error "Server error"))
      | Some targetUserId =>
          match ObjectId currentUserId with
          | None => (w, mkChatResponse 500 (Error "Server error"))
          | Some currentUserId =>
              find_sorted tie (direct_between currentUserId targetUserId) w
          end
      end
  | None, Some roomId => find_sorted tie (in_room roomId) w
  | None, None => (w, mkChatResponse 400 (Error "userId or roomId required"))
  end.

(** [status: { $in: ['sent', 'delivered'] }] *)
Definition not_seen (m : Chat.t) : bool :=
  bool_decide (Chat.status m = "sent") || bool_decide (Chat.status m = "delivered").

(** The first [$match] of [getUnreadCounts]. *)
Definition unread_direct (currentUserId : string) (m : Chat.t) : bool :=
  bool_decide (Chat.receiver m = Some currentUserId)
  && not_seen m
  && bool_decide (Chat.room m = None).

(** The second [$match] of [getUnreadCounts]. *)
Definition unread_in_rooms (currentUserId : string) (m : Chat.t) : bool :=
  bool_decide (Chat.room m <> None)
  && negb (bool_decide (Chat.sender m = currentUserId))
  && not_seen m.

(** [{ $group: { _id: key, unreadCount: { $sum: 1 } } }] followed by the
    [forEach] that writes each group into an object: the object maps every
    key that occurs to the number of documents with that key. *)
Definition count_by (key : Chat.t -> string) (ms : list Chat.t) : gmap string nat :=
  foldr (fun m acc => <[key m := S (default 0 (acc !! key m))]> acc) ∅ ms.

Definition room_key (m : Chat.t) : string := default "" (Chat.room m).

Definition getUnreadCounts (currentUserId : string) (w : ChatWorld)
    : ChatWorld * ChatResponse :=
  let unreadByContact :=
    count_by Chat.sender (List.filter (unread_direct currentUserId) (chats w)) in
  let unreadByRoom :=
    count_by room_key (List.filter (unread_in_rooms currentUserId) (chats w)) in
  (w, mkChatResponse 200 (Unread unreadByContact unreadByRoom)).

End HistoryController.

(** ** Reading the responses of the history controller *)

(** The messages of a history response. *)
Definition history_messages (r : ChatResponse) : list Chat.t :=
  match chat_body r with
  | Messages messages _ => messages
  | _ => []
  end.

(** The entry of a key in an object of counts, 0 when the key is absent. *)
Definition count_of (counts : gmap string nat) (key : string) : nat :=
  default 0 (counts !! key).

Definition unread_by_contact (r : ChatResponse) (contact : string) : nat :=
  match chat_body r with
  | Unread unreadByContact _ => count_of unreadByContact contact
  | _ => 0
  end.

Definition unread_by_room (r : ChatResponse) (room : string) : nat :=
  match chat_body r with
  | Unread _ unreadByRoom => count_of unreadByRoom room
  | _ => 0
  end.

(** A chat world like the seeded one: three users, alice and bob
    connected, no message yet. *)
Definition chat_world0 : ChatWorld :=
  mkChatWorld
    [User.mk alice "alice" (Some "en"); User.mk bob "bob" (Some "es");
     User.mk carol "carol" None]
    []
    (Some [Socket.mk "s1" (Some bob) []; Socket.mk "s3" (Some alice) []])
    [].

(** alice writes to bob at time 100, bob answers at 200, carol writes to
    the room at 300. *)
Definition chat_world1 : ChatWorld :=
  (MessageController.sendMessage alice (Some bob) (Some "Hi Bob!") None
     (Some "tmp1") 100 "m1" chat_world0).1.
Definition chat_world2 : ChatWorld :=
  (MessageController.sendMessage bob (Some alice) (Some "Hola Alice!") None
     None 200 "m2" chat_world1).1.
Definition chat_world3 : ChatWorld :=
  (MessageController.sendMessage carol None (Some "Hello everyone")
     (Some "room1") None 300 "m3" chat_world2).1.

(** In the examples the ids of the three users are the well-formed ones,
    and of two messages with the same timestamp the one found later comes
    first. *)
Definition example_ObjectId (s : string) : option string :=
  if bool_decide (s ∈ [alice; bob; carol]) then Some s else None.

Definition example_tie (m n : Chat.t) : bool := true.

(** ** Facts about the store and the registry *)

Section Store.

Lemma findById_id id cs c : findById id cs = Some c -> GroupCall._id c = id.
Proof.
  unfold findById. intros H. apply find_some in H as [_ H].
  unfold same_id in H. by apply bool_decide_eq_true in H.
Qed.

Lemma findById_save_doc c cs : findById (GroupCall._id c) (save_doc c cs) = Some c.
Proof.
  unfold findById. induction cs as [|d cs IH]; simpl.
  - unfold same_id. by rewrite bool_decide_eq_true_2.
  - destruct (same_id (GroupCall._id c) d) eqn:E; simpl.
    + unfold same_id. by rewrite bool_decide_eq_true_2.
    + by rewrite E.
Qed.

Lemma findById_saved id c cs :
  GroupCall._id c = id -> findById id (save_doc c cs) = Some c.
Proof. intros <-. apply findById_save_doc. Qed.

Lemma findById_save_doc_ne id c cs :
  GroupCall._id c <> id -> findById id (save_doc c cs) = findById id cs.
Proof.
  intros Hne. unfold findById. induction cs as [|d cs IH]; simpl.
  - unfold same_id. by rewrite bool_decide_eq_false_2.
  - destruct (same_id (GroupCall._id c) d) eqn:E; simpl.
    + unfold same_id in *. apply bool_decide_eq_true in E.
      rewrite !bool_decide_eq_false_2; [done | congruence | congruence].
    + destruct (same_id id d); [done | apply IH].
Qed.

Lemma calls_clear_timer id w : calls (clear_timer id w) = calls w.
Proof. unfold clear_timer. by destruct (_ !! _). Qed.

Lemma calls_set_timer id d w : calls (set_timer id d w) = calls w.
Proof. done. Qed.

Lemma calls_emit tgt e w : calls (emit tgt e w) = calls w.
Proof. unfold emit. by destruct (io w). Qed.

Lemma calls_save c w : calls (save c w) = save_doc c (calls w).
Proof. done. Qed.

Lemma timers_emit tgt e w :
  _noParticipantTimers (emit tgt e w) = _noParticipantTimers w
  /\ timeouts (emit tgt e w) = timeouts w
  /\ nextTimeoutId (emit tgt e w) = nextTimeoutId w.
Proof. unfold emit. by destruct (io w). Qed.

Lemma io_clear_timer id w : io (clear_timer id w) = io w.
Proof. unfold clear_timer. by destruct (_ !! _). Qed.

Lemma emitted_clear_timer id w : emitted (clear_timer id w) = emitted w.
Proof. unfold clear_timer. by destruct (_ !! _). Qed.

End Store.

Create Rewrite HintDb world.
#[local] Hint Rewrite calls_clear_timer calls_set_timer calls_emit calls_save
  io_clear_timer emitted_clear_timer : world.

(** ** Facts about [join] and [leave] *)

Section JoinLeave.

Lemma join_doc_id u now c : GroupCall._id (join_doc u now c) = GroupCall._id c.
Proof.
  unfold join_doc. repeat (case_match; simpl); done.
Qed.

Lemma leave_update_id u now c :
  GroupCall._id (leave_update u now c) = GroupCall._id c.
Proof. done. Qed.

Lemma end_transition_id now c :
  GroupCall._id (end_transition now c) = GroupCall._id c.
Proof. done. Qed.

(** A successful [join] stores [join_doc] of the fetched document. *)
Lemma join_200 u callId now w w' r :
  join u callId now w = (w', r) -> code r = 200 ->
  exists c, findById callId (calls w) = Some c
    /\ find_participant u (GroupCall.participants c) <> None
    /\ findById callId (calls w') = Some (join_doc u now c)
    /\ r = mkResponse 200 (MessageCall "Joined group call" (join_doc u now c)).
Proof.
  unfold join. intros H Hc.
  destruct (findById callId (calls w)) as [c|] eqn:Hf;
    [|inversion H; subst; discriminate].
  destruct (find_participant u (GroupCall.participants c)) eqn:Hp;
    [|inversion H; subst; discriminate].
  inversion H; subst; clear H. exists c. split; [done|]. split; [congruence|].
  split; [|done].
  autorewrite with world. apply findById_saved.
  rewrite join_doc_id. by eapply findById_id.
Qed.

(** The loop started by [leave], unrolled: with the fuel [maxRetries] it
    always comes to an end. *)
Lemma retry_loop_unrolled throws callId u now w :
  retry_loop maxRetries 0 throws callId u now w 0 [] =
  Some (if throws 0 then
          if throws 1 then
            if throws 2 then mkLoop Thrown w 3 [100; 200]%Z
            else write_once callId u now w 3 [100; 200]%Z
          else write_once callId u now w 2 [100]%Z
        else write_once callId u now w 1 []).
Proof.
  unfold write_once, maxRetries. cbn [retry_loop].
  repeat (rewrite bool_decide_eq_true_2 by lia).
  repeat (rewrite bool_decide_eq_false_2 by lia).
  destruct (throws 0); [|by destruct findOneAndUpdate as [[??]|]].
  destruct (throws 1); [|by destruct findOneAndUpdate as [[??]|]].
  destruct (throws 2); [done|by destruct findOneAndUpdate as [[??]|]].
Qed.

Lemma leave_total u callId throws tLeft tEnd w :
  is_Some (leave u callId throws tLeft tEnd w).
Proof.
  unfold leave, leave_run. destruct (findById callId (calls w)); [|by eexists].
  rewrite retry_loop_unrolled. simpl.
  by destruct (match result _ with Updated _ => _ | _ => _ end).
Qed.

(** A [leave] answered with 200 made the write and then ran
    [leave_finish] on the updated document. *)
Lemma leave_200 u callId throws tLeft tEnd w w' r :
  leave u callId throws tLeft tEnd w = Some (w', r) -> code r = 200 ->
  exists c, findById callId (calls w) = Some c
    /\ leave_finish u callId tEnd (leave_update u tLeft c)
         (save (leave_update u tLeft c) w) = (w', r).
Proof.
  unfold leave, leave_run. intros H Hc.
  destruct (findById callId (calls w)) as [c|] eqn:Hf;
    [|inversion H; subst; discriminate].
  exists c. split; [done|].
  rewrite retry_loop_unrolled in H. unfold write_once, findOneAndUpdate in H.
  rewrite Hf in H.
  destruct (throws 0), (throws 1), (throws 2); simpl in H;
    try (destruct leave_finish as [w1 r1] eqn:E; by inversion H; subst);
    inversion H; subst; discriminate.
Qed.

(** The collection after [leave_finish]. *)
Lemma leave_finish_calls u callId tEnd g w :
  calls (leave_finish u callId tEnd g w).1 =
  if bool_decide (length (GroupCall.activeParticipants g) = 0)
  then save_doc (end_transition tEnd g) (calls w)
  else calls w.
Proof.
  unfold leave_finish. case_bool_decide; simpl.
  - repeat case_bool_decide; by autorewrite with world.
  - repeat case_bool_decide; by autorewrite with world.
Qed.

Lemma leave_doc_id u tLeft tEnd c :
  GroupCall._id (leave_doc u tLeft tEnd c) = GroupCall._id c.
Proof. unfold leave_doc. by case_bool_decide. Qed.

Lemma leave_200_doc u callId throws tLeft tEnd w w' r :
  leave u callId throws tLeft tEnd w = Some (w', r) -> code r = 200 ->
  exists c, findById callId (calls w) = Some c
    /\ findById callId (calls w') = Some (leave_doc u tLeft tEnd c).
Proof.
  intros H Hc. destruct (leave_200 _ _ _ _ _ _ _ _ H Hc) as (c & Hf & Hfin).
  exists c. split; [done|].
  pose proof (leave_finish_calls u callId tEnd (leave_update u tLeft c)
                (save (leave_update u tLeft c) w)) as Hcalls.
  rewrite Hfin in Hcalls. cbn [fst] in Hcalls. rewrite Hcalls.
  pose proof (findById_id _ _ _ Hf) as Hid.
  unfold leave_doc. case_bool_decide; by apply findById_saved.
Qed.

End JoinLeave.

(** ** Session status against the number of active participants *)

Lemma join_doc_ringing_bound u now c : ringing_bound (join_doc u now c).
Proof.
  unfold ringing_bound, join_doc.
  repeat (case_match; simpl in *); intros Hs;
    repeat match goal with
    | H : _ && _ = true |- _ => apply andb_true_iff in H as [??]
    | H : _ && _ = false |- _ => apply andb_false_iff in H as [?|?]
    | H : bool_decide _ = true |- _ => apply bool_decide_eq_true in H
    | H : bool_decide _ = false |- _ => apply bool_decide_eq_false in H
    end; simpl in *; try congruence; lia.
Qed.

Lemma join_doc_promotes u now c :
  GroupCall.status c = CallStatus.ringing ->
  GroupCall.status (join_doc u now c) = CallStatus.active
  <-> 2 <= length (GroupCall.activeParticipants (join_doc u now c)).
Proof.
  unfold join_doc. intros Hs.
  repeat (case_match; simpl in *);
    repeat match goal with
    | H : _ && _ = true |- _ => apply andb_true_iff in H as [??]
    | H : _ && _ = false |- _ => apply andb_false_iff in H as [?|?]
    | H : bool_decide _ = true |- _ => apply bool_decide_eq_true in H
    | H : bool_decide _ = false |- _ => apply bool_decide_eq_false in H
    end; simpl in *; split; intros; try congruence; try lia.
Qed.

Lemma length_pull (u : string) (ap : list string) :
  length (List.filter (fun v => negb (bool_decide (v = u))) ap) <= length ap.
Proof. induction ap as [|a ap IH]; simpl; [lia|]. case_match; simpl; lia. Qed.

Lemma leave_doc_status u tLeft tEnd c :
  (length (GroupCall.activeParticipants (leave_doc u tLeft tEnd c)) = 0
   /\ GroupCall.status (leave_doc u tLeft tEnd c) = CallStatus.ended)
  \/ (0 < length (GroupCall.activeParticipants (leave_doc u tLeft tEnd c))
      /\ GroupCall.status (leave_doc u tLeft tEnd c) = GroupCall.status c).
Proof.
  unfold leave_doc. case_bool_decide as Hlen; simpl in *.
  - by left.
  - right. split; [lia | done].
Qed.

Lemma leave_doc_active_le u tLeft tEnd c :
  length (GroupCall.activeParticipants (leave_doc u tLeft tEnd c))
  <= length (GroupCall.activeParticipants c).
Proof. unfold leave_doc. case_bool_decide; simpl; apply length_pull. Qed.

(** C1 as stated fails.  In [world2] the call is active with alice and bob;
    after alice's [leave] (answered 200) it is still ['active'] with bob as
    its only active participant. *)
Lemma C1_counterexample :
  exists w' r c',
    leave alice "call1" never_throws 3000 3000 world2 = Some (w', r)
    /\ code r = 200
    /\ findById "call1" (calls w') = Some c'
    /\ ~ (GroupCall.status c' = CallStatus.active
          <-> 2 <= length (GroupCall.activeParticipants c')).
Proof.
  eexists _, _, _. split; [vm_compute; reflexivity|].
  split; [reflexivity|]. split; [vm_compute; reflexivity|].
  simpl. intros [H _]. specialize (H eq_refl). lia.
Qed.

(** C1 (amended).  After a completed [join] the session satisfies
    "ringing implies at most one active participant", and a [join] on a
    ringing session leaves it active exactly when it then has at least two
    active participants.  A completed [leave] preserves "ringing implies at
    most one active participant", ends the session when nobody is left,
    and otherwise keeps the status it found: an active session is not
    demoted when its active participants drop to one. *)
Theorem C1_status_after_join_leave
    (u callId : string) (now tLeft tEnd : Z) (throws : nat -> bool)
    (w : World) (c : GroupCall.t) :
  findById callId (calls w) = Some c ->
  (forall w' r, join u callId now w = (w', r) -> code r = 200 ->
     exists c', findById callId (calls w') = Some c'
       /\ ringing_bound c'
       /\ (GroupCall.status c = CallStatus.ringing ->
           GroupCall.status c' = CallStatus.active
           <-> 2 <= length (GroupCall.activeParticipants c')))
  /\ (forall w' r, leave u callId throws tLeft tEnd w = Some (w', r) ->
      code r = 200 ->
      exists c', findById callId (calls w') = Some c'
        /\ (ringing_bound c -> ringing_bound c')
        /\ (length (GroupCall.activeParticipants c') = 0 ->
            GroupCall.status c' = CallStatus.ended)
        /\ (0 < length (GroupCall.activeParticipants c') ->
            GroupCall.status c' = GroupCall.status c)).
Proof.
  intros Hf. split; intros w' r H Hc.
  - destruct (join_200 _ _ _ _ _ _ H Hc) as (c0 & Hf0 & _ & Hf' & _).
    assert (c0 = c) as -> by congruence.
    eexists. split; [exact Hf'|]. split.
    + apply join_doc_ringing_bound.
    + apply join_doc_promotes.
  - destruct (leave_200_doc _ _ _ _ _ _ _ _ H Hc) as (c0 & Hf0 & Hf').
    assert (c0 = c) as -> by congruence.
    eexists. split; [exact Hf'|].
    pose proof (leave_doc_status u tLeft tEnd c) as Hst.
    pose proof (leave_doc_active_le u tLeft tEnd c) as Hle.
    unfold ringing_bound. repeat split.
    + intros Hb Hr. destruct Hst as [[Hz _]|[_ Hs]]; [lia|].
      rewrite Hs in Hr. specialize (Hb Hr). lia.
    + intros Hz. destruct Hst as [[_ Hs]|[Hp _]]; [done | lia].
    + intros Hp. destruct Hst as [[Hz _]|[_ Hs]]; [lia | done].
Qed.

Lemma C1_status_after_join_leave_witness :
  exists c,
    findById "call1" (calls world1) = Some c
    /\ exists c', findById "call1" (calls (join bob "call1" 2000 world1).1) = Some c'
         /\ ringing_bound c'
         /\ GroupCall.status c' = CallStatus.active.
Proof.
  eexists. split; [vm_compute; reflexivity|].
  destruct (C1_status_after_join_leave bob "call1" 2000 0 0 never_throws world1 _
              ltac:(vm_compute; reflexivity)) as [Hj _].
  destruct (Hj (join bob "call1" 2000 world1).1 (join bob "call1" 2000 world1).2
              ltac:(reflexivity) ltac:(reflexivity)) as (c' & Hf' & Hb & Hiff).
  exists c'. split; [exact Hf'|]. split; [exact Hb|].
  apply Hiff; [reflexivity|].
  vm_compute in Hf'. inversion Hf'; subst. simpl. lia.
Defined.

(** ** Participant statuses *)

Section ParticipantSteps.

Variable op : Op.

Lemma status_step_refl p : status_step op p p.
Proof. split; [done | by left]. Qed.

Lemma Forall2_update_first f g ps :
  (forall p, f p = true -> status_step op p (g p)) ->
  Forall2 (status_step op) ps (update_first f g ps).
Proof.
  intros Hg. induction ps as [|p ps IH]; simpl; [constructor|].
  destruct (f p) eqn:E.
  - constructor; [by apply Hg|]. apply Forall2_same_length_lookup_2; [done|].
    intros i x y Hx Hy. assert (x = y) as -> by congruence. apply status_step_refl.
  - constructor; [apply status_step_refl | exact IH].
Qed.

Lemma Forall2_map_step g ps :
  (forall p, status_step op p (g p)) ->
  Forall2 (status_step op) ps (map g ps).
Proof.
  intros Hg. induction ps as [|p ps IH]; simpl; constructor; auto.
Qed.

Lemma finalize_step now p : status_step op p (finalize_participant now p).
Proof.
  unfold finalize_participant, status_step.
  destruct p as [u s j l ns nd]; simpl.
  destruct s; simpl; try (split; [done | by left]).
  - split; [done|]. right. by left.
  - destruct l; simpl; (split; [done | by left]).
Qed.

End ParticipantSteps.

Lemma save_doc_twice d g cs :
  GroupCall._id d = GroupCall._id g ->
  save_doc d (save_doc g cs) = save_doc d cs.
Proof.
  intros Hid. induction cs as [|x cs IH]; simpl.
  - unfold same_id. by rewrite bool_decide_eq_true_2.
  - rewrite Hid. destruct (same_id (GroupCall._id g) x) eqn:E; simpl.
    + unfold same_id. by rewrite bool_decide_eq_true_2.
    + rewrite Hid, E. f_equal. apply IH.
Qed.

(** [leave] either leaves the collection alone (404, 500) or stores
    [leave_doc] of the document it fetched. *)
Lemma leave_calls u callId throws tLeft tEnd w w' r :
  leave u callId throws tLeft tEnd w = Some (w', r) ->
  (code r <> 200 /\ w' = w)
  \/ (code r = 200 /\ exists c, findById callId (calls w) = Some c
        /\ calls w' = save_doc (leave_doc u tLeft tEnd c) (calls w)).
Proof.
  intros H. destruct (decide (code r = 200)) as [Hc|Hc].
  - right. split; [done|].
    destruct (leave_200 _ _ _ _ _ _ _ _ H Hc) as (c & Hf & Hfin).
    exists c. split; [done|].
    pose proof (leave_finish_calls u callId tEnd (leave_update u tLeft c)
                  (save (leave_update u tLeft c) w)) as Hcalls.
    rewrite Hfin in Hcalls. cbn [fst] in Hcalls. rewrite Hcalls.
    unfold leave_doc. case_bool_decide; [|done].
    rewrite calls_save. by apply save_doc_twice.
  - left. split; [done|].
    unfold leave, leave_run in H.
    destruct (findById callId (calls w)) as [c|] eqn:Hf; [|by inversion H].
    rewrite retry_loop_unrolled in H. unfold write_once, findOneAndUpdate in H.
    rewrite Hf in H.
    destruct (throws 0), (throws 1), (throws 2); simpl in H;
      try (destruct leave_finish as [w1 r1] eqn:E; inversion H; subst;
           unfold leave_finish in E; repeat case_match; inversion E; subst;
           by contradict Hc);
      by inversion H.
Qed.

(** Each operation either leaves the collection alone or overwrites one
    document [c] of it with the document [op_effect] describes. *)
Lemma run_calls_doc op w :
  calls (run op w) = calls w
  \/ exists c d, findById (GroupCall._id c) (calls w) = Some c
       /\ GroupCall._id d = GroupCall._id c
       /\ calls (run op w) = save_doc d (calls w)
       /\ op_effect op c d.
Proof.
  destruct op as [u callId now|u callId|u callId throws tLeft tEnd|tid now]; simpl.
  - unfold join. destruct (findById callId (calls w)) as [c|] eqn:Hf; [|by left].
    destruct (find_participant u _); [|by left].
    right. exists c, (join_doc u now c).
    pose proof (findById_id _ _ _ Hf) as <-. split; [done|].
    split; [apply join_doc_id|]. simpl. by autorewrite with world.
  - unfold decline. destruct (findById callId (calls w)) as [c|] eqn:Hf; [|by left].
    destruct (find_participant u _); [|by left].
    right. exists c, (decline_doc u c).
    by pose proof (findById_id _ _ _ Hf) as <-.
  - destruct (leave u callId throws tLeft tEnd w) as [[w' r]|] eqn:H; [|by left].
    destruct (leave_calls _ _ _ _ _ _ _ _ H) as [[_ ->]|(_ & c & Hf & Hcalls)];
      [by left|].
    right. exists c, (leave_doc u tLeft tEnd c).
    pose proof (findById_id _ _ _ Hf) as <-. split; [done|].
    split; [apply leave_doc_id | done].
  - unfold fire. destruct (timeouts w !! tid) as [t|]; [|by left].
    unfold noParticipantTimerHandler. simpl.
    destruct (findById (t_callId t) (calls w)) as [c|] eqn:Hf; [|by left].
    case_match eqn:Hcond; [|by left].
    apply andb_true_iff in Hcond as [H1 H2].
    apply bool_decide_eq_true in H1. apply negb_true_iff in H2.
    apply bool_decide_eq_false in H2.
    right. exists c, (end_transition now c).
    split; [by rewrite (findById_id _ _ _ Hf)|]. split; [done|].
    autorewrite with world. done.
Qed.

(** The participants of the stored document are one [status_step] away
    from those of the fetched one. *)
Lemma op_effect_step op c d :
  op_effect op c d ->
  Forall2 (status_step op) (GroupCall.participants c) (GroupCall.participants d).
Proof.
  destruct op as [u callId now|u callId|u callId throws tLeft tEnd|tid now]; simpl.
  - intros ->.
    assert (GroupCall.participants (join_doc u now c)
            = update_first (is_user u) (join_participant now)
                (GroupCall.participants c)) as ->.
    { unfold join_doc. by repeat (case_match; simpl). }
    apply Forall2_update_first. intros p Hp. split; [done|].
    right; right. simpl. unfold is_user in Hp.
    by apply bool_decide_eq_true in Hp.
  - intros ->. simpl.
    apply Forall2_update_first. intros p Hp. split; [done|].
    right; right. simpl. unfold is_user in Hp.
    by apply bool_decide_eq_true in Hp.
  - intros ->. unfold leave_doc. case_bool_decide; simpl.
    + rewrite map_map. apply Forall2_map_step. intros p.
      unfold leave_participant. destruct (is_user u p) eqn:Hp.
      * split; [done|]. right; right. simpl. unfold is_user in Hp.
        by apply bool_decide_eq_true in Hp.
      * apply finalize_step.
    + apply Forall2_map_step. intros p.
      unfold leave_participant. destruct (is_user u p) eqn:Hp.
      * split; [done|]. right; right. simpl. unfold is_user in Hp.
        by apply bool_decide_eq_true in Hp.
      * apply status_step_refl.
  - intros (-> & _ & _). apply Forall2_map_step. intros p. apply finalize_step.
Qed.

(** The session [sid] after an operation: untouched, or rewritten as
    [op_effect] describes. *)
Lemma run_session op w sid c :
  findById sid (calls w) = Some c ->
  findById sid (calls (run op w)) = Some c
  \/ exists d, findById sid (calls (run op w)) = Some d /\ op_effect op c d.
Proof.
  intros Hf.
  destruct (run_calls_doc op w) as [->|(c0 & d & Hf0 & Hid & -> & Heff)];
    [by left|].
  destruct (decide (GroupCall._id c0 = sid)) as [<-|Hne].
  - assert (c0 = c) as -> by congruence.
    right. exists d. split; [by apply findById_saved | done].
  - left. rewrite findById_save_doc_ne; [done | congruence].
Qed.

Lemma status_step_not_invited op p p' :
  status_step op p p' ->
  Participant.status p' = PStatus.invited ->
  Participant.status p = PStatus.invited.
Proof.
  intros [_ [Hs|[[_ Hs]|Hs]]] Hi; [congruence | congruence |].
  destruct op; simpl in Hs; [| | |done]; destruct Hs as [_ Hs]; congruence.
Qed.

(** C3 as stated fails.  carol declines the call of [world2] and then
    joins it: her status goes from ['declined'] back to ['joined']. *)
Lemma C3_counterexample :
  exists c p c' p',
    findById "call1" (calls (run (OpDecline carol "call1") world2)) = Some c
    /\ find_participant carol (GroupCall.participants c) = Some p
    /\ Participant.status p = PStatus.declined
    /\ findById "call1"
         (calls (run (OpJoin carol "call1" 2500)
                   (run (OpDecline carol "call1") world2))) = Some c'
    /\ find_participant carol (GroupCall.participants c') = Some p'
    /\ Participant.status p' = PStatus.joined.
Proof.
  eexists _, _, _, _.
  split; [vm_compute; reflexivity|]. split; [vm_compute; reflexivity|].
  split; [reflexivity|].
  split; [vm_compute; reflexivity|]. split; [vm_compute; reflexivity|].
  reflexivity.
Qed.

(** C3 (amended).  Under [join], [decline], [leave] and the timer action
    every session keeps its participants, in order and with their user
    ids, and each participant's status is either unchanged, or goes from
    ['invited'] to ['missed'] (end of call), or is the status the operation
    assigns to its caller whatever it was before: ['joined'] by [join],
    ['declined'] by [decline], ['left'] by [leave].  In particular no
    participant is ever set back to ['invited']. *)
Theorem C3_participant_status_steps
    (op : Op) (w : World) (sid : string) (c : GroupCall.t) :
  findById sid (calls w) = Some c ->
  exists c', findById sid (calls (run op w)) = Some c'
    /\ Forall2 (status_step op) (GroupCall.participants c)
         (GroupCall.participants c')
    /\ Forall2 (fun p p' => Participant.status p' = PStatus.invited ->
                           Participant.status p = PStatus.invited)
         (GroupCall.participants c) (GroupCall.participants c').
Proof.
  intros Hf.
  assert (exists c', findById sid (calls (run op w)) = Some c'
            /\ Forall2 (status_step op) (GroupCall.participants c)
                 (GroupCall.participants c')) as (c' & Hf' & Hstep).
  { destruct (run_session op w sid c Hf) as [Hf'|(d & Hf' & Heff)].
    - exists c. split; [done|].
      apply Forall2_same_length_lookup_2; [done|].
      intros i x y Hx Hy. assert (x = y) as -> by congruence.
      apply status_step_refl.
    - exists d. split; [done|]. by apply op_effect_step. }
  exists c'. split; [done|]. split; [done|].
  eapply Forall2_impl; [exact Hstep|].
  intros p p'. apply status_step_not_invited.
Qed.

Lemma C3_participant_status_steps_witness :
  exists c,
    findById "call1" (calls world2) = Some c
    /\ exists c',
         findById "call1" (calls (run (OpLeave bob "call1" never_throws 5000 5000) world2))
         = Some c'
         /\ Forall2 (status_step (OpLeave bob "call1" never_throws 5000 5000))
              (GroupCall.participants c) (GroupCall.participants c').
Proof.
  eexists. split; [vm_compute; reflexivity|].
  destruct (C3_participant_status_steps
              (OpLeave bob "call1" never_throws 5000 5000) world2 "call1" _
              ltac:(vm_compute; reflexivity)) as (c' & Hf' & Hstep & _).
  exists c'. split; [exact Hf' | exact Hstep].
Defined.

(** ** [initiate] when the room already has a live session *)

Section Initiate.

Lemma length_save_doc c cs :
  length (save_doc c cs) =
  match findById (GroupCall._id c) cs with
  | Some _ => length cs
  | None => S (length cs)
  end.
Proof.
  unfold findById. induction cs as [|d cs IH]; simpl; [done|].
  destruct (same_id (GroupCall._id c) d); simpl; [done|].
  rewrite IH. by destruct (find _ cs).
Qed.

(** [create_call] stores one document, the one it returns; that document
    has the new id, the channel made from the uuid, and is ringing.  The
    timer registry is not touched. *)
Lemma create_call_spec userId roomId room callType now uuid newId w :
  exists n,
    (create_call userId roomId room callType now uuid newId w).2
      = mkResponse 201 (MessageCall "Group call initiated" n)
    /\ calls (create_call userId roomId room callType now uuid newId w).1
       = save_doc n (calls w)
    /\ GroupCall._id n = newId
    /\ GroupCall.callRoomId n = "group-call-" +:+ uuid
    /\ GroupCall.status n = CallStatus.ringing
    /\ GroupCall.activeParticipants n = [userId]
    /\ _noParticipantTimers
         (create_call userId roomId room callType now uuid newId w).1
       = _noParticipantTimers w
    /\ timeouts (create_call userId roomId room callType now uuid newId w).1
       = timeouts w.
Proof.
  unfold create_call. simpl.
  destruct (io w) as [sockets|]; [|by eexists].
  unfold notify_invited.
  set (sent := flat_map _ _).
  destruct sent as [|x sent'] eqn:Hsent.
  - simpl. rewrite List.map_id.
    by exists (new_call newId roomId uuid userId room callType now).
  - rewrite bool_decide_eq_true_2 by (simpl; lia). cbn [fst snd].
    eexists. split; [reflexivity|].
    split; [|done]. unfold save, set_emitted, set_calls. cbn [calls].
    by rewrite save_doc_twice.
Qed.

Lemma findLive_findById roomId cs e :
  findLiveForRoom roomId cs = Some e ->
  is_Some (findById (GroupCall._id e) cs).
Proof.
  unfold findLiveForRoom, findById. intros H.
  apply find_some in H as [Hin _].
  destruct (find (same_id (GroupCall._id e)) cs) eqn:E; [by eexists|].
  eapply find_none in E; [|exact Hin].
  unfold same_id in E. by rewrite bool_decide_eq_true_2 in E.
Qed.

Lemma isAbandoned_spec now e :
  isAbandoned now e = true
  <-> length (GroupCall.activeParticipants e) = 0
      \/ (GroupCall.status e = CallStatus.ringing
          /\ (now - GroupCall.startedAt e > 5 * 60 * 1000)%Z).
Proof.
  unfold isAbandoned.
  rewrite orb_true_iff, andb_true_iff, !bool_decide_eq_true, Z.ltb_lt.
  by rewrite Z.gt_lt_iff.
Qed.

End Initiate.

(** ** A session that has ended *)

Section Ended.

Lemma join_doc_ended u now c :
  GroupCall.status c = CallStatus.ended ->
  GroupCall.status (join_doc u now c) = CallStatus.ended
  /\ GroupCall.endedAt (join_doc u now c) = GroupCall.endedAt c
  /\ GroupCall.duration (join_doc u now c) = GroupCall.duration c.
Proof.
  intros Hs. unfold join_doc.
  repeat (case_match; simpl in * );
    repeat match goal with
    | H : _ && _ = true |- _ => apply andb_true_iff in H as [??]
    | H : bool_decide _ = true |- _ => apply bool_decide_eq_true in H
    end; simpl in *; try congruence; done.
Qed.

(** [join], [decline] and the timer handler keep the status, [endedAt]
    and [duration] of every ended session; [leave] keeps its status, and
    keeps [endedAt] and [duration] as long as somebody is still active
    after the removal. *)
Lemma ended_kept op w sid c :
  findById sid (calls w) = Some c ->
  GroupCall.status c = CallStatus.ended ->
  exists c',
    findById sid (calls (run op w)) = Some c'
    /\ GroupCall.status c' = CallStatus.ended
    /\ (match op with
        | OpLeave _ _ _ _ _ => GroupCall.activeParticipants c' <> []
        | _ => True
        end ->
        GroupCall.endedAt c' = GroupCall.endedAt c
        /\ GroupCall.duration c' = GroupCall.duration c).
Proof.
  intros Hf Hs.
  destruct (run_session op w sid c Hf) as [Hf'|(d & Hf' & Heff)];
    [by exists c|].
  exists d. split; [done|].
  destruct op as [u callId now|u callId|u callId throws tLeft tEnd|tid now];
    simpl in Heff.
  - subst d. destruct (join_doc_ended u now c Hs) as (? & ? & ?). done.
  - by subst d.
  - subst d. unfold leave_doc. case_bool_decide as Hlen; simpl; [|done].
    split; [done|]. intros Hne. apply length_zero_iff_nil in Hlen. done.
  - by destruct Heff as (_ & _ & Hne).
Qed.

Lemma findById_NoDup cs e :
  NoDup (GroupCall._id <$> cs) -> e ∈ cs -> findById (GroupCall._id e) cs = Some e.
Proof.
  unfold findById. induction cs as [|d cs IH]; simpl; intros Hnd Hin.
  - by apply elem_of_nil in Hin.
  - apply NoDup_cons in Hnd as [Hd Hnd]. unfold same_id at 1.
    apply elem_of_cons in Hin as [->|Hin].
    + by rewrite bool_decide_eq_true_2.
    + rewrite bool_decide_eq_false_2; [by apply IH|].
      intros Heq. apply Hd. rewrite Heq. by apply list_elem_of_fmap_2.
Qed.

(** [initiate] touches the live session of the room and the document it
    creates; with distinct ids in the collection and a new id, every ended
    session stays as it is. *)
Lemma initiate_keeps_ended userId roomId callType now uuid newId w sid c :
  NoDup (GroupCall._id <$> calls w) ->
  findById sid (calls w) = Some c ->
  GroupCall.status c = CallStatus.ended ->
  sid <> newId ->
  findById sid (calls (initiate userId roomId callType now uuid newId w).1) = Some c.
Proof.
  intros Hnd Hf Hs Hnew. unfold initiate.
  destruct roomId as [rid|]; [|done].
  destruct (findRoom rid (rooms w)) as [room|]; [|done].
  destruct (negb _); [done|].
  destruct (findLiveForRoom rid (calls w)) as [e|] eqn:Hlive.
  - destruct (isAbandoned now e); [|done].
    unfold endCall. set (w2 := save _ _).
    destruct (create_call_spec userId rid room (default video callType) now uuid
                newId w2) as (n & _ & Hcalls & Hid & _).
    rewrite Hcalls. rewrite findById_save_doc_ne by congruence.
    unfold w2. autorewrite with world.
    rewrite findById_save_doc_ne; [done|]. cbn. intros Heq.
    unfold findLiveForRoom in Hlive. apply find_some in Hlive as [Hin Hl].
    apply list_elem_of_In in Hin.
    pose proof (findById_NoDup _ _ Hnd Hin) as He. rewrite Heq, Hf in He.
    inversion He; subst e. apply andb_true_iff in Hl as [_ Hl].
    unfold is_live in Hl. rewrite Hs in Hl. done.
  - destruct (create_call_spec userId rid room (default video callType) now uuid
                newId w) as (n & _ & Hcalls & Hid & _).
    rewrite Hcalls. by rewrite findById_save_doc_ne by congruence.
Qed.

End Ended.

(** C2: the code breaks the claim in [leave].  [world4] holds the call
    ended at 4000 (duration 3 s, nobody active).  A later [leave] finds
    [activeParticipants] empty and runs the end-of-call assignments again
    without looking at the status: [endedAt] and [duration] are
    overwritten.  The timer handler guards the same assignments with
    [fresh.status !== 'ended']. *)
Theorem C2_leave_rewrites_ended_session :
  exists c w' r c',
    findById "call1" (calls world4) = Some c
    /\ GroupCall.status c = CallStatus.ended
    /\ GroupCall.endedAt c = Some 4000%Z
    /\ GroupCall.duration c = Some 3%Z
    /\ leave carol "call1" never_throws 9000 9000 world4 = Some (w', r)
    /\ code r = 200
    /\ findById "call1" (calls w') = Some c'
    /\ GroupCall.status c' = CallStatus.ended
    /\ GroupCall.endedAt c' = Some 9000%Z
    /\ GroupCall.duration c' = Some 8%Z.
Proof.
  eexists _, _, _, _.
  split; [vm_compute; reflexivity|].
  do 3 (split; [reflexivity|]).
  split; [vm_compute; reflexivity|].
  split; [reflexivity|].
  split; [vm_compute; reflexivity|].
  repeat split.
Qed.


(** C4.  [initiate] finds the live session [existingCall] of the room.
    The session counts as abandoned exactly when it has no active
    participant or is ringing and older than 5 minutes.  If abandoned, the
    old session is stored ended and a new document is inserted, ringing,
    whose channel is ["group-call-"] followed by the uuid just generated;
    it is what the 201 response carries.  If not abandoned, nothing
    changes and the 200 response carries [existingCall] as found. *)
Theorem C4_initiate_existing_session
    (userId rid : string) (callType : option CallType) (now : Z)
    (uuid newId : string) (w : World) (room : Room.t)
    (existingCall : GroupCall.t) :
  findRoom rid (rooms w) = Some room ->
  userId ∈ Room.participants room ->
  findLiveForRoom rid (calls w) = Some existingCall ->
  findById newId (calls w) = None ->
  let abandoned :=
    length (GroupCall.activeParticipants existingCall) = 0
    \/ (GroupCall.status existingCall = CallStatus.ringing
        /\ (now - GroupCall.startedAt existingCall > 5 * 60 * 1000)%Z) in
  let w' := (initiate userId (Some rid) callType now uuid newId w).1 in
  let r := (initiate userId (Some rid) callType now uuid newId w).2 in
  (isAbandoned now existingCall = true <-> abandoned)
  /\ (abandoned ->
      exists old n,
        findById (GroupCall._id existingCall) (calls w') = Some old
        /\ GroupCall.status old = CallStatus.ended
        /\ r = mkResponse 201 (MessageCall "Group call initiated" n)
        /\ findById newId (calls w') = Some n
        /\ GroupCall.callRoomId n = "group-call-" +:+ uuid
        /\ GroupCall.status n = CallStatus.ringing
        /\ length (calls w') = S (length (calls w)))
  /\ (~ abandoned ->
      w' = w
      /\ r = mkResponse 200
               (MessageCall "Active call already exists for this room"
                  existingCall)).
Proof.
  intros Hroom Hmem Hlive Hnew abandoned w' r.
  pose proof (isAbandoned_spec now existingCall) as Hab.
  split; [exact Hab|].
  assert (existsb (fun p => bool_decide (p = userId)) (Room.participants room)
          = true) as Hex.
  { apply existsb_exists. exists userId. split.
    - by apply list_elem_of_In.
    - by apply bool_decide_eq_true. }
  assert (GroupCall._id existingCall <> newId) as Hne.
  { intros <-. destruct (findLive_findById _ _ _ Hlive) as [x Hx]. congruence. }
  unfold w', r, initiate. rewrite Hroom, Hex, Hlive. simpl.
  split.
  - intros Habd. apply Hab in Habd. rewrite Habd. unfold endCall.
    set (w2 := save _ _).
    destruct (create_call_spec userId rid room (default video callType) now uuid
                newId w2) as (n & Hr & Hcalls & Hid & Hch & Hst & _).
    exists (end_transition now existingCall), n.
    assert (calls w2 = save_doc (end_transition now existingCall) (calls w))
      as Hw2 by (unfold w2; by autorewrite with world).
    rewrite Hcalls, Hw2. split.
    { rewrite findById_save_doc_ne by congruence. by apply findById_saved. }
    split; [done|]. split; [exact Hr|].
    split; [by apply findById_saved|]. split; [done|]. split; [done|].
    rewrite !length_save_doc, Hid.
    rewrite findById_save_doc_ne by done. rewrite Hnew.
    destruct (findLive_findById _ _ _ Hlive) as [x Hx]. simpl. by rewrite Hx.
  - intros Hnab. destruct (isAbandoned now existingCall) eqn:E; [|done].
    exfalso. apply Hnab. by apply Hab.
Qed.

Lemma C4_initiate_existing_session_witness :
  exists existingCall,
    findRoom "room1" (rooms world1) = Some general
    /\ bob ∈ Room.participants general
    /\ findLiveForRoom "room1" (calls world1) = Some existingCall
    /\ findById "call2" (calls world1) = None
    /\ (initiate bob (Some "room1") None 1500 "uuid-2" "call2" world1).1 = world1
    /\ exists old n,
         findById "call1"
           (calls (initiate bob (Some "room1") None 400000 "uuid-2" "call2" world1).1)
         = Some old
         /\ GroupCall.status old = CallStatus.ended
         /\ findById "call2"
              (calls (initiate bob (Some "room1") None 400000 "uuid-2" "call2" world1).1)
            = Some n
         /\ GroupCall.callRoomId n = "group-call-uuid-2".
Proof.
  eexists. split; [reflexivity|].
  split; [apply (bool_decide_unpack _); vm_compute; exact I|].
  split; [vm_compute; reflexivity|]. split; [reflexivity|].
  split.
  - apply (C4_initiate_existing_session bob "room1" None 1500 "uuid-2" "call2"
             world1 general _ ltac:(reflexivity)
             ltac:(apply (bool_decide_unpack _); vm_compute; exact I)
             ltac:(vm_compute; reflexivity) ltac:(reflexivity)).
    simpl. lia.
  - destruct (C4_initiate_existing_session bob "room1" None 400000 "uuid-2" "call2"
             world1 general _ ltac:(reflexivity)
             ltac:(apply (bool_decide_unpack _); vm_compute; exact I)
             ltac:(vm_compute; reflexivity) ltac:(reflexivity))
      as (_ & Hab & _).
    destruct Hab as (old & n & H1 & H2 & _ & H4 & H5 & _).
    + right. split; [reflexivity | simpl; lia].
    + exists old, n. auto.
Defined.

(** ** [leave] by the last active participant *)

(** When one of the [maxRetries] attempts does not throw, [leave] makes
    the write and goes on with [leave_finish]. *)
Lemma leave_succeeds u callId throws tLeft tEnd w c k :
  findById callId (calls w) = Some c ->
  k < maxRetries -> throws k = false ->
  leave u callId throws tLeft tEnd w =
  Some (leave_finish u callId tEnd (leave_update u tLeft c)
          (save (leave_update u tLeft c) w)).
Proof.
  intros Hf Hk Hthrows. unfold leave, leave_run. rewrite Hf.
  rewrite retry_loop_unrolled. unfold write_once, findOneAndUpdate. rewrite Hf.
  unfold maxRetries in Hk.
  assert (k = 0 \/ k = 1 \/ k = 2) as [-> | [-> | ->]] by lia;
    rewrite ?Hthrows; destruct (throws 0), (throws 1), (throws 2);
    try discriminate; simpl; by destruct leave_finish.
Qed.

(** The response of a completed [leave]. *)
Lemma leave_finish_response u callId tLeft tEnd c w :
  (leave_finish u callId tEnd (leave_update u tLeft c) w).2
  = mkResponse 200
      (MessageCallEnded "Left group call"
         (bool_decide (GroupCall.status (leave_doc u tLeft tEnd c)
                       = CallStatus.ended))).
Proof.
  unfold leave_finish, leave_doc.
  by destruct (bool_decide
                 (length (GroupCall.activeParticipants (leave_update u tLeft c)) = 0)).
Qed.

(** C5 as stated fails in its last part.  In [world3e] the call has been
    ended by the timer handler at 33000 with bob still active.  carol's
    [leave] at 40000 removes nobody and ends nothing (status, [endedAt]
    and [duration] are as before, bob is still active), yet it is answered
    [callEnded = true]: the flag is [status === 'ended'], not whether this
    [leave] ended the call. *)
Lemma C5_counterexample :
  exists c w' callEnded c',
    findById "call1" (calls world3e) = Some c
    /\ GroupCall.status c = CallStatus.ended
    /\ leave carol "call1" never_throws 40000 40000 world3e
       = Some (w', mkResponse 200 (MessageCallEnded "Left group call" callEnded))
    /\ findById "call1" (calls w') = Some c'
    /\ GroupCall.activeParticipants c' = [bob]
    /\ GroupCall.status c' = GroupCall.status c
    /\ GroupCall.endedAt c' = Some 33000%Z
    /\ GroupCall.endedAt c = Some 33000%Z
    /\ GroupCall.duration c' = GroupCall.duration c
    /\ ~ (callEnded = true
          <-> GroupCall.status c <> CallStatus.ended
              /\ GroupCall.status c' = CallStatus.ended).
Proof.
  eexists _, _, _, _.
  split; [vm_compute; reflexivity|]. split; [reflexivity|].
  split; [vm_compute; reflexivity|]. split; [vm_compute; reflexivity|].
  do 5 (split; [reflexivity|]).
  intros [H _]. by destruct (H eq_refl) as [Hne _].
Qed.

(** C5 (amended).  A [leave] by [u] one of whose attempts to write
    succeeds is answered 200 and stores the session without [u] among the
    active participants.  The flag [callEnded] of the answer tells whether
    the stored session is ended; for a session that had not ended before,
    that is whether this [leave] ended it, which it does exactly when
    nobody is left.  When nobody is left the answer has [callEnded = true]
    and the stored session is ended at [tEnd], with the duration in whole
    seconds rounded down, [u] marked left at the time of the write, every
    other participant that was invited now missed, every other participant
    that was joined without a [leftAt] given [leftAt = tEnd], and all
    others untouched.  When somebody is left the status, [endedAt] and
    [duration] are as before, and [callEnded] is false for a session that
    had not ended. *)
Theorem C5_leave_last_participant
    (u callId : string) (throws : nat -> bool) (tLeft tEnd : Z)
    (w : World) (c : GroupCall.t) (k : nat) :
  findById callId (calls w) = Some c ->
  k < maxRetries -> throws k = false ->
  let remaining :=
    List.filter (fun v => negb (bool_decide (v = u)))
      (GroupCall.activeParticipants c) in
  exists w' callEnded c',
    leave u callId throws tLeft tEnd w
    = Some (w', mkResponse 200 (MessageCallEnded "Left group call" callEnded))
    /\ findById callId (calls w') = Some c'
    /\ GroupCall.activeParticipants c' = remaining
    /\ callEnded = bool_decide (GroupCall.status c' = CallStatus.ended)
    /\ (GroupCall.status c <> CallStatus.ended ->
        (callEnded = true <-> remaining = []))
    /\ (remaining = [] ->
        callEnded = true
        /\ GroupCall.status c' = CallStatus.ended
        /\ GroupCall.endedAt c' = Some tEnd
        /\ GroupCall.duration c'
           = Some ((tEnd - GroupCall.startedAt c) / 1000)%Z
        /\ Forall2
             (fun p p' =>
                Participant.userId p' = Participant.userId p
                /\ if bool_decide (Participant.userId p = u)
                   then Participant.status p' = PStatus.left
                        /\ Participant.leftAt p' = Some tLeft
                   else match Participant.status p, Participant.leftAt p with
                        | PStatus.invited, _ =>
                            p' = Participant.set_status PStatus.missed p
                        | PStatus.joined, None =>
                            p' = Participant.set_leftAt (Some tEnd) p
                        | _, _ => p' = p
                        end)
             (GroupCall.participants c) (GroupCall.participants c'))
    /\ (remaining <> [] ->
        GroupCall.status c' = GroupCall.status c
        /\ GroupCall.endedAt c' = GroupCall.endedAt c
        /\ GroupCall.duration c' = GroupCall.duration c
        /\ (GroupCall.status c <> CallStatus.ended -> callEnded = false)).
Proof.
  intros Hf Hk Hthrows remaining.
  pose proof (leave_succeeds u callId throws tLeft tEnd w c k Hf Hk Hthrows) as Hl.
  pose proof (leave_finish_response u callId tLeft tEnd c
                (save (leave_update u tLeft c) w)) as Hr.
  destruct (leave_finish u callId tEnd (leave_update u tLeft c)
              (save (leave_update u tLeft c) w)) as [w' r] eqn:Hfin.
  cbn [snd] in Hr. subst r.
  exists w', (bool_decide (GroupCall.status (leave_doc u tLeft tEnd c)
                           = CallStatus.ended)), (leave_doc u tLeft tEnd c).
  split; [exact Hl|]. split.
  { destruct (leave_200_doc _ _ _ _ _ _ _ _ Hl eq_refl) as (c0 & Hf0 & Hf').
    by assert (c0 = c) as -> by congruence. }
  assert (GroupCall.activeParticipants (leave_update u tLeft c) = remaining)
    as Hrem by done.
  destruct (decide (remaining = [])) as [Hnil|Hnil].
  - assert (leave_doc u tLeft tEnd c
            = end_transition tEnd (leave_update u tLeft c)) as ->.
    { unfold leave_doc. rewrite Hrem, Hnil. done. }
    split; [done|]. split; [done|]. split; [done|].
    split; [|done]. intros _. do 4 (split; [done|]).
    cbn. rewrite map_map.
    apply Forall2_same_length_lookup_2; [by rewrite length_map|].
    intros i p p' Hp Hp'. rewrite list_lookup_fmap, Hp in Hp'. simpl in Hp'.
    inversion Hp'; subst; clear Hp'.
    unfold leave_participant, is_user, finalize_participant.
    destruct p as [v s j l ns nd]; simpl.
    destruct (bool_decide (v = u)) eqn:E; destruct s, l; simpl; auto.
  - assert (leave_doc u tLeft tEnd c = leave_update u tLeft c) as ->.
    { unfold leave_doc. rewrite Hrem.
      destruct (bool_decide (length remaining = 0)) eqn:Hlen; [|done].
      apply bool_decide_eq_true in Hlen.
      by apply length_zero_iff_nil in Hlen. }
    split; [done|]. split; [done|].
    assert (GroupCall.status c <> CallStatus.ended ->
            bool_decide (GroupCall.status (leave_update u tLeft c)
                         = CallStatus.ended) = false) as Hflag.
    { intros Hne. by apply bool_decide_eq_false. }
    split; [|split; [done|]].
    { intros Hne. rewrite (Hflag Hne). split; [discriminate | done]. }
    intros _. do 3 (split; [done|]). exact Hflag.
Qed.

Lemma C5_leave_last_participant_witness :
  exists c c',
    findById "call1" (calls world3) = Some c
    /\ 0 < maxRetries /\ never_throws 0 = false
    /\ findById "call1" (calls world4) = Some c'
    /\ GroupCall.status c' = CallStatus.ended
    /\ GroupCall.duration c' = Some 3%Z.
Proof.
  destruct (C5_leave_last_participant bob "call1" never_throws 4000 4000 world3
              _ 0 ltac:(vm_compute; reflexivity) ltac:(unfold maxRetries; lia)
              ltac:(reflexivity))
    as (w' & callEnded & c' & Hl & Hf' & _ & _ & _ & Hend & _).
  destruct Hend as (_ & Hs & _ & Hd & _); [reflexivity|].
  eexists _, c'. split; [vm_compute; reflexivity|].
  split; [unfold maxRetries; lia|]. split; [reflexivity|].
  split; [|split; [exact Hs | exact Hd]].
  unfold world4, run. rewrite Hl. exact Hf'.
Defined.

(** ** The abandonment timer *)

Section Timers.

Lemma clear_timer_registry id w : _noParticipantTimers (clear_timer id w) !! id = None.
Proof.
  unfold clear_timer. destruct (_noParticipantTimers w !! id) eqn:E; simpl; [|done].
  apply lookup_delete_eq.
Qed.

Lemma clear_timer_timeouts id w tid :
  _noParticipantTimers w !! id = Some tid ->
  timeouts (clear_timer id w) !! tid = None.
Proof.
  unfold clear_timer. intros ->. simpl. apply lookup_delete_eq.
Qed.

Lemma clear_timer_next id w : nextTimeoutId (clear_timer id w) = nextTimeoutId w.
Proof. unfold clear_timer. by destruct (_ !! _). Qed.

(** The registry and the pending timeouts after [leave_finish], which
    saves and emits besides managing the timer. *)
Lemma leave_finish_timers u callId tEnd g w :
  let w' := (leave_finish u callId tEnd g w).1 in
  let wt :=
    if bool_decide (length (GroupCall.activeParticipants g) = 1)
    then set_timer (GroupCall._id g) (30 * 1000) (clear_timer (GroupCall._id g) w)
    else clear_timer (GroupCall._id g) w in
  _noParticipantTimers w' = _noParticipantTimers wt
  /\ timeouts w' = timeouts wt.
Proof.
  unfold leave_finish.
  destruct (bool_decide (length (GroupCall.activeParticipants g) = 0)) eqn:E0;
    destruct (bool_decide (length (GroupCall.activeParticipants g) = 1)) eqn:E1;
    cbn [fst GroupCall.activeParticipants end_transition
         GroupCall.set_participants GroupCall.set_duration GroupCall.set_endedAt
         GroupCall.set_status GroupCall._id]; rewrite ?E1;
    try (apply bool_decide_eq_true in E0, E1; lia);
    match goal with
    | |- context [emit ?a ?b ?c] => destruct (timers_emit a b c) as (-> & -> & _)
    end;
    unfold clear_timer, set_timer, save; simpl;
    by destruct (_noParticipantTimers w !! GroupCall._id g).
Qed.

Lemma join_timers u callId now w w' r :
  join u callId now w = (w', r) -> code r = 200 ->
  _noParticipantTimers w' !! callId = None
  /\ forall tid, _noParticipantTimers w !! callId = Some tid ->
       timeouts w' !! tid = None.
Proof.
  unfold join. intros H Hc.
  destruct (findById callId (calls w)) as [c|] eqn:Hf;
    [|inversion H; subst; discriminate].
  destruct (find_participant u (GroupCall.participants c)) eqn:Hp;
    [|inversion H; subst; discriminate].
  inversion H; subst; clear H.
  rewrite join_doc_id, (findById_id _ _ _ Hf).
  destruct (timers_emit (GroupCall.callRoomId (join_doc u now c))
              (participantJoined callId u
                 (GroupCall.activeParticipants (join_doc u now c)))
              (clear_timer callId (save (join_doc u now c) w)))
    as (-> & -> & _).
  split; [apply clear_timer_registry|].
  intros tid Ht. by apply clear_timer_timeouts.
Qed.

End Timers.

(** The end-of-call assignments field by field. *)
Lemma end_transition_fields now c :
  GroupCall._id (end_transition now c) = GroupCall._id c
  /\ GroupCall.roomId (end_transition now c) = GroupCall.roomId c
  /\ GroupCall.status (end_transition now c) = CallStatus.ended
  /\ GroupCall.endedAt (end_transition now c) = Some now
  /\ GroupCall.duration (end_transition now c)
     = Some ((now - GroupCall.startedAt c) / 1000)%Z
  /\ GroupCall.activeParticipants (end_transition now c)
     = GroupCall.activeParticipants c
  /\ Forall2
       (fun p p' =>
          match Participant.status p, Participant.leftAt p with
          | PStatus.invited, _ => p' = Participant.set_status PStatus.missed p
          | PStatus.joined, None => p' = Participant.set_leftAt (Some now) p
          | _, _ => p' = p
          end)
       (GroupCall.participants c) (GroupCall.participants (end_transition now c)).
Proof.
  do 6 (split; [done|]). cbn.
  apply Forall2_same_length_lookup_2; [by rewrite length_map|].
  intros i p p' Hp Hp'. rewrite list_lookup_fmap, Hp in Hp'. simpl in Hp'.
  inversion Hp'; subst; clear Hp'.
  unfold finalize_participant.
  destruct p as [v s0 j l ns nd]; simpl. by destruct s0, l.
Qed.

(** What the timer handler does to the stored session and to the event
    log when the timeout [tid], standing for the closure [t], runs. *)
Lemma fire_spec tid now w t :
  timeouts w !! tid = Some t ->
  _noParticipantTimers (fire tid now w) !! t_callId t = None
  /\ timeouts (fire tid now w) !! tid = None
  /\ (forall fresh,
        findById (t_callId t) (calls w) = Some fresh ->
        length (GroupCall.activeParticipants fresh) <= 1 ->
        GroupCall.status fresh <> CallStatus.ended ->
        findById (t_callId t) (calls (fire tid now w))
        = Some (end_transition now fresh)
        /\ emitted (fire tid now w)
           = emitted w ++
             match io w with
             | Some _ =>
                 [mkEmit (GroupCall.callRoomId fresh)
                    (group_call_ended (GroupCall._id fresh) "no_participants")]
             | None => []
             end)
  /\ ((forall fresh,
         findById (t_callId t) (calls w) = Some fresh ->
         ~ (length (GroupCall.activeParticipants fresh) <= 1
            /\ GroupCall.status fresh <> CallStatus.ended)) ->
      calls (fire tid now w) = calls w /\ emitted (fire tid now w) = emitted w).
Proof.
  intros Ht. unfold fire. rewrite Ht. unfold noParticipantTimerHandler.
  cbn [calls set_timers _noParticipantTimers timeouts].
  split; [apply lookup_delete_eq|].
  set (w0 := set_timers _ _ _ w).
  destruct (findById (t_callId t) (calls w)) as [fresh|] eqn:Hf.
  - destruct (bool_decide (length (GroupCall.activeParticipants fresh) <= 1)
              && negb (bool_decide (GroupCall.status fresh = CallStatus.ended)))
      eqn:Hcond.
    + apply andb_true_iff in Hcond as [H1 H2].
      apply bool_decide_eq_true in H1. apply negb_true_iff in H2.
      apply bool_decide_eq_false in H2.
      match goal with
      | |- context [emit ?a ?b ?c] =>
          destruct (timers_emit a b c) as (_ & -> & _)
      end.
      split; [apply lookup_delete_eq|]. split.
      * intros fresh' Heq _ _. inversion Heq; subst fresh'.
        rewrite calls_emit, calls_save. split.
        { apply findById_saved. cbn. by eapply findById_id. }
        unfold emit. cbn. by destruct (io w); cbn; rewrite ?app_nil_r.
      * intros Hno. exfalso. by apply (Hno fresh).
    + split; [apply lookup_delete_eq|]. split; [|done].
      intros fresh' Heq H1 H2. inversion Heq; subst fresh'.
      apply andb_false_iff in Hcond as [Hc|Hc].
      * apply bool_decide_eq_false in Hc. lia.
      * apply negb_false_iff, bool_decide_eq_true in Hc. done.
  - split; [apply lookup_delete_eq|]. split; [done|done].
Qed.

(** C6.  A [leave] whose write succeeds, on a session from which removing
    [u] leaves exactly one active participant, registers a new 30 000 ms
    timeout for the session in place of the one registered before (which
    is cleared); with any other number left (none: the session has just
    ended; two or more) the registered timeout is cleared and the registry
    entry removed.  A successful [join] clears the timeout and removes the
    entry.  When a timeout runs, its registry entry is removed whatever
    happens.  If the session it re-fetches has at most one active
    participant and is not ended already, that session is stored ended:
    status [ended], [endedAt = now], the duration in whole seconds rounded
    down, every invited participant missed, every joined participant
    without a [leftAt] given [leftAt = now], the active participants as
    they were; and [group_call_ended] with reason [no_participants] is
    emitted to the call room (when [global.__io] is set).  Otherwise the
    collection and the event log are unchanged. *)
Theorem C6_abandonment_timer
    (u callId : string) (throws : nat -> bool) (tLeft tEnd nowJ : Z)
    (w : World) (c : GroupCall.t) (k : nat) :
  findById callId (calls w) = Some c ->
  k < maxRetries -> throws k = false ->
  let remaining :=
    length (List.filter (fun v => negb (bool_decide (v = u)))
              (GroupCall.activeParticipants c)) in
  (exists w' r,
     leave u callId throws tLeft tEnd w = Some (w', r) /\ code r = 200
     /\ (remaining = 1 ->
         _noParticipantTimers w' !! callId = Some (nextTimeoutId w)
         /\ timeouts w' !! nextTimeoutId w = Some (mkTimeout callId (30 * 1000))
         /\ forall tid, _noParticipantTimers w !! callId = Some tid ->
              tid <> nextTimeoutId w -> timeouts w' !! tid = None)
     /\ (remaining <> 1 ->
         _noParticipantTimers w' !! callId = None
         /\ forall tid, _noParticipantTimers w !! callId = Some tid ->
              timeouts w' !! tid = None))
  /\ (forall w' r, join u callId nowJ w = (w', r) -> code r = 200 ->
        _noParticipantTimers w' !! callId = None
        /\ forall tid, _noParticipantTimers w !! callId = Some tid ->
             timeouts w' !! tid = None)
  /\ (forall tid now t, timeouts w !! tid = Some t ->
        _noParticipantTimers (fire tid now w) !! t_callId t = None
        /\ timeouts (fire tid now w) !! tid = None
        /\ (forall fresh,
              findById (t_callId t) (calls w) = Some fresh ->
              length (GroupCall.activeParticipants fresh) <= 1 ->
              GroupCall.status fresh <> CallStatus.ended ->
              (exists ended,
                 findById (t_callId t) (calls (fire tid now w)) = Some ended
                 /\ GroupCall.status ended = CallStatus.ended
                 /\ GroupCall.endedAt ended = Some now
                 /\ GroupCall.duration ended
                    = Some ((now - GroupCall.startedAt fresh) / 1000)%Z
                 /\ GroupCall.activeParticipants ended
                    = GroupCall.activeParticipants fresh
                 /\ Forall2
                      (fun p p' =>
                         match Participant.status p, Participant.leftAt p with
                         | PStatus.invited, _ =>
                             p' = Participant.set_status PStatus.missed p
                         | PStatus.joined, None =>
                             p' = Participant.set_leftAt (Some now) p
                         | _, _ => p' = p
                         end)
                      (GroupCall.participants fresh)
                      (GroupCall.participants ended))
              /\ emitted (fire tid now w)
                 = emitted w ++
                   match io w with
                   | Some _ =>
                       [mkEmit (GroupCall.callRoomId fresh)
                          (group_call_ended (GroupCall._id fresh)
                             "no_participants")]
                   | None => []
                   end)
        /\ ((forall fresh,
               findById (t_callId t) (calls w) = Some fresh ->
               ~ (length (GroupCall.activeParticipants fresh) <= 1
                  /\ GroupCall.status fresh <> CallStatus.ended)) ->
            calls (fire tid now w) = calls w
            /\ emitted (fire tid now w) = emitted w)).
Proof.
  intros Hf Hk Hthrows remaining.
  split; [|split; [intros w' r; apply join_timers |]].
  2: { intros tid now t Ht.
       destruct (fire_spec tid now w t Ht) as (Hreg & Hto & Hend & Hnot).
       split; [exact Hreg|]. split; [exact Hto|]. split; [|exact Hnot].
       intros fresh Hfresh Hlen Hst.
       destruct (Hend fresh Hfresh Hlen Hst) as [Hstored Hemit].
       split; [|exact Hemit].
       destruct (end_transition_fields now fresh)
         as (_ & _ & H1 & H2 & H3 & H4 & H5).
       by exists (end_transition now fresh). }
  pose proof (leave_succeeds u callId throws tLeft tEnd w c k Hf Hk Hthrows) as Hl.
  pose proof (findById_id _ _ _ Hf) as Hid.
  destruct (leave_finish u callId tEnd (leave_update u tLeft c)
              (save (leave_update u tLeft c) w)) as [w' r] eqn:Hfin.
  exists w', r. split; [exact Hl|].
  assert (code r = 200) as Hc.
  { unfold leave_finish in Hfin. repeat case_match; by inversion Hfin. }
  split; [exact Hc|].
  destruct (leave_finish_timers u callId tEnd (leave_update u tLeft c)
              (save (leave_update u tLeft c) w)) as [Hreg Hto].
  rewrite Hfin in Hreg, Hto. cbn [fst] in Hreg, Hto.
  rewrite leave_update_id, Hid in Hreg, Hto.
  change (length (GroupCall.activeParticipants (leave_update u tLeft c)))
    with remaining in Hreg, Hto.
  split; intros Hrem.
  - rewrite bool_decide_eq_true_2 in Hreg, Hto by done.
    rewrite Hreg, Hto. unfold set_timer.
    cbn [_noParticipantTimers timeouts set_timers].
    rewrite clear_timer_next. cbn [nextTimeoutId save set_calls].
    split; [apply lookup_insert_eq|]. split; [apply lookup_insert_eq|].
    intros tid Ht Hne. rewrite lookup_insert_ne by done.
    by apply clear_timer_timeouts.
  - rewrite bool_decide_eq_false_2 in Hreg, Hto by done.
    rewrite Hreg, Hto. split; [apply clear_timer_registry|].
    intros tid Ht. by apply clear_timer_timeouts.
Qed.

Lemma C6_abandonment_timer_witness :
  exists c,
    findById "call1" (calls world2) = Some c
    /\ 0 < maxRetries /\ never_throws 0 = false
    /\ exists w' r,
         leave alice "call1" never_throws 3000 3000 world2 = Some (w', r)
         /\ _noParticipantTimers w' !! "call1" = Some 0
         /\ timeouts w' !! 0 = Some (mkTimeout "call1" 30000).
Proof.
  eexists. split; [vm_compute; reflexivity|].
  split; [unfold maxRetries; lia|]. split; [reflexivity|].
  destruct (C6_abandonment_timer alice "call1" never_throws 3000 3000 0 world2 _ 0
              ltac:(vm_compute; reflexivity) ltac:(unfold maxRetries; lia)
              ltac:(reflexivity))
    as [(w' & r & Hl & _ & Harm & _) _].
  destruct Harm as (Hreg & Hto & _); [vm_compute; reflexivity|].
  exists w', r. split; [exact Hl|]. split; [exact Hreg | exact Hto].
Defined.

(** ** The retry loop of [leave] *)

Lemma leave_finish_code u callId tEnd g w :
  code (leave_finish u callId tEnd g w).2 = 200.
Proof. unfold leave_finish. by repeat case_match. Qed.



(** ** The force-end transition *)



(** ** [getPending] *)

Section Pending.

Lemma insert_desc_perm c cs : insert_desc c cs ≡ₚ c :: cs.
Proof.
  induction cs as [|d cs IH]; simpl; [done|].
  case_match; [done|]. rewrite IH. apply Permutation_swap.
Qed.

Lemma sort_desc_perm cs : sort_createdAt_desc cs ≡ₚ cs.
Proof.
  unfold sort_createdAt_desc. induction cs as [|c cs IH]; simpl; [done|].
  by rewrite insert_desc_perm, IH.
Qed.

Lemma insert_desc_sorted c cs : newest_first cs -> newest_first (insert_desc c cs).
Proof.
  unfold newest_first. induction 1 as [|d cs Hs IH Hd]; simpl.
  - by repeat constructor.
  - case_match eqn:Hlt.
    + apply Z.ltb_lt in Hlt. repeat constructor; [done | done | lia].
    + apply Z.ltb_ge in Hlt. constructor; [done|].
      destruct cs as [|e cs]; simpl in *.
      * by constructor.
      * case_match; constructor; [done|]. by inversion Hd.
Qed.

Lemma sort_desc_sorted cs : newest_first (sort_createdAt_desc cs).
Proof.
  unfold sort_createdAt_desc. induction cs as [|c cs IH]; simpl.
  - constructor.
  - by apply insert_desc_sorted.
Qed.

(** What the filter of [getPending] asks of a document. *)
Lemma pending_filter_spec u c :
  pending_filter u c = true
  <-> GroupCall.status c = CallStatus.ringing
      /\ (exists p, p ∈ GroupCall.participants c /\ Participant.userId p = u)
      /\ (exists q, q ∈ GroupCall.participants c
                    /\ Participant.status q = PStatus.invited).
Proof.
  unfold pending_filter, is_user.
  rewrite !andb_true_iff, !existsb_exists, bool_decide_eq_true.
  split.
  - intros [[(p & Hp & Hu) (q & Hq & Hi)] Hs].
    apply bool_decide_eq_true in Hu, Hi. apply list_elem_of_In in Hp, Hq.
    split; [done|]. split; [by exists p | by exists q].
  - intros (Hs & (p & Hp & Hu) & (q & Hq & Hi)).
    apply list_elem_of_In in Hp, Hq.
    split; [split|done]; [exists p | exists q];
      (split; [done | by apply bool_decide_eq_true]).
Qed.

(** [getPending] writes nothing and answers with the documents that pass
    its filter, newest first. *)
Lemma getPending_spec u w :
  (getPending u w).1 = w
  /\ exists cs,
       (getPending u w).2 = mkResponse 200 (Calls cs)
       /\ newest_first cs
       /\ forall c, c ∈ cs <-> c ∈ calls w /\ pending_filter u c = true.
Proof.
  split; [done|]. eexists. split; [reflexivity|].
  split; [apply sort_desc_sorted|].
  intros c. rewrite sort_desc_perm.
  rewrite !list_elem_of_In. apply filter_In.
Qed.

End Pending.

(** C9: the code breaks the claim.  In [world1] alice has initiated the
    call and her own status is ['joined']; [getPending] still returns the
    call to her, because the two conditions of its filter on
    [participants] are met by different participants (alice by her id,
    bob by being invited). *)
Theorem C9_getPending_returns_call_to_joined_user :
  exists c p,
    getPending alice world1 = (world1, mkResponse 200 (Calls [c]))
    /\ GroupCall.status c = CallStatus.ringing
    /\ find_participant alice (GroupCall.participants c) = Some p
    /\ Participant.status p = PStatus.joined.
Proof.
  eexists _, _. split; [vm_compute; reflexivity|].
  split; [reflexivity|]. split; [vm_compute; reflexivity|]. reflexivity.
Qed.

(** ** [leave] by a user who is not a participant *)

Lemma leave_participant_stranger u now ps :
  find_participant u ps = None -> map (leave_participant u now) ps = ps.
Proof.
  unfold find_participant. induction ps as [|p ps IH]; simpl; [done|].
  unfold leave_participant at 1. destruct (is_user u p); [done|].
  intros H. by rewrite IH.
Qed.

Lemma pull_absent (u : string) (ap : list string) :
  u ∉ ap -> List.filter (fun v => negb (bool_decide (v = u))) ap = ap.
Proof.
  induction ap as [|a ap IH]; simpl; [done|].
  intros Hn. apply not_elem_of_cons in Hn as [Hne Hn].
  rewrite bool_decide_eq_false_2 by congruence. simpl. by rewrite IH.
Qed.

(** When all [maxRetries] attempts throw, [leave] answers 500 and nothing
    has changed. *)
Lemma leave_exhausted u callId throws tLeft tEnd w c :
  findById callId (calls w) = Some c ->
  (forall k, k < maxRetries -> throws k = true) ->
  leave u callId throws tLeft tEnd w
  = Some (w, mkResponse 500 (MessageError "Internal server error")).
Proof.
  intros Hf Hall. unfold leave, leave_run. rewrite Hf, retry_loop_unrolled.
  unfold maxRetries in Hall.
  by rewrite (Hall 0), (Hall 1), (Hall 2) by lia.
Qed.

(** C10 as stated fails.  mallory is not a participant of the seeded call,
    whose [activeParticipants] is empty; her [leave] is answered 200 and
    runs the end-of-call transition: the participants, all invited before,
    are all missed afterwards. *)
Lemma C10_counterexample :
  exists c w' r c',
    findById "seed1" (calls world_seed) = Some c
    /\ find_participant mallory (GroupCall.participants c) = None
    /\ leave mallory "seed1" never_throws 1000 1000 world_seed = Some (w', r)
    /\ code r = 200
    /\ findById "seed1" (calls w') = Some c'
    /\ GroupCall.participants c' <> GroupCall.participants c.
Proof.
  eexists _, _, _, _.
  split; [vm_compute; reflexivity|]. split; [vm_compute; reflexivity|].
  split; [vm_compute; reflexivity|]. split; [reflexivity|].
  split; [vm_compute; reflexivity|]. discriminate.
Qed.

(** C10 (amended).  [leave] makes no membership check: called by a user
    who is not among the participants of an existing session it is never
    answered 403.  It is answered 200 as soon as one of the three attempts
    to write does not throw, and 500 with nothing changed when all three
    throw.  After the 200, [activeParticipants] is the old one without
    [u] (unchanged when [u] was not in it); the participants are unchanged
    when somebody is still active; when nobody is and the session had not
    ended, it is ended and its participants are finalized by the
    end-of-call transition. *)
Theorem C10_leave_without_membership
    (u callId : string) (throws : nat -> bool) (tLeft tEnd : Z)
    (w : World) (c : GroupCall.t) :
  findById callId (calls w) = Some c ->
  find_participant u (GroupCall.participants c) = None ->
  exists w' r,
    leave u callId throws tLeft tEnd w = Some (w', r)
    /\ code r <> 403
    /\ ((exists k, k < maxRetries /\ throws k = false) ->
        code r = 200
        /\ exists c',
             findById callId (calls w') = Some c'
             /\ GroupCall.activeParticipants c'
                = List.filter (fun v => negb (bool_decide (v = u)))
                    (GroupCall.activeParticipants c)
             /\ (u ∉ GroupCall.activeParticipants c ->
                 GroupCall.activeParticipants c' = GroupCall.activeParticipants c)
             /\ (GroupCall.activeParticipants c' <> [] ->
                 GroupCall.participants c' = GroupCall.participants c)
             /\ (GroupCall.activeParticipants c' = [] ->
                 GroupCall.status c <> CallStatus.ended ->
                 GroupCall.status c' = CallStatus.ended
                 /\ GroupCall.participants c'
                    = map (finalize_participant tEnd) (GroupCall.participants c)))
    /\ ((forall k, k < maxRetries -> throws k = true) ->
        code r = 500 /\ w' = w).
Proof.
  intros Hf Hstr.
  destruct (leave_total u callId throws tLeft tEnd w) as [[w' r] Hl].
  exists w', r. split; [exact Hl|].
  assert ((exists k, k < maxRetries /\ throws k = false)
          \/ (forall k, k < maxRetries -> throws k = true)) as Hcases.
  { unfold maxRetries.
    destruct (throws 0) eqn:T0; [|left; exists 0; split; [lia | done]].
    destruct (throws 1) eqn:T1; [|left; exists 1; split; [lia | done]].
    destruct (throws 2) eqn:T2; [|left; exists 2; split; [lia | done]].
    right. intros k Hk.
    assert (k = 0 \/ k = 1 \/ k = 2) as [-> | [-> | ->]] by lia; done. }
  assert ((exists k, k < maxRetries /\ throws k = false) ->
          code r = 200
          /\ findById callId (calls w') = Some (leave_doc u tLeft tEnd c)) as Hok.
  { intros (k & Hk & Hthrows).
    pose proof (leave_succeeds u callId throws tLeft tEnd w c k Hf Hk Hthrows) as Hl'.
    assert (code r = 200) as Hc.
    { rewrite Hl in Hl'. inversion Hl' as [Heq].
      pose proof (leave_finish_code u callId tEnd (leave_update u tLeft c)
                    (save (leave_update u tLeft c) w)) as Hcode.
      by rewrite <- Heq in Hcode. }
    split; [exact Hc|].
    destruct (leave_200_doc _ _ _ _ _ _ _ _ Hl Hc) as (c0 & Hf0 & Hf').
    by assert (c0 = c) as -> by congruence. }
  assert ((forall k, k < maxRetries -> throws k = true) -> code r = 500 /\ w' = w)
    as Hko.
  { intros Hall. rewrite (leave_exhausted u callId throws tLeft tEnd w c Hf Hall)
      in Hl. by inversion Hl. }
  split; [|split; [|exact Hko]].
  - destruct Hcases as [Hsome|Hall].
    + destruct (Hok Hsome) as [-> _]. lia.
    + destruct (Hko Hall) as [-> _]. lia.
  - intros Hsome. destruct (Hok Hsome) as [Hc Hf']. split; [exact Hc|].
    exists (leave_doc u tLeft tEnd c). split; [exact Hf'|].
    unfold leave_doc.
    cbn [leave_update GroupCall.activeParticipants GroupCall.set_activeParticipants].
    case_bool_decide as Hlen; simpl; rewrite (leave_participant_stranger _ _ _ Hstr).
    + apply length_zero_iff_nil in Hlen. rewrite Hlen.
      split; [done|]. split; [intros Hn; by rewrite pull_absent in Hlen|].
      split; [done | done].
    + split; [done|]. split; [apply pull_absent|]. split; [done|].
      intros Hnil. rewrite Hnil in Hlen. done.
Qed.

Lemma C10_leave_without_membership_witness :
  exists c w' r,
    findById "call1" (calls world2) = Some c
    /\ find_participant mallory (GroupCall.participants c) = None
    /\ leave mallory "call1" never_throws 3000 3000 world2 = Some (w', r)
    /\ code r = 200
    /\ exists c', findById "call1" (calls w') = Some c'
         /\ GroupCall.participants c' = GroupCall.participants c
         /\ GroupCall.activeParticipants c' = GroupCall.activeParticipants c.
Proof.
  destruct (C10_leave_without_membership mallory "call1" never_throws 3000 3000
              world2 _ ltac:(vm_compute; reflexivity) ltac:(reflexivity))
    as (w' & r & Hl & _ & Hok & _).
  destruct Hok as (Hc & c' & Hf' & Hap & Hsame & Hps & _).
  { exists 0. split; [unfold maxRetries; lia | reflexivity]. }
  eexists _, w', r. split; [vm_compute; reflexivity|].
  split; [reflexivity|]. split; [exact Hl|]. split; [exact Hc|].
  exists c'. split; [exact Hf'|]. split.
  - apply Hps. rewrite Hap. discriminate.
  - rewrite Hap. reflexivity.
Defined.

(** ** A run through all the handlers *)

(** alice initiates in a room with bob and carol, bob joins, carol
    declines, alice leaves (a timer is armed), bob leaves before it runs:
    the call is ended, carol is still declined, no timer is left, and the
    ended call is no longer pending for anybody. *)
Example full_run :
  let w1 := world2 in
  let w2 := run (OpDecline carol "call1") w1 in
  let w3 := run (OpLeave alice "call1" never_throws 3000 3000) w2 in
  let w4 := run (OpLeave bob "call1" never_throws 4000 4000) w3 in
  (GroupCall.status <$> findById "call1" (calls w1)) = Some CallStatus.active
  /\ (GroupCall.activeParticipants <$> findById "call1" (calls w3)) = Some [bob]
  /\ (GroupCall.status <$> findById "call1" (calls w3)) = Some CallStatus.active
  /\ _noParticipantTimers w3 !! "call1" = Some 0
  /\ timeouts w3 !! 0 = Some (mkTimeout "call1" 30000)
  /\ (GroupCall.status <$> findById "call1" (calls w4)) = Some CallStatus.ended
  /\ (GroupCall.activeParticipants <$> findById "call1" (calls w4)) = Some []
  /\ (map Participant.status <$>
        (GroupCall.participants <$> findById "call1" (calls w4)))
     = Some [PStatus.left; PStatus.left; PStatus.declined]
  /\ _noParticipantTimers w4 !! "call1" = None
  /\ timeouts w4 !! 0 = None
  /\ (getPending carol w4).2 = mkResponse 200 (Calls []).
Proof. vm_compute. repeat split. Qed.

(** ** Requests that fail, and who may call what *)

Section Gatekeeping.



Lemma create_call_code userId roomId room callType now uuid newId w :
  code (create_call userId roomId room callType now uuid newId w).2 = 201.
Proof.
  destruct (create_call_spec userId roomId room callType now uuid newId w)
    as (n & -> & _). done.
Qed.

End Gatekeeping.

(** The two read handlers never change anything, and a handler that does
    not answer with its success code (200; 201 for [initiate]) leaves the
    collection, the timers and the event log exactly as they were. *)
Theorem failed_request_changes_nothing
    (u callId : string) (now tLeft tEnd : Z) (throws : nat -> bool)
    (roomId : option string) (callType : option CallType)
    (uuid newId : string) (w : World) :
  (getPending u w).1 = w
  /\ (getCall u callId w).1 = w
  /\ (code (join u callId now w).2 <> 200 -> (join u callId now w).1 = w)
  /\ (code (decline u callId w).2 <> 200 -> (decline u callId w).1 = w)
  /\ (forall w' r, leave u callId throws tLeft tEnd w = Some (w', r) ->
        code r <> 200 -> w' = w)
  /\ (code (initiate u roomId callType now uuid newId w).2 <> 201 ->
      (initiate u roomId callType now uuid newId w).1 = w).
Proof.
  split; [done|]. split.
  { unfold getCall. destruct (findById callId (calls w)); [|done].
    by destruct (existsb _ _). }
  split.
  { unfold join. destruct (findById callId (calls w)); [|done].
    destruct (find_participant u _); [|done]. simpl. intros H. by destruct H. }
  split.
  { unfold decline. destruct (findById callId (calls w)); [|done].
    destruct (find_participant u _); [|done]. simpl. intros H. by destruct H. }
  split.
  { intros w' r Hl Hc.
    destruct (leave_calls _ _ _ _ _ _ _ _ Hl) as [[_ ->]|[Hc' _]]; done. }
  unfold initiate. destruct roomId as [rid|]; [|done].
  destruct (findRoom rid (rooms w)) as [room|]; [|done].
  destruct (negb _); [done|].
  destruct (findLiveForRoom rid (calls w)) as [e|].
  - destruct (isAbandoned now e); [|done].
    unfold endCall. intros H. exfalso. apply H. apply create_call_code.
  - intros H. exfalso. apply H. apply create_call_code.
Qed.


(** ** What [decline] and [join] do to a session *)

Section DeclineJoin.

Lemma save_doc_found c cs :
  findById (GroupCall._id c) cs = Some c -> save_doc c cs = cs.
Proof.
  unfold findById. induction cs as [|d cs IH]; simpl; [done|].
  destruct (same_id (GroupCall._id c) d).
  - intros H. by inversion H.
  - intros H. by rewrite IH.
Qed.

Lemma find_update_first f g ps p :
  find f ps = Some p -> f (g p) = true ->
  find f (update_first f g ps) = Some (g p).
Proof.
  induction ps as [|q ps IH]; simpl; [done|].
  destruct (f q) eqn:E; simpl.
  - intros H Hg. inversion H; subst. by rewrite Hg.
  - intros H Hg. rewrite E. by apply IH.
Qed.

Lemma update_first_idem f g ps :
  (forall p, f p = true -> f (g p) = true /\ g (g p) = g p) ->
  update_first f g (update_first f g ps) = update_first f g ps.
Proof.
  intros Hg. induction ps as [|q ps IH]; simpl; [done|].
  destruct (f q) eqn:E; simpl.
  - destruct (Hg q E) as [-> ->]. done.
  - rewrite E. by rewrite IH.
Qed.

(** Only the first record found is changed. *)
Lemma update_first_others f g ps :
  Forall2 (fun q q' => q' = q \/ (f q = true /\ q' = g q)) ps (update_first f g ps).
Proof.
  induction ps as [|q ps IH]; simpl; [constructor|].
  destruct (f q) eqn:E.
  - constructor; [by right|]. apply Forall2_same_length_lookup_2; [done|].
    intros i x y Hx Hy. left. congruence.
  - constructor; [by left | done].
Qed.

Lemma decline_doc_idem u c : decline_doc u (decline_doc u c) = decline_doc u c.
Proof.
  destruct c. unfold decline_doc, GroupCall.set_participants. simpl.
  rewrite update_first_idem; [done|]. intros q Hq. done.
Qed.

End DeclineJoin.

(** [decline] by a participant marks the first record of the caller
    declined and changes nothing else: the other records, the session
    status, the active participants (a caller who was active stays
    active), the timers and the event log are as before.  Declining again
    changes nothing at all. *)
Theorem decline_only_marks_the_caller
    (u callId : string) (w : World) (c : GroupCall.t) (p : Participant.t) :
  findById callId (calls w) = Some c ->
  find_participant u (GroupCall.participants c) = Some p ->
  exists c',
    findById callId (calls (decline u callId w).1) = Some c'
    /\ find_participant u (GroupCall.participants c')
       = Some (Participant.set_status PStatus.declined p)
    /\ Forall2
         (fun q q' =>
            q' = q
            \/ (Participant.userId q = u
                /\ q' = Participant.set_status PStatus.declined q))
         (GroupCall.participants c) (GroupCall.participants c')
    /\ GroupCall.status c' = GroupCall.status c
    /\ GroupCall.activeParticipants c' = GroupCall.activeParticipants c
    /\ GroupCall.endedAt c' = GroupCall.endedAt c
    /\ _noParticipantTimers (decline u callId w).1 = _noParticipantTimers w
    /\ timeouts (decline u callId w).1 = timeouts w
    /\ emitted (decline u callId w).1 = emitted w
    /\ (decline u callId (decline u callId w).1).1 = (decline u callId w).1.
Proof.
  intros Hf Hp. pose proof (findById_id _ _ _ Hf) as Hid.
  assert (find_participant u (GroupCall.participants (decline_doc u c))
          = Some (Participant.set_status PStatus.declined p)) as Hp'.
  { unfold find_participant, decline_doc. cbn.
    apply find_update_first; [exact Hp|].
    apply find_some in Hp as [_ Hu]. exact Hu. }
  assert (findById callId (save_doc (decline_doc u c) (calls w))
          = Some (decline_doc u c)) as Hf' by (by apply findById_saved).
  assert ((decline u callId w).1 = save (decline_doc u c) w) as ->.
  { unfold decline. by rewrite Hf, Hp. }
  exists (decline_doc u c). cbn [calls save set_calls].
  split; [exact Hf'|]. split; [exact Hp'|]. split.
  { eapply Forall2_impl; [apply update_first_others|].
    intros q q' [->|[Hu ->]]; [by left|]. right. split; [|done].
    unfold is_user in Hu. by apply bool_decide_eq_true in Hu. }
  do 6 (split; [done|]).
  unfold decline. cbn [calls save set_calls]. rewrite Hf', Hp'. cbn [fst].
  rewrite decline_doc_idem.
  unfold save. cbn [calls set_calls].
  rewrite save_doc_found; [done|].
  replace (GroupCall._id (decline_doc u c)) with callId by done. exact Hf'.
Qed.

Lemma decline_only_marks_the_caller_witness :
  exists c p c',
    findById "call1" (calls world2) = Some c
    /\ find_participant bob (GroupCall.participants c) = Some p
    /\ findById "call1" (calls (decline bob "call1" world2).1) = Some c'
    /\ GroupCall.activeParticipants c' = [alice; bob].
Proof.
  destruct (decline_only_marks_the_caller bob "call1" world2 _ _
              ltac:(vm_compute; reflexivity) ltac:(vm_compute; reflexivity))
    as (c' & Hf' & _ & _ & _ & Hap & _).
  eexists _, _, c'. split; [vm_compute; reflexivity|].
  split; [vm_compute; reflexivity|]. split; [exact Hf'|]. exact Hap.
Defined.

Section JoinOnce.

Lemma join_doc_active u now c :
  GroupCall.activeParticipants (join_doc u now c)
  = if bool_decide (u ∈ GroupCall.activeParticipants c)
    then GroupCall.activeParticipants c
    else GroupCall.activeParticipants c ++ [u].
Proof.
  unfold join_doc, includes. cbn [GroupCall.activeParticipants GroupCall.set_participants].
  destruct (bool_decide (u ∈ GroupCall.activeParticipants c));
    by repeat (case_match; simpl).
Qed.

Lemma join_doc_participants u now c :
  GroupCall.participants (join_doc u now c)
  = update_first (is_user u) (join_participant now) (GroupCall.participants c).
Proof. unfold join_doc. by repeat (case_match; simpl). Qed.

Lemma join_doc_status u now c :
  GroupCall.status (join_doc u now c)
  = if bool_decide (GroupCall.status c = CallStatus.ringing)
       && bool_decide (2 <= length (GroupCall.activeParticipants (join_doc u now c)))
    then CallStatus.active else GroupCall.status c.
Proof.
  rewrite join_doc_active. unfold join_doc, includes.
  cbn [GroupCall.activeParticipants GroupCall.set_participants GroupCall.status].
  destruct (bool_decide (u ∈ GroupCall.activeParticipants c)); simpl;
    by repeat (case_match; simpl).
Qed.

(** Joining a second time neither adds the caller again nor changes the
    status. *)
Lemma join_doc_again u now now' c :
  GroupCall.activeParticipants (join_doc u now' (join_doc u now c))
  = GroupCall.activeParticipants (join_doc u now c)
  /\ GroupCall.status (join_doc u now' (join_doc u now c))
     = GroupCall.status (join_doc u now c).
Proof.
  assert (u ∈ GroupCall.activeParticipants (join_doc u now c)) as Hin.
  { rewrite join_doc_active. case_bool_decide; [done|].
    apply elem_of_app. right. by apply list_elem_of_singleton. }
  assert (GroupCall.activeParticipants (join_doc u now' (join_doc u now c))
          = GroupCall.activeParticipants (join_doc u now c)) as Hap.
  { rewrite (join_doc_active u now'). by rewrite bool_decide_eq_true_2. }
  split; [exact Hap|].
  rewrite (join_doc_status u now'), Hap.
  destruct (bool_decide (GroupCall.status (join_doc u now c) = CallStatus.ringing))
    eqn:E; simpl; [|done].
  apply bool_decide_eq_true in E.
  pose proof (join_doc_ringing_bound u now c E) as Hle.
  by rewrite bool_decide_eq_false_2 by lia.
Qed.

End JoinOnce.

(** [join] by a participant puts the caller among the active participants
    once: the list is the old one, with the caller appended when not in it
    yet, so a list without repetitions stays so.  The caller's first record
    is joined with [joinedAt = now]; its [leftAt] is not cleared, so a
    participant who left and comes back keeps the old [leftAt].  A second
    [join] changes neither the active participants nor the status. *)
Theorem join_adds_the_caller_once
    (u callId : string) (now now' : Z) (w : World) (c : GroupCall.t)
    (p : Participant.t) :
  findById callId (calls w) = Some c ->
  find_participant u (GroupCall.participants c) = Some p ->
  exists c' c'',
    findById callId (calls (join u callId now w).1) = Some c'
    /\ GroupCall.activeParticipants c'
       = (if bool_decide (u ∈ GroupCall.activeParticipants c)
          then GroupCall.activeParticipants c
          else GroupCall.activeParticipants c ++ [u])
    /\ (NoDup (GroupCall.activeParticipants c) ->
        NoDup (GroupCall.activeParticipants c'))
    /\ find_participant u (GroupCall.participants c')
       = Some (Participant.mk (Participant.userId p) PStatus.joined (Some now)
                 (Participant.leftAt p) (Participant.notificationSent p)
                 (Participant.notificationDelivered p))
    /\ findById callId (calls (join u callId now' (join u callId now w).1).1)
       = Some c''
    /\ GroupCall.activeParticipants c'' = GroupCall.activeParticipants c'
    /\ GroupCall.status c'' = GroupCall.status c'.
Proof.
  intros Hf Hp.
  assert (forall t w0 c0 p0,
            findById callId (calls w0) = Some c0 ->
            find_participant u (GroupCall.participants c0) = Some p0 ->
            findById callId (calls (join u callId t w0).1)
            = Some (join_doc u t c0)) as Hjoin.
  { intros t w0 c0 p0 Hf0 Hp0.
    destruct (join u callId t w0) as [w1 r1] eqn:Hj.
    assert (code r1 = 200) as Hc.
    { unfold join in Hj. rewrite Hf0, Hp0 in Hj. by inversion Hj. }
    destruct (join_200 _ _ _ _ _ _ Hj Hc) as (c1 & Hf1 & _ & Hf' & _).
    by assert (c1 = c0) as -> by congruence. }
  assert (find_participant u (GroupCall.participants (join_doc u now c))
          = Some (join_participant now p)) as Hp'.
  { rewrite join_doc_participants. unfold find_participant.
    apply find_update_first; [exact Hp|].
    apply find_some in Hp as [_ Hu]. exact Hu. }
  exists (join_doc u now c), (join_doc u now' (join_doc u now c)).
  split; [by eapply Hjoin|]. split; [apply join_doc_active|]. split.
  { intros Hnd. rewrite join_doc_active. case_bool_decide as Hin; [done|].
    apply NoDup_app. split; [done|]. split; [|apply NoDup_singleton].
    intros x Hx Hx'. apply list_elem_of_singleton in Hx'. by subst. }
  split; [exact Hp'|]. split.
  { eapply Hjoin; [by eapply Hjoin | exact Hp']. }
  apply join_doc_again.
Qed.

Lemma join_adds_the_caller_once_witness :
  exists c p c',
    findById "call1" (calls world3) = Some c
    /\ find_participant alice (GroupCall.participants c) = Some p
    /\ Participant.leftAt p = Some 3000%Z
    /\ findById "call1" (calls (join alice "call1" 3500 world3).1) = Some c'
    /\ GroupCall.activeParticipants c' = [bob; alice]
    /\ find_participant alice (GroupCall.participants c')
       = Some (Participant.mk alice PStatus.joined (Some 3500%Z) (Some 3000%Z)
                 false false).
Proof.
  destruct (join_adds_the_caller_once alice "call1" 3500 3600 world3 _ _
              ltac:(vm_compute; reflexivity) ltac:(vm_compute; reflexivity))
    as (c' & c'' & Hf' & Hap & _ & Hp' & _).
  eexists _, _, c'. split; [vm_compute; reflexivity|].
  split; [vm_compute; reflexivity|]. split; [reflexivity|].
  split; [exact Hf'|]. split; [exact Hap | exact Hp'].
Defined.

(** ** The session [initiate] creates and the invitations it sends *)

Section NewCall.

Variables (userId rid : string) (room : Room.t) (callType : CallType)
          (now : Z) (uuid newId : string).

Lemma invite_sockets_eq sockets :
  match List.filter (fun s => bool_decide (rid ∈ Socket.rooms s)) sockets with
  | [] => sockets
  | _ :: _ => List.filter (fun s => bool_decide (rid ∈ Socket.rooms s)) sockets
  end = invite_sockets rid sockets.
Proof. unfold invite_sockets. by destruct (List.filter _ sockets). Qed.

Lemma flags_none (ps : list Participant.t) :
  map (fun p => if bool_decide (Participant.userId p ∈ @nil string)
                then Participant.set_notificationSent true p else p) ps = ps.
Proof.
  induction ps as [|p ps IH]; simpl; [done|]. f_equal. apply IH.
Qed.

(** All of what [create_call] does to the collection and the event log. *)
Lemma create_call_full w :
  (create_call userId rid room callType now uuid newId w).2
    = mkResponse 201
        (MessageCall "Group call initiated"
           (created_call userId rid room callType now uuid newId w))
  /\ calls (create_call userId rid room callType now uuid newId w).1
     = save_doc (created_call userId rid room callType now uuid newId w) (calls w)
  /\ emitted (create_call userId rid room callType now uuid newId w).1
     = emitted w
       ++ map (fun x => mkEmit x.2
                          (invite_payload userId rid room callType now uuid newId))
            (sent_to userId rid room w).
Proof.
  unfold create_call, created_call, sent_to, invite_payload. simpl.
  destruct (io w) as [sockets|].
  - unfold notify_invited. rewrite invite_sockets_eq.
    change (flat_map _ _) with (invited_sockets userId rid room sockets).
    destruct (invited_sockets userId rid room sockets) as [|x sent'] eqn:Hsent.
    + simpl. rewrite List.map_id, app_nil_r. done.
    + rewrite bool_decide_eq_true_2 by (simpl; lia). cbn [fst snd].
      split; [done|]. unfold save, set_emitted, set_calls.
      cbn [calls emitted]. split; [|done]. by rewrite save_doc_twice.
  - simpl. rewrite flags_none, app_nil_r. done.
Qed.

End NewCall.

Section Invitations.

Lemma save_doc_fresh c cs :
  findById (GroupCall._id c) cs = None -> save_doc c cs = cs ++ [c].
Proof.
  unfold findById. induction cs as [|d cs IH]; simpl; [done|].
  destruct (same_id (GroupCall._id c) d); [done|].
  intros H. by rewrite IH.
Qed.

(** With no live session in the room [initiate] goes straight to creating
    one. *)
Lemma initiate_fresh userId rid callType now uuid newId w room :
  findRoom rid (rooms w) = Some room ->
  userId ∈ Room.participants room ->
  findLiveForRoom rid (calls w) = None ->
  initiate userId (Some rid) callType now uuid newId w
  = create_call userId rid room (default video callType) now uuid newId w.
Proof.
  intros Hroom Hmem Hlive. unfold initiate. rewrite Hroom, Hlive.
  assert (existsb (fun p => bool_decide (p = userId)) (Room.participants room)
          = true) as ->; [|done].
  apply existsb_exists. exists userId. split.
  - by apply list_elem_of_In.
  - by apply bool_decide_eq_true.
Qed.

Lemma in_invited_sockets userId rid room sockets pid sid :
  (pid, sid) ∈ invited_sockets userId rid room sockets
  <-> pid ∈ Room.participants room /\ pid <> userId
      /\ exists s, s ∈ invite_sockets rid sockets
           /\ Socket.user s = Some pid /\ Socket.id s = sid.
Proof.
  unfold invited_sockets, sockets_of.
  rewrite list_elem_of_In, in_flat_map. split.
  - intros (q & Hq & Hin). apply filter_In in Hq as [Hq Hne].
    apply in_map_iff in Hin as (s & Heq & Hs). inversion Heq; subst.
    apply filter_In in Hs as [Hs Hu].
    apply negb_true_iff, bool_decide_eq_false in Hne.
    apply bool_decide_eq_true in Hu.
    split; [by apply list_elem_of_In|]. split; [done|].
    exists s. split; [by apply list_elem_of_In | done].
  - intros (Hq & Hne & s & Hs & Hu & <-). exists pid. split.
    + apply filter_In. split; [by apply list_elem_of_In|].
      by apply negb_true_iff, bool_decide_eq_false.
    + apply in_map_iff. exists s. split; [done|].
      apply filter_In. split; [by apply list_elem_of_In|].
      by apply bool_decide_eq_true.
Qed.

End Invitations.

(** [initiate] by a member of a room without a live session, given a new
    document id: the session is appended to the collection and is the one
    the 201 response carries.  It is ringing, on the channel made from the
    uuid, of the requested type (video by default), its only active
    participant is the initiator, and its participants are the members of
    the room in order: the initiator joined at [now], everybody else
    invited and without [joinedAt], nobody marked as delivered. *)
Theorem initiate_creates_ringing_session
    (userId rid : string) (callType : option CallType) (now : Z)
    (uuid newId : string) (w : World) (room : Room.t) :
  findRoom rid (rooms w) = Some room ->
  userId ∈ Room.participants room ->
  findLiveForRoom rid (calls w) = None ->
  findById newId (calls w) = None ->
  exists n,
    (initiate userId (Some rid) callType now uuid newId w).2
    = mkResponse 201 (MessageCall "Group call initiated" n)
    /\ calls (initiate userId (Some rid) callType now uuid newId w).1
       = calls w ++ [n]
    /\ GroupCall._id n = newId
    /\ GroupCall.roomId n = rid
    /\ GroupCall.initiator n = userId
    /\ GroupCall.callRoomId n = "group-call-" +:+ uuid
    /\ GroupCall.status n = CallStatus.ringing
    /\ GroupCall.callType n = default video callType
    /\ GroupCall.activeParticipants n = [userId]
    /\ map Participant.userId (GroupCall.participants n) = Room.participants room
    /\ Forall
         (fun p =>
            Participant.notificationDelivered p = false
            /\ if bool_decide (Participant.userId p = userId)
               then Participant.status p = PStatus.joined
                    /\ Participant.joinedAt p = Some now
               else Participant.status p = PStatus.invited
                    /\ Participant.joinedAt p = None)
         (GroupCall.participants n).
Proof.
  intros Hroom Hmem Hlive Hnew.
  rewrite (initiate_fresh _ _ _ _ _ _ _ _ Hroom Hmem Hlive).
  destruct (create_call_full userId rid room (default video callType) now uuid
              newId w) as (-> & -> & _).
  exists (created_call userId rid room (default video callType) now uuid newId w).
  split; [done|]. split; [by apply save_doc_fresh|].
  do 7 (split; [done|]). unfold created_call. cbn. split.
  - rewrite !map_map. rewrite <- (map_id (Room.participants room)) at 2.
    apply map_ext. intros pid. by case_match.
  - apply Forall_forall. intros p Hp.
    apply list_elem_of_In, in_map_iff in Hp as (q & <- & Hq).
    apply in_map_iff in Hq as (pid & <- & _).
    unfold new_participant.
    by destruct (bool_decide (pid = userId)) eqn:E; case_match; cbn; rewrite E.
Qed.

Lemma initiate_creates_ringing_session_witness :
  exists n,
    findRoom "room1" (rooms world0) = Some general
    /\ alice ∈ Room.participants general
    /\ findLiveForRoom "room1" (calls world0) = None
    /\ findById "call1" (calls world0) = None
    /\ calls world1 = [n]
    /\ map Participant.userId (GroupCall.participants n) = [alice; bob; carol].
Proof.
  destruct (initiate_creates_ringing_session alice "room1" (Some audio) 1000
              "uuid-1" "call1" world0 general ltac:(reflexivity)
              ltac:(apply (bool_decide_unpack _); vm_compute; exact I)
              ltac:(reflexivity) ltac:(reflexivity))
    as (n & _ & Hcalls & _ & _ & _ & _ & _ & _ & _ & Hids & _).
  exists n. split; [reflexivity|].
  split; [apply (bool_decide_unpack _); vm_compute; exact I|].
  split; [reflexivity|]. split; [reflexivity|].
  split; [exact Hcalls | exact Hids].
Defined.

(** The invitations of [initiate], for a member of a room without a live
    session.  Let the sockets searched be [invite_sockets] (none when
    [global.__io] is unset).  Every event emitted is the invitation to the
    new call and goes to a searched socket of a room member other than the
    initiator; every such socket gets one; and in the call returned
    [notificationSent] is set exactly for the members other than the
    initiator that have a searched socket.  When some connected socket is
    in the socket.io room of the chat room, only sockets in that room are
    invited. *)
Theorem initiate_invites_other_members
    (userId rid : string) (callType : option CallType) (now : Z)
    (uuid newId : string) (w : World) (room : Room.t) :
  findRoom rid (rooms w) = Some room ->
  userId ∈ Room.participants room ->
  findLiveForRoom rid (calls w) = None ->
  let searched :=
    match io w with
    | Some sockets => invite_sockets rid sockets
    | None => []
    end in
  exists n E,
    (initiate userId (Some rid) callType now uuid newId w).2
    = mkResponse 201 (MessageCall "Group call initiated" n)
    /\ emitted (initiate userId (Some rid) callType now uuid newId w).1
       = emitted w ++ E
    /\ (forall e, e ∈ E ->
          (exists roster,
             event e = group_incoming_call newId ("group-call-" +:+ uuid) rid
                         (Room.name room) (default video callType) userId roster)
          /\ exists s pid,
               s ∈ searched /\ target e = Socket.id s
               /\ Socket.user s = Some pid
               /\ pid ∈ Room.participants room /\ pid <> userId)
    /\ (forall s pid,
          s ∈ searched -> Socket.user s = Some pid ->
          pid ∈ Room.participants room -> pid <> userId ->
          exists e, e ∈ E /\ target e = Socket.id s)
    /\ (forall p, p ∈ GroupCall.participants n ->
          Participant.notificationSent p = true
          <-> Participant.userId p <> userId
              /\ exists s, s ∈ searched
                   /\ Socket.user s = Some (Participant.userId p))
    /\ (forall sockets s0 s,
          io w = Some sockets -> s0 ∈ sockets -> rid ∈ Socket.rooms s0 ->
          s ∈ searched -> rid ∈ Socket.rooms s).
Proof.
  intros Hroom Hmem Hlive searched.
  rewrite (initiate_fresh _ _ _ _ _ _ _ _ Hroom Hmem Hlive).
  destruct (create_call_full userId rid room (default video callType) now uuid
              newId w) as (-> & _ & ->).
  eexists _, _. split; [reflexivity|]. split; [reflexivity|].
  assert (forall pid sid,
            (pid, sid) ∈ sent_to userId rid room w
            <-> pid ∈ Room.participants room /\ pid <> userId
                /\ exists s, s ∈ searched
                     /\ Socket.user s = Some pid /\ Socket.id s = sid) as Hsent.
  { intros pid sid. unfold sent_to, searched. destruct (io w) as [sockets|].
    - apply in_invited_sockets.
    - split; [by intros H%elem_of_nil|].
      by intros (_ & _ & s & H%elem_of_nil & _). }
  split; [|split; [|split]].
  - intros e He. apply list_elem_of_fmap in He as ([pid sid] & -> & Hx).
    split; [by eexists|]. apply Hsent in Hx as (Hp & Hne & s & Hs & Hu & <-).
    by exists s, pid.
  - intros s pid Hs Hu Hp Hne.
    exists (mkEmit (Socket.id s)
              (invite_payload userId rid room (default video callType) now uuid
                 newId)).
    split; [|done].
    apply list_elem_of_fmap. exists (pid, Socket.id s). split; [done|].
    apply Hsent. split; [done|]. split; [done|]. by exists s.
  - intros p Hp. unfold created_call in Hp. cbn in Hp.
    apply list_elem_of_fmap in Hp as (q & -> & Hq).
    apply list_elem_of_fmap in Hq as (pid & -> & Hpid).
    assert (pid ∈ map fst (sent_to userId rid room w)
            <-> pid <> userId
                /\ exists s, s ∈ searched /\ Socket.user s = Some pid) as Hmem'.
    { rewrite list_elem_of_fmap. split.
      - intros ([pid' sid] & -> & Hx). apply Hsent in Hx as (_ & Hne & s & Hs & Hu & _).
        split; [done|]. by exists s.
      - intros (Hne & s & Hs & Hu). exists (pid, Socket.id s). split; [done|].
        apply Hsent. split; [done|]. split; [done|]. by exists s. }
    case_bool_decide as Hin; cbn.
    + split; [|done]. intros _. by apply Hmem'.
    + split; [done|].
      intros HB. exfalso. apply Hin. exact (proj2 Hmem' HB).
  - intros sockets s0 s Hio Hs0 Hrid0. unfold searched, invite_sockets.
    rewrite Hio.
    destruct (List.filter (fun s => bool_decide (rid ∈ Socket.rooms s)) sockets)
      as [|x l] eqn:Hfilter.
    + exfalso. apply list_elem_of_In in Hs0.
      assert (In s0 (List.filter (fun s => bool_decide (rid ∈ Socket.rooms s))
                       sockets)) as Hin.
      { apply filter_In. split; [done | by apply bool_decide_eq_true]. }
      by rewrite Hfilter in Hin.
    + rewrite <- Hfilter. intros Hs. apply list_elem_of_In, filter_In in Hs as [_ Hs].
      by apply bool_decide_eq_true in Hs.
Qed.

(** ** Invariants of the collection *)

Section Invariants.

Lemma findById_elem id cs c : findById id cs = Some c -> c ∈ cs.
Proof.
  unfold findById. intros H. apply find_some in H as [H _].
  by apply list_elem_of_In.
Qed.

Lemma Forall_save_doc (P : GroupCall.t -> Prop) d cs :
  Forall P cs -> P d -> Forall P (save_doc d cs).
Proof.
  intros Hcs Hd. induction Hcs as [|x cs Hx Hcs IH]; simpl.
  - by constructor.
  - destruct (same_id (GroupCall._id d) x); by constructor.
Qed.

(** As [run_calls_doc], with the membership check [join] and [decline]
    made before storing. *)
Lemma run_calls_member op w :
  calls (run op w) = calls w
  \/ exists c d, findById (GroupCall._id c) (calls w) = Some c
       /\ GroupCall._id d = GroupCall._id c
       /\ calls (run op w) = save_doc d (calls w)
       /\ op_effect op c d
       /\ match op with
          | OpJoin u _ _ =>
              exists p, p ∈ GroupCall.participants c /\ Participant.userId p = u
          | _ => True
          end.
Proof.
  destruct (run_calls_doc op w) as [H|(c & d & Hf & Hid & Hcalls & Heff)];
    [by left|].
  destruct op as [u callId now|u callId|u callId throws tLeft tEnd|tid now];
    try (right; exists c, d; done).
  simpl in *. unfold join in *.
  destruct (findById callId (calls w)) as [c0|] eqn:Hf0.
  - destruct (find_participant u (GroupCall.participants c0)) as [p|] eqn:Hp;
      [|by left].
    right. exists c0, (join_doc u now c0).
    pose proof (findById_id _ _ _ Hf0) as <-.
    split; [done|]. split; [apply join_doc_id|].
    simpl. autorewrite with world. split; [done|]. split; [done|].
    exists p. apply find_some in Hp as [Hin Hu]. split; [by apply list_elem_of_In|].
    unfold is_user in Hu. by apply bool_decide_eq_true in Hu.
  - by left.
Qed.

Lemma step_keeps_ids op ps ps' :
  Forall2 (status_step op) ps ps' ->
  map Participant.userId ps' = map Participant.userId ps.
Proof.
  induction 1 as [|p p' ps ps' [Hu _] _ IH]; simpl; [done|]. by rewrite Hu, IH.
Qed.

Lemma is_participant_ids v ps :
  (exists p, p ∈ ps /\ Participant.userId p = v) <-> v ∈ map Participant.userId ps.
Proof.
  rewrite list_elem_of_fmap. split; intros (p & H1 & H2); exists p; done.
Qed.

End Invariants.

(** In every session every active participant is one of the participants:
    [join], [decline], [leave] and the timer handler keep this true in the
    whole collection.  ([join] adds only a caller it found among the
    participants; no handler removes a participant.) *)
Theorem active_participants_are_participants (op : Op) (w : World) :
  Forall active_are_participants (calls w) ->
  Forall active_are_participants (calls (run op w)).
Proof.
  intros Hall.
  destruct (run_calls_member op w)
    as [->|(c & d & Hf & Hid & -> & Heff & Hmem)]; [done|].
  apply Forall_save_doc; [done|].
  assert (active_are_participants c) as Hc.
  { eapply Forall_forall; [exact Hall|]. by eapply findById_elem. }
  pose proof (step_keeps_ids _ _ _ (op_effect_step op c d Heff)) as Hids.
  intros v Hv. apply is_participant_ids. rewrite Hids. apply is_participant_ids.
  destruct op as [u callId now|u callId|u callId throws tLeft tEnd|tid now];
    simpl in Heff.
  - subst d. rewrite join_doc_active in Hv. case_bool_decide; [by apply Hc|].
    apply elem_of_app in Hv as [Hv|Hv]; [by apply Hc|].
    apply list_elem_of_singleton in Hv. by subst.
  - subst d. by apply Hc.
  - subst d. apply Hc. unfold leave_doc in Hv.
    assert (v ∈ List.filter (fun x => negb (bool_decide (x = u)))
                  (GroupCall.activeParticipants c)) as Hv'
      by (by case_bool_decide).
    apply list_elem_of_In, filter_In in Hv' as [Hv' _].
    by apply list_elem_of_In.
  - destruct Heff as (-> & _). by apply Hc.
Qed.

Lemma active_participants_are_participants_witness :
  Forall active_are_participants (calls world2)
  /\ Forall active_are_participants
       (calls (run (OpLeave alice "call1" never_throws 3000 3000) world2)).
Proof.
  assert (Forall active_are_participants (calls world2)) as H.
  { apply Forall_forall. intros c Hc v Hv. vm_compute in Hc.
    apply list_elem_of_singleton in Hc. subst c. cbn in Hv.
    apply is_participant_ids. cbn.
    apply elem_of_cons in Hv as [->|Hv]; [by left|].
    apply list_elem_of_singleton in Hv. subst v. right. by left. }
  split; [exact H|].
  exact (active_participants_are_participants
           (OpLeave alice "call1" never_throws 3000 3000) world2 H).
Defined.

Section OneLivePerRoom.

Lemma ids_save_doc d cs :
  is_Some (findById (GroupCall._id d) cs) ->
  map GroupCall._id (save_doc d cs) = map GroupCall._id cs.
Proof.
  unfold findById. induction cs as [|x cs IH]; simpl.
  - by intros [? ?].
  - destruct (same_id (GroupCall._id d) x) eqn:E; simpl.
    + intros _. unfold same_id in E. apply bool_decide_eq_true in E. by rewrite E.
    + intros H. by rewrite IH.
Qed.


(** Overwriting a document with one of the same room that is live only if
    the old one was can only take an entry away from [live_rooms]. *)
Lemma live_rooms_save_doc c d cs :
  findById (GroupCall._id c) cs = Some c ->
  GroupCall._id d = GroupCall._id c ->
  GroupCall.roomId d = GroupCall.roomId c ->
  (is_live d = true -> is_live c = true) ->
  live_rooms (save_doc d cs) `sublist_of` live_rooms cs.
Proof.
  intros Hf Hid Hroom Hlive. unfold findById, live_rooms in *.
  induction cs as [|x cs IH]; simpl in *; [done|].
  rewrite Hid. destruct (same_id (GroupCall._id c) x) eqn:E.
  - inversion Hf; subst x. simpl.
    destruct (is_live d) eqn:Ed; simpl.
    + rewrite (Hlive eq_refl). simpl. by rewrite Hroom.
    + destruct (is_live c); simpl; [by apply sublist_cons | done].
  - simpl. destruct (is_live x); simpl.
    + apply sublist_skip. by apply IH.
    + by apply IH.
Qed.

Lemma op_effect_room op c d :
  op_effect op c d ->
  GroupCall.roomId d = GroupCall.roomId c
  /\ (is_live d = true -> is_live c = true).
Proof.
  destruct op as [u callId now|u callId|u callId throws tLeft tEnd|tid now];
    simpl.
  - intros ->. split; [unfold join_doc; by repeat (case_match; simpl)|].
    unfold is_live. rewrite join_doc_status.
    destruct (GroupCall.status c) eqn:Hs; simpl; try done.
  - by intros ->.
  - intros ->. unfold leave_doc. by case_bool_decide.
  - by intros (-> & _).
Qed.




End OneLivePerRoom.

(** Document ids stay distinct and no room gets a second live session
    under [join], [decline], [leave] and the timer handler: these overwrite
    one document with one of the same id and room, and never make an ended
    session live again. *)
Theorem one_live_session_per_room_kept (op : Op) (w : World) :
  store_ok (calls w) -> store_ok (calls (run op w)).
Proof.
  intros [Hids Hlive].
  destruct (run_calls_doc op w) as [->|(c & d & Hf & Hid & -> & Heff)]; [done|].
  destruct (op_effect_room op c d Heff) as [Hroom Hl].
  split.
  - rewrite ids_save_doc; [done|]. rewrite Hid. by eexists.
  - apply (sublist_NoDup _ (live_rooms (calls w))); [exact Hlive|].
    by apply live_rooms_save_doc with c.
Qed.

Lemma one_live_session_per_room_kept_witness :
  store_ok (calls world2)
  /\ store_ok (calls (run (OpLeave alice "call1" never_throws 3000 3000) world2)).
Proof.
  assert (store_ok (calls world2)) as H.
  { split; vm_compute; apply NoDup_singleton. }
  split; [exact H|].
  exact (one_live_session_per_room_kept
           (OpLeave alice "call1" never_throws 3000 3000) world2 H).
Defined.



(** ** The timer registry as a whole *)

Section Registry.






End Registry.



(** After a [leave] that leaves exactly one active participant in a
    session that has not ended, the timeout it registered, if it runs
    next, ends the session (status, [endedAt], registry entry removed);
    but after a successful [join] to that session the same timeout is no
    longer pending, and running it changes nothing. *)
Theorem armed_timer_ends_call_unless_joined
    (u callId : string) (throws : nat -> bool) (tLeft tEnd : Z)
    (w : World) (c : GroupCall.t) (k : nat) :
  findById callId (calls w) = Some c ->
  k < maxRetries -> throws k = false ->
  length (List.filter (fun v => negb (bool_decide (v = u)))
            (GroupCall.activeParticipants c)) = 1 ->
  GroupCall.status c <> CallStatus.ended ->
  exists w1 r,
    leave u callId throws tLeft tEnd w = Some (w1, r)
    /\ timeouts w1 !! nextTimeoutId w = Some (mkTimeout callId (30 * 1000))
    /\ (forall now, exists c2,
          findById callId (calls (fire (nextTimeoutId w) now w1)) = Some c2
          /\ GroupCall.status c2 = CallStatus.ended
          /\ GroupCall.endedAt c2 = Some now
          /\ _noParticipantTimers (fire (nextTimeoutId w) now w1) !! callId = None
          /\ timeouts (fire (nextTimeoutId w) now w1) !! nextTimeoutId w = None)
    /\ (forall x nowJ now w2 r2,
          join x callId nowJ w1 = (w2, r2) -> code r2 = 200 ->
          fire (nextTimeoutId w) now w2 = w2).
Proof.
  intros Hf Hk Hthrows Hone Hlive.
  pose proof (leave_succeeds u callId throws tLeft tEnd w c k Hf Hk Hthrows) as Hl.
  pose proof (findById_id _ _ _ Hf) as Hid.
  pose proof (leave_finish_code u callId tEnd (leave_update u tLeft c)
                (save (leave_update u tLeft c) w)) as Hcode.
  destruct (leave_finish_timers u callId tEnd (leave_update u tLeft c)
              (save (leave_update u tLeft c) w)) as [Hreg Hto].
  destruct (leave_finish u callId tEnd (leave_update u tLeft c)
              (save (leave_update u tLeft c) w)) as [w1 r] eqn:Hfin.
  cbn [fst snd] in *. rewrite leave_update_id, Hid in Hreg, Hto.
  cbn [leave_update GroupCall.activeParticipants GroupCall.set_activeParticipants]
    in Hreg, Hto.
  rewrite bool_decide_eq_true_2 in Hreg, Hto by done.
  unfold set_timer in Hreg, Hto.
  cbn [_noParticipantTimers timeouts set_timers] in Hreg, Hto.
  rewrite clear_timer_next in Hreg, Hto. cbn [nextTimeoutId save set_calls] in Hreg, Hto.
  assert (timeouts w1 !! nextTimeoutId w = Some (mkTimeout callId (30 * 1000)))
    as Ht by (rewrite Hto; apply lookup_insert_eq).
  assert (_noParticipantTimers w1 !! callId = Some (nextTimeoutId w))
    as Hr by (rewrite Hreg; apply lookup_insert_eq).
  assert (findById callId (calls w1) = Some (leave_update u tLeft c)) as Hf1.
  { destruct (leave_200_doc _ _ _ _ _ _ _ _ Hl Hcode) as (c0 & Hf0 & Hf').
    assert (c0 = c) as -> by congruence. rewrite Hf'. f_equal.
    unfold leave_doc.
    cbn [leave_update GroupCall.activeParticipants GroupCall.set_activeParticipants].
    rewrite bool_decide_eq_false_2; [done | lia]. }
  exists w1, r. split; [exact Hl|]. split; [exact Ht|]. split.
  - intros now.
    destruct (fire_spec (nextTimeoutId w) now w1 _ Ht) as (Hr' & Ht' & Hend & _).
    cbn [t_callId] in *.
    destruct (Hend _ Hf1) as [Hf2 _]; [cbn; lia | done |].
    exists (end_transition now (leave_update u tLeft c)). done.
  - intros x nowJ now w2 r2 Hj Hc.
    destruct (join_timers _ _ _ _ _ _ Hj Hc) as [_ Hgone].
    unfold fire. by rewrite (Hgone _ Hr).
Qed.

Lemma armed_timer_ends_call_unless_joined_witness :
  exists c w1 r,
    findById "call1" (calls world2) = Some c
    /\ 0 < maxRetries /\ never_throws 0 = false
    /\ GroupCall.status c <> CallStatus.ended
    /\ leave alice "call1" never_throws 3000 3000 world2 = Some (w1, r)
    /\ exists c2,
         findById "call1" (calls (fire 0 40000 w1)) = Some c2
         /\ GroupCall.status c2 = CallStatus.ended.
Proof.
  destruct (armed_timer_ends_call_unless_joined alice "call1" never_throws 3000
              3000 world2 _ 0 ltac:(vm_compute; reflexivity)
              ltac:(unfold maxRetries; lia) ltac:(reflexivity)
              ltac:(reflexivity) ltac:(discriminate))
    as (w1 & r & Hl & _ & Hfire & _).
  destruct (Hfire 40000%Z) as (c2 & Hf2 & Hs & _).
  eexists _, w1, r. split; [vm_compute; reflexivity|].
  split; [unfold maxRetries; lia|]. split; [reflexivity|].
  split; [discriminate|]. split; [exact Hl|]. exists c2. split; [exact Hf2 | exact Hs].
Defined.

Lemma initiate_invites_other_members_witness :
  exists n E,
    findRoom "room1" (rooms world_sockets) = Some general
    /\ alice ∈ Room.participants general
    /\ findLiveForRoom "room1" (calls world_sockets) = None
    /\ emitted (initiate alice (Some "room1") None 1000 "uuid-1" "call1"
                  world_sockets).1 = E
    /\ map target E = ["s1"]
    /\ map Participant.notificationSent (GroupCall.participants n)
       = [false; true; false].
Proof.
  destruct (initiate_invites_other_members alice "room1" None 1000 "uuid-1"
              "call1" world_sockets general ltac:(reflexivity)
              ltac:(apply (bool_decide_unpack _); vm_compute; exact I)
              ltac:(reflexivity))
    as (n & E & Hr & Hem & _).
  exists n, E. split; [reflexivity|].
  split; [apply (bool_decide_unpack _); vm_compute; exact I|].
  split; [reflexivity|]. split; [exact Hem|].
  vm_compute in Hem. vm_compute in Hr. inversion Hem; subst E.
  inversion Hr; subst n. split; reflexivity.
Defined.

(** ** What [getPending] returns *)

(** [getPending] writes nothing and answers 200 with exactly the ringing
    sessions in which the caller is among the participants and some
    participant is still invited, the most recently created first. *)
Theorem getPending_returns (u : string) (w : World) :
  (getPending u w).1 = w
  /\ exists cs,
       (getPending u w).2 = mkResponse 200 (Calls cs)
       /\ newest_first cs
       /\ forall c,
            c ∈ cs
            <-> c ∈ calls w
                /\ GroupCall.status c = CallStatus.ringing
                /\ (exists p, p ∈ GroupCall.participants c
                              /\ Participant.userId p = u)
                /\ (exists q, q ∈ GroupCall.participants c
                              /\ Participant.status q = PStatus.invited).
Proof.
  destruct (getPending_spec u w) as (Hw & cs & Hr & Hs & Hin).
  split; [exact Hw|]. exists cs. split; [exact Hr|]. split; [exact Hs|].
  intros c. rewrite Hin, pending_filter_spec. tauto.
Qed.

(** ** What is broadcast *)

Section Broadcast.

Lemma emitted_emit tgt e w :
  emitted (emit tgt e w)
  = emitted w ++ match io w with Some _ => [mkEmit tgt e] | None => [] end.
Proof. unfold emit. destruct (io w); simpl; by rewrite ?app_nil_r. Qed.

Lemma leave_finish_emitted u callId tLeft tEnd c w :
  emitted (leave_finish u callId tEnd (leave_update u tLeft c) w).1
  = emitted w
    ++ match io w with
       | Some _ =>
           [mkEmit (GroupCall.callRoomId c)
              (participantLeft (GroupCall._id c) u
                 (GroupCall.activeParticipants (leave_doc u tLeft tEnd c))
                 (bool_decide (GroupCall.status (leave_doc u tLeft tEnd c)
                               = CallStatus.ended)))]
       | None => []
       end.
Proof.
  unfold leave_finish, leave_doc.
  destruct (bool_decide
              (length (GroupCall.activeParticipants (leave_update u tLeft c)) = 0));
    cbn [fst]; rewrite emitted_emit;
    repeat case_bool_decide; unfold set_timer;
    cbn [emitted io set_timers]; rewrite ?emitted_clear_timer, ?io_clear_timer;
    done.
Qed.

End Broadcast.

(** A successful [join] or [leave] emits exactly one event, to the channel
    of the session, when [global.__io] is set (none otherwise).  The event
    carries the active participants as they are stored after the request;
    for [leave] its [callEnded] flag is the one of the response, and it
    tells whether the stored session is ended. *)
Theorem broadcast_matches_store
    (u callId : string) (now tLeft tEnd : Z) (throws : nat -> bool)
    (w : World) (c : GroupCall.t) (k : nat) :
  findById callId (calls w) = Some c ->
  (find_participant u (GroupCall.participants c) <> None ->
     exists c',
       findById callId (calls (join u callId now w).1) = Some c'
       /\ emitted (join u callId now w).1
          = emitted w
            ++ match io w with
               | Some _ =>
                   [mkEmit (GroupCall.callRoomId c)
                      (participantJoined callId u
                         (GroupCall.activeParticipants c'))]
               | None => []
               end)
  /\ (k < maxRetries -> throws k = false ->
      exists w' c' callEnded,
        leave u callId throws tLeft tEnd w
        = Some (w', mkResponse 200 (MessageCallEnded "Left group call" callEnded))
        /\ findById callId (calls w') = Some c'
        /\ callEnded = bool_decide (GroupCall.status c' = CallStatus.ended)
        /\ emitted w'
           = emitted w
             ++ match io w with
                | Some _ =>
                    [mkEmit (GroupCall.callRoomId c)
                       (participantLeft callId u
                          (GroupCall.activeParticipants c') callEnded)]
                | None => []
                end).
Proof.
  intros Hf. pose proof (findById_id _ _ _ Hf) as Hid. split.
  - intros Hp. exists (join_doc u now c).
    destruct (find_participant u (GroupCall.participants c)) as [p|] eqn:Ep;
      [|done].
    unfold join. rewrite Hf, Ep. cbn [fst]. split.
    + autorewrite with world. apply findById_saved. by rewrite join_doc_id.
    + rewrite emitted_emit, emitted_clear_timer, io_clear_timer, join_doc_id, Hid.
      cbn [emitted io save set_calls].
      assert (GroupCall.callRoomId (join_doc u now c) = GroupCall.callRoomId c)
        as -> by (unfold join_doc; by repeat (case_match; simpl)).
      done.
  - intros Hk Hthrows.
    pose proof (leave_succeeds u callId throws tLeft tEnd w c k Hf Hk Hthrows) as Hl.
    pose proof (leave_finish_response u callId tLeft tEnd c
                  (save (leave_update u tLeft c) w)) as Hr.
    pose proof (leave_finish_emitted u callId tLeft tEnd c
                  (save (leave_update u tLeft c) w)) as He.
    destruct (leave_finish u callId tEnd (leave_update u tLeft c)
                (save (leave_update u tLeft c) w)) as [w' r] eqn:Hfin.
    cbn [fst snd] in *. subst r.
    exists w', (leave_doc u tLeft tEnd c),
      (bool_decide (GroupCall.status (leave_doc u tLeft tEnd c) = CallStatus.ended)).
    split; [exact Hl|]. split.
    { destruct (leave_200_doc _ _ _ _ _ _ _ _ Hl eq_refl) as (c0 & Hf0 & Hf').
      by assert (c0 = c) as -> by congruence. }
    split; [done|]. by rewrite He, Hid.
Qed.

Lemma broadcast_matches_store_witness :
  exists c w' callEnded,
    findById "call1" (calls world3) = Some c
    /\ 0 < maxRetries /\ never_throws 0 = false
    /\ leave bob "call1" never_throws 4000 4000 world3
       = Some (w', mkResponse 200 (MessageCallEnded "Left group call" callEnded))
    /\ callEnded = true
    /\ last (emitted w')
       = Some (mkEmit "group-call-uuid-1" (participantLeft "call1" bob [] true)).
Proof.
  destruct (broadcast_matches_store bob "call1" 0 4000 4000 never_throws world3 _ 0
              ltac:(vm_compute; reflexivity)) as [_ Hleave].
  destruct (Hleave ltac:(unfold maxRetries; lia) ltac:(reflexivity))
    as (w' & c' & callEnded & Hl & Hf' & Hflag & Hem).
  eexists _, w', callEnded. split; [vm_compute; reflexivity|].
  split; [unfold maxRetries; lia|]. split; [reflexivity|]. split; [exact Hl|].
  vm_compute in Hl. inversion Hl; subst. split; reflexivity.
Defined.

(** ** lib/db.js: connecting with retries *)

Section Connect.

Variables (retries : nat) (backoffMs : Z) (fails : nat -> bool).

(** The wait after the failed attempt number [i]. *)
Let wait (i : nat) : Z := (backoffMs * 2 ^ Z.of_nat (i - 1))%Z.

Lemma connect_loop_succeeds fuel a m ws :
  a < m <= retries -> m - a <= fuel ->
  (forall i, a < i < m -> fails i = true) -> fails m = false ->
  Db.connect_loop fuel a retries backoffMs fails ws
  = Some (Db.mkLoop Db.Connected m (ws ++ map wait (seq (S a) (m - a - 1)))).
Proof.
  revert a ws. induction fuel as [|fuel IH]; intros a ws Ham Hfuel Hbefore Hm;
    [lia|].
  cbn [Db.connect_loop]. rewrite bool_decide_eq_true_2 by lia.
  destruct (decide (S a = m)) as [<-|Hne].
  - rewrite Hm. replace (S a - a - 1) with 0 by lia. by rewrite app_nil_r.
  - rewrite (Hbefore (S a)) by lia. rewrite bool_decide_eq_false_2 by lia.
    rewrite IH; [|lia|lia|intros i Hi; apply Hbefore; lia|done].
    replace (m - a - 1) with (S (m - S a - 1)) by lia.
    cbn [seq map]. by rewrite <- app_assoc.
Qed.

Lemma connect_loop_gives_up fuel a ws :
  a < retries -> retries - a <= fuel ->
  (forall i, a < i <= retries -> fails i = true) ->
  Db.connect_loop fuel a retries backoffMs fails ws
  = Some (Db.mkLoop (Db.FinalError retries) retries
            (ws ++ map wait (seq (S a) (retries - a - 1)))).
Proof.
  revert a ws. induction fuel as [|fuel IH]; intros a ws Ha Hfuel Hall; [lia|].
  cbn [Db.connect_loop]. rewrite bool_decide_eq_true_2 by lia.
  rewrite (Hall (S a)) by lia.
  destruct (decide (S a = retries)) as [<-|Hne].
  - rewrite bool_decide_eq_true_2 by lia.
    replace (S a - a - 1) with 0 by lia. by rewrite app_nil_r.
  - rewrite bool_decide_eq_false_2 by lia.
    rewrite IH; [|lia|lia|intros i Hi; apply Hall; lia].
    replace (retries - a - 1) with (S (retries - S a - 1)) by lia.
    cbn [seq map]. by rewrite <- app_assoc.
Qed.

(** Either some attempt up to [retries] succeeds, and there is a first
    one, or all of them fail. *)
Lemma first_success :
  (exists m, 0 < m <= retries /\ fails m = false
             /\ forall i, 0 < i < m -> fails i = true)
  \/ (forall i, 0 < i <= retries -> fails i = true).
Proof.
  clear wait. induction retries as [|n IH].
  - right. intros i Hi. lia.
  - destruct IH as [(m & Hm & Hok & Hbefore)|Hall].
    + left. exists m. split; [lia | done].
    + destruct (fails (S n)) eqn:E.
      * right. intros i Hi. destruct (decide (i = S n)) as [->|]; [done|].
        apply Hall. lia.
      * left. exists (S n). split; [lia|]. split; [done|].
        intros i Hi. apply Hall. lia.
Qed.

(** The waits add up to [backoffMs * (2 ^ (m - 1) - 1)]. *)
Lemma waits_sum m :
  0 < m ->
  foldr Z.add 0%Z (map wait (seq 1 (m - 1)))
  = (backoffMs * (2 ^ Z.of_nat (m - 1) - 1))%Z.
Proof.
  intros Hm. assert (exists j, m = S j) as [j ->] by (exists (m - 1); lia).
  replace (S j - 1) with j by lia. clear Hm.
  induction j as [|j IH]; [simpl; lia|].
  rewrite seq_S, map_app, foldr_app. cbn [map foldr].
  assert (forall (l : list Z) z, foldr Z.add z l = (foldr Z.add 0 l + z)%Z) as Hacc.
  { induction l as [|x l IHl]; intros z; simpl; [lia|]. rewrite IHl. lia. }
  rewrite Hacc, IH. unfold wait. replace (1 + j - 1) with j by lia.
  rewrite Nat2Z.inj_succ, Z.pow_succ_r by lia. lia.
Qed.

End Connect.

(** A first call of [connectDB] (not connected, nothing cached, a URI
    configured) makes at most [retries] attempts, each after all earlier
    ones failed, and waits [backoffMs * 2 ^ (i - 1)] after the failed
    attempt [i]: in all [backoffMs * (2 ^ (n - 1) - 1)] for [n] attempts.
    It resolves with the connection at the first attempt that succeeds,
    and then the state is connected with the promise cached; it rejects
    only after [retries] failed attempts, and then the cache is cleared;
    with [retries = 0] it makes no attempt and resolves with [undefined],
    which stays cached. *)
Theorem connectDB_retry_schedule
    (retries : nat) (backoffMs : Z) (env : Db.Env) (fails : nat -> bool)
    (st : Db.State) :
  Db.readyState st <> 1 ->
  Db.connectionPromise st = None ->
  Db.truthy (Db.or_else (Db.MONGO_URI env)
               (Db.or_else (Db.MONGODB_URI env) (Db.MONGO_URL env))) = true ->
  exists run,
    Db.connectDB retries backoffMs env fails st = Some run
    /\ Db.run_attempts run <= retries
    /\ Db.run_waits run
       = map (fun i => (backoffMs * 2 ^ Z.of_nat (i - 1))%Z)
           (seq 1 (Db.run_attempts run - 1))
    /\ (0 < Db.run_attempts run ->
        foldr Z.add 0%Z (Db.run_waits run)
        = (backoffMs * (2 ^ Z.of_nat (Db.run_attempts run - 1) - 1))%Z)
    /\ (forall i, 0 < i < Db.run_attempts run -> fails i = true)
    /\ match Db.outcome run with
       | Db.Resolved Db.Connection =>
           0 < Db.run_attempts run
           /\ fails (Db.run_attempts run) = false
           /\ Db.state run = Db.mkState 1 (Some Db.Connection)
       | Db.Rejected (Db.ConnectionFailed n) =>
           n = retries /\ Db.run_attempts run = retries /\ 0 < retries
           /\ fails retries = true
           /\ Db.state run = Db.mkState (Db.readyState st) None
       | Db.Resolved Db.Undefined =>
           retries = 0 /\ Db.run_attempts run = 0
           /\ Db.state run = Db.mkState (Db.readyState st) (Some Db.Undefined)
       | Db.Rejected Db.UriNotDefined => False
       end
    /\ ((exists i, 0 < i <= retries /\ fails i = false) ->
        Db.outcome run = Db.Resolved Db.Connection).
Proof.
  intros Hready Hcache Huri. unfold Db.connectDB, Db.connectDB_fuel.
  rewrite bool_decide_eq_false_2 by done. rewrite Hcache, Huri. cbn [negb].
  destruct (first_success retries fails) as [(m & Hm & Hok & Hbefore)|Hall].
  - rewrite (connect_loop_succeeds retries backoffMs fails (S retries) 0 m [])
      by (lia || done || (intros i Hi; apply Hbefore; lia)).
    eexists. split; [reflexivity|]. cbn.
    replace (m - 0 - 1) with (m - 1) by lia.
    split; [lia|]. split; [done|].
    split; [intros _; apply waits_sum; lia|].
    split; [exact Hbefore|]. split; [|done]. split; [lia | done].
  - destruct (decide (retries = 0)) as [->|Hpos].
    + eexists. split; [reflexivity|]. cbn.
      split; [lia|]. split; [done|]. split; [lia|]. split; [intros i Hi; lia|].
      split; [done|]. intros (i & Hi & _). lia.
    + rewrite (connect_loop_gives_up retries backoffMs fails (S retries) 0 [])
        by (lia || (intros i Hi; apply Hall; lia)).
      eexists. split; [reflexivity|]. cbn.
      replace (retries - 0 - 1) with (retries - 1) by lia.
      split; [lia|]. split; [done|].
      split; [intros _; apply waits_sum; lia|].
      split; [intros i Hi; apply Hall; lia|]. split.
      * repeat split; [lia | apply Hall; lia].
      * intros (i & Hi & Hfalse). rewrite Hall in Hfalse by lia. done.
Qed.

Lemma connectDB_retry_schedule_witness :
  exists run,
    Db.connectDB Db.DEFAULT_RETRIES Db.DEFAULT_BACKOFF_MS
      (Db.mkEnv None (Some "mongodb://localhost/vaani") None)
      (fun i => bool_decide (i < 3)) (Db.mkState 0 None) = Some run
    /\ Db.run_attempts run = 3
    /\ Db.run_waits run = [1000; 2000]%Z
    /\ Db.outcome run = Db.Resolved Db.Connection.
Proof.
  destruct (connectDB_retry_schedule Db.DEFAULT_RETRIES Db.DEFAULT_BACKOFF_MS
              (Db.mkEnv None (Some "mongodb://localhost/vaani") None)
              (fun i => bool_decide (i < 3)) (Db.mkState 0 None)
              ltac:(cbn; lia) ltac:(reflexivity) ltac:(reflexivity))
    as (run & Hrun & _ & _ & _ & _ & _ & Hok).
  exists run. split; [exact Hrun|].
  assert (Db.outcome run = Db.Resolved Db.Connection) as Hout.
  { apply Hok. exists 3. split; [unfold Db.DEFAULT_RETRIES; lia | reflexivity]. }
  vm_compute in Hrun. inversion Hrun; subst run. repeat split.
Defined.

Section Cache.

(** The three ways a first call can end, with the state each leaves. *)
Lemma connectDB_cold_outcomes retries backoffMs env fails st :
  Db.readyState st <> 1 ->
  Db.connectionPromise st = None ->
  Db.truthy (Db.or_else (Db.MONGO_URI env)
               (Db.or_else (Db.MONGODB_URI env) (Db.MONGO_URL env))) = true ->
  exists run,
    Db.connectDB retries backoffMs env fails st = Some run
    /\ ((Db.outcome run = Db.Resolved Db.Connection
         /\ Db.state run = Db.mkState 1 (Some Db.Connection))
        \/ (Db.outcome run = Db.Rejected (Db.ConnectionFailed retries)
            /\ Db.state run = Db.mkState (Db.readyState st) None)
        \/ (Db.outcome run = Db.Resolved Db.Undefined
            /\ Db.state run = Db.mkState (Db.readyState st) (Some Db.Undefined)
            /\ retries = 0)).
Proof.
  intros Hready Hcache Huri. unfold Db.connectDB, Db.connectDB_fuel.
  rewrite bool_decide_eq_false_2 by done. rewrite Hcache, Huri. cbn [negb].
  destruct (first_success retries fails) as [(m & Hm & Hok & Hbefore)|Hall].
  - rewrite (connect_loop_succeeds retries backoffMs fails (S retries) 0 m [])
      by (lia || done || (intros i Hi; apply Hbefore; lia)).
    eexists. split; [reflexivity|]. by left.
  - destruct (decide (retries = 0)) as [->|Hpos].
    + eexists. split; [reflexivity|]. right; right. done.
    + rewrite (connect_loop_gives_up retries backoffMs fails (S retries) 0 [])
        by (lia || (intros i Hi; apply Hall; lia)).
      eexists. split; [reflexivity|]. right; left. done.
Qed.

End Cache.

(** What a first call of [connectDB] leaves behind for the calls after it.
    Once it has connected, every later call makes no attempt and resolves
    with the cached connection, also when the connection has been lost in
    the meantime ([readyState] no longer 1).  Once it has resolved with
    [undefined] ([retries = 0]), every later call, as long as mongoose is
    not connected, resolves with [undefined] without an attempt, whatever
    [retries] it is given.  Once it has rejected, nothing is cached and
    the next call tries again: it connects at its first attempt if that
    one succeeds. *)
Theorem connectDB_cache
    (retries : nat) (backoffMs : Z) (env : Db.Env) (fails : nat -> bool)
    (st : Db.State) :
  Db.readyState st <> 1 ->
  Db.connectionPromise st = None ->
  Db.truthy (Db.or_else (Db.MONGO_URI env)
               (Db.or_else (Db.MONGODB_URI env) (Db.MONGO_URL env))) = true ->
  exists run,
    Db.connectDB retries backoffMs env fails st = Some run
    /\ (Db.outcome run = Db.Resolved Db.Connection ->
        forall retries' backoffMs' env' fails' readyState',
          Db.connectDB retries' backoffMs' env' fails'
            (Db.mkState readyState' (Db.connectionPromise (Db.state run)))
          = Some (Db.mkRun (Db.Resolved Db.Connection)
                    (Db.mkState readyState' (Db.connectionPromise (Db.state run)))
                    0 []))
    /\ (Db.outcome run = Db.Resolved Db.Undefined ->
        forall retries' backoffMs' env' fails' readyState',
          readyState' <> 1 ->
          Db.connectDB retries' backoffMs' env' fails'
            (Db.mkState readyState' (Db.connectionPromise (Db.state run)))
          = Some (Db.mkRun (Db.Resolved Db.Undefined)
                    (Db.mkState readyState' (Db.connectionPromise (Db.state run)))
                    0 []))
    /\ (forall e, Db.outcome run = Db.Rejected e ->
        Db.state run = st
        /\ forall retries' backoffMs' fails',
             0 < retries' -> fails' 1 = false ->
             Db.connectDB retries' backoffMs' env fails' (Db.state run)
             = Some (Db.mkRun (Db.Resolved Db.Connection)
                       (Db.mkState 1 (Some Db.Connection)) 1 [])).
Proof.
  intros Hready Hcache Huri.
  destruct (connectDB_cold_outcomes retries backoffMs env fails st Hready Hcache
              Huri) as (run & Hrun & Hcases).
  exists run. split; [exact Hrun|].
  destruct Hcases as [[Ho Hs]|[[Ho Hs]|(Ho & Hs & _)]]; rewrite Ho, Hs;
    (split; [|split]); try discriminate.
  - intros _ retries' backoffMs' env' fails' rs.
    unfold Db.connectDB, Db.connectDB_fuel. cbn. by case_bool_decide.
  - intros e _. split; [destruct st; cbn in *; by subst|].
    intros retries' backoffMs' fails' Hpos Hfirst.
    unfold Db.connectDB, Db.connectDB_fuel. cbn [Db.readyState Db.connectionPromise].
    rewrite bool_decide_eq_false_2 by done. rewrite Huri. cbn [negb].
    rewrite (connect_loop_succeeds retries' backoffMs' fails' (S retries') 0 1 [])
      by (lia || done || (intros i Hi; lia)).
    done.
  - intros _ retries' backoffMs' env' fails' rs Hrs.
    unfold Db.connectDB, Db.connectDB_fuel. cbn.
    by rewrite bool_decide_eq_false_2 by done.
Qed.

Lemma connectDB_cache_witness :
  exists run,
    Db.connectDB 3 1000 (Db.mkEnv (Some "mongodb://db/vaani") None None)
      (fun _ => false) (Db.mkState 0 None) = Some run
    /\ Db.outcome run = Db.Resolved Db.Connection
    /\ Db.connectDB 3 1000 (Db.mkEnv None None None) (fun _ => true)
         (Db.mkState 0 (Db.connectionPromise (Db.state run)))
       = Some (Db.mkRun (Db.Resolved Db.Connection)
                 (Db.mkState 0 (Db.connectionPromise (Db.state run))) 0 []).
Proof.
  destruct (connectDB_cache 3 1000 (Db.mkEnv (Some "mongodb://db/vaani") None None)
              (fun _ => false) (Db.mkState 0 None)
              ltac:(cbn; lia) ltac:(reflexivity) ltac:(reflexivity))
    as (run & Hrun & Hconn & _).
  exists run. split; [exact Hrun|].
  assert (Db.outcome run = Db.Resolved Db.Connection) as Ho.
  { vm_compute in Hrun. inversion Hrun. reflexivity. }
  split; [exact Ho|]. by apply Hconn.
Defined.

(** A first call rejects with "URI is not defined" exactly when each of
    [MONGO_URI], [MONGODB_URI] and [MONGO_URL] is unset or empty (an empty
    [MONGO_URI] does not hide a [MONGODB_URI] that is set); it then makes
    no attempt and caches nothing, so a later call with a URI set can
    connect. *)
Theorem connectDB_needs_uri
    (retries : nat) (backoffMs : Z) (env : Db.Env) (fails : nat -> bool)
    (st : Db.State) :
  Db.readyState st <> 1 ->
  Db.connectionPromise st = None ->
  exists run,
    Db.connectDB retries backoffMs env fails st = Some run
    /\ (Db.outcome run = Db.Rejected Db.UriNotDefined
        <-> Db.truthy (Db.MONGO_URI env) = false
            /\ Db.truthy (Db.MONGODB_URI env) = false
            /\ Db.truthy (Db.MONGO_URL env) = false)
    /\ (Db.outcome run = Db.Rejected Db.UriNotDefined ->
        Db.state run = st /\ Db.run_attempts run = 0).
Proof.
  intros Hready Hcache.
  assert (Db.truthy (Db.or_else (Db.MONGO_URI env)
                       (Db.or_else (Db.MONGODB_URI env) (Db.MONGO_URL env))) = false
          <-> Db.truthy (Db.MONGO_URI env) = false
              /\ Db.truthy (Db.MONGODB_URI env) = false
              /\ Db.truthy (Db.MONGO_URL env) = false) as Huri.
  { unfold Db.or_else, Db.truthy.
    destruct (Db.MONGO_URI env) as [a|], (Db.MONGODB_URI env) as [b|],
      (Db.MONGO_URL env) as [c|]; repeat (case_bool_decide; simpl); tauto. }
  destruct (Db.truthy (Db.or_else (Db.MONGO_URI env)
                         (Db.or_else (Db.MONGODB_URI env) (Db.MONGO_URL env))))
    eqn:E.
  - destruct (connectDB_cold_outcomes retries backoffMs env fails st Hready Hcache E)
      as (run & Hrun & Hcases).
    exists run. split; [exact Hrun|].
    assert (Db.outcome run <> Db.Rejected Db.UriNotDefined) as Hne.
    { destruct Hcases as [[-> _]|[[-> _]|(-> & _)]]; discriminate. }
    split; [|done]. split; [done|].
    intros H. apply Huri in H. discriminate.
  - unfold Db.connectDB, Db.connectDB_fuel.
    rewrite bool_decide_eq_false_2 by done. rewrite Hcache, E. cbn [negb].
    eexists. split; [reflexivity|]. cbn. split; [|done].
    split; [intros _; by apply Huri | done].
Qed.

Lemma connectDB_needs_uri_witness :
  exists run,
    Db.connectDB 3 1000 (Db.mkEnv (Some "") None (Some "")) (fun _ => false)
      (Db.mkState 0 None) = Some run
    /\ Db.outcome run = Db.Rejected Db.UriNotDefined
    /\ Db.run_attempts run = 0.
Proof.
  destruct (connectDB_needs_uri 3 1000 (Db.mkEnv (Some "") None (Some ""))
              (fun _ => false) (Db.mkState 0 None)
              ltac:(cbn; lia) ltac:(reflexivity))
    as (run & Hrun & Hiff & Hstate).
  exists run. split; [exact Hrun|].
  assert (Db.outcome run = Db.Rejected Db.UriNotDefined) as Ho.
  { apply Hiff. repeat split. }
  split; [exact Ho|]. by apply Hstate.
Defined.

(** ** Sending messages and reading them back *)

Section Messages.

Import MessageController HistoryController.

(** The document a saved request stores. *)
Lemma sendMessage_201 userId receiverId content roomId clientTempId now newId w :
  chat_code (sendMessage userId receiverId content roomId clientTempId now newId w).2
  = 201 ->
  exists text sender m,
    present content = Some text
    /\ findUser userId (users w) = Some sender
    /\ findChat newId (chats w) = None
    /\ (present roomId <> None \/ present receiverId <> None)
    /\ m = Chat.mk newId userId
             (match present roomId with Some _ => None | None => present receiverId end)
             (present roomId)
             (match present roomId with Some _ => true | None => false end)
             text text
             (default "en" (present (User.preferredLanguage sender)))
             "sent" now
    /\ chats (sendMessage userId receiverId content roomId clientTempId now newId w).1
       = chats w ++ [m]
    /\ users (sendMessage userId receiverId content roomId clientTempId now newId w).1
       = users w
    /\ (sendMessage userId receiverId content roomId clientTempId now newId w).2
       = mkChatResponse 201 (Saved m (present clientTempId)).
Proof.
  unfold sendMessage.
  destruct (present content) as [text|]; [|discriminate].
  destruct (findUser userId (users w)) as [sender|]; [|discriminate].
  destruct (present roomId) as [rid|] eqn:Er;
    [|destruct (present receiverId) as [rc|] eqn:Ec; [|discriminate]];
    (destruct (findChat newId (chats w)) eqn:Ef; [discriminate|]);
    intros _; exists text, sender; eexists;
    (split; [done|]); (split; [done|]); (split; [done|]);
    (split; [by (left + right)|]); (split; [reflexivity|]); done.
Qed.

Lemma present_Some s : s <> "" -> present (Some s) = Some s.
Proof. intros Hs. unfold present. by rewrite bool_decide_eq_false_2. Qed.

Lemma present_inv a s : present a = Some s -> a = Some s /\ s <> "".
Proof.
  unfold present. destruct a as [x|]; [|done].
  case_bool_decide; [done|]. intros Heq. inversion Heq; subst. by split.
Qed.

Lemma insert_asc_perm tie m ms : insert_asc tie m ms ≡ₚ m :: ms.
Proof.
  induction ms as [|n ms IH]; simpl; [done|].
  case_match; [done|]. rewrite IH. apply Permutation_swap.
Qed.

Lemma sort_asc_perm tie ms : sort_timestamp_asc tie ms ≡ₚ ms.
Proof.
  unfold sort_timestamp_asc. induction ms as [|m ms IH]; simpl; [done|].
  by rewrite insert_asc_perm, IH.
Qed.

(** Whatever the store does with equal timestamps, [m] is put before [n]
    only if its timestamp is not the later one. *)
Lemma insert_before tie m n :
  (Chat.timestamp m <? Chat.timestamp n)%Z
  || ((Chat.timestamp m =? Chat.timestamp n)%Z && tie m n) = true ->
  (Chat.timestamp m <= Chat.timestamp n)%Z.
Proof.
  rewrite orb_true_iff, andb_true_iff, Z.ltb_lt, Z.eqb_eq. lia.
Qed.

Lemma insert_after tie m n :
  (Chat.timestamp m <? Chat.timestamp n)%Z
  || ((Chat.timestamp m =? Chat.timestamp n)%Z && tie m n) = false ->
  (Chat.timestamp n <= Chat.timestamp m)%Z.
Proof.
  rewrite orb_false_iff, Z.ltb_ge. by intros [H _].
Qed.

Lemma insert_asc_sorted tie m ms :
  Sorted (fun a b => (Chat.timestamp a <= Chat.timestamp b)%Z) ms ->
  Sorted (fun a b => (Chat.timestamp a <= Chat.timestamp b)%Z)
    (insert_asc tie m ms).
Proof.
  induction 1 as [|n ms Hs IH Hd]; simpl.
  - by repeat constructor.
  - case_match eqn:Hlt.
    + apply insert_before in Hlt. by repeat constructor.
    + apply insert_after in Hlt. constructor; [done|].
      destruct ms as [|e ms]; simpl in *.
      * by constructor.
      * case_match; constructor; [done|]. by inversion Hd.
Qed.

Lemma sort_asc_sorted tie ms :
  Sorted (fun a b => (Chat.timestamp a <= Chat.timestamp b)%Z)
    (sort_timestamp_asc tie ms).
Proof.
  unfold sort_timestamp_asc. induction ms as [|m ms IH]; simpl.
  - constructor.
  - by apply insert_asc_sorted.
Qed.

(** The messages a query of [getHistory] returns. *)
Lemma history_elem tie (query : Chat.t -> bool) ms m :
  m ∈ sort_timestamp_asc tie (List.filter query ms) <-> m ∈ ms /\ query m = true.
Proof. rewrite sort_asc_perm, !list_elem_of_In. apply filter_In. Qed.

(** What [find_sorted] answers. *)
Lemma find_sorted_spec tie query w :
  (find_sorted tie query w).1 = w
  /\ exists ms,
       (find_sorted tie query w).2 = mkChatResponse 200 (Messages ms false)
       /\ Sorted (fun m n => (Chat.timestamp m <= Chat.timestamp n)%Z) ms
       /\ forall m, m ∈ ms <-> m ∈ chats w /\ query m = true.
Proof.
  split; [done|]. eexists. split; [reflexivity|].
  split; [apply sort_asc_sorted|]. intros m. apply history_elem.
Qed.

(** The messages of an answer of [getHistory]: none unless the casts
    succeed. *)
Lemma history_direct ObjectId tie x y q w m :
  y <> "" ->
  m ∈ history_messages (getHistory ObjectId tie x (Some y) q w).2
  <-> exists cur target,
        ObjectId x = Some cur /\ ObjectId y = Some target
        /\ m ∈ chats w /\ direct_between cur target m = true.
Proof.
  intros Hy. unfold getHistory. rewrite (present_Some y Hy).
  destruct (ObjectId y) as [target|]; cbn.
  2: { split; [by intros ?%elem_of_nil | by intros (? & ? & _ & ? & _)]. }
  destruct (ObjectId x) as [cur|]; cbn.
  2: { split; [by intros ?%elem_of_nil | by intros (? & ? & ? & _)]. }
  rewrite history_elem. split.
  - intros [H1 H2]. by exists cur, target.
  - intros (c' & t' & [= <-] & [= <-] & H1 & H2). done.
Qed.

Lemma history_room ObjectId tie x rid w m :
  rid <> "" ->
  m ∈ history_messages (getHistory ObjectId tie x None (Some rid) w).2
  <-> m ∈ chats w /\ in_room rid m = true.
Proof.
  intros Hrid. unfold getHistory. rewrite (present_Some rid Hrid). cbn.
  apply history_elem.
Qed.

End Messages.


(** A saved message is found again by [getHistory].  A direct message
    from [a] to [b] is in the history [x] gets when asking for the
    messages with [y] exactly when [x] and [y] are the ids [a] and [b] in
    either order, and in the history of no room.  A room message is in the
    history of its room, whoever asks, in the history of no other room and
    in no direct history.  This holds however the store orders equal
    timestamps. *)
Theorem saved_message_is_in_the_right_histories
    (a : string) (receiverId content roomId clientTempId : option string)
    (now : Z) (newId : string) (w : ChatWorld) :
  chat_code (MessageController.sendMessage a receiverId content roomId
               clientTempId now newId w).2 = 201 ->
  let w' := (MessageController.sendMessage a receiverId content roomId
               clientTempId now newId w).1 in
  exists m,
    (MessageController.sendMessage a receiverId content roomId clientTempId now
       newId w).2 = mkChatResponse 201 (Saved m (present clientTempId))
    /\ Chat._id m = newId
    /\ (forall b, present roomId = None -> present receiverId = Some b ->
          (forall ObjectId tie x y q, y <> "" ->
             m ∈ history_messages
                   (HistoryController.getHistory ObjectId tie x (Some y) q w').2
             <-> (ObjectId x = Some a /\ ObjectId y = Some b)
                 \/ (ObjectId x = Some b /\ ObjectId y = Some a))
          /\ (forall ObjectId tie x rid, rid <> "" ->
                m ∉ history_messages
                      (HistoryController.getHistory ObjectId tie x None
                         (Some rid) w').2))
    /\ (forall rid, present roomId = Some rid ->
          (forall ObjectId tie x rid', rid' <> "" ->
             m ∈ history_messages
                   (HistoryController.getHistory ObjectId tie x None
                      (Some rid') w').2
             <-> rid' = rid)
          /\ (forall ObjectId tie x y q, y <> "" ->
                m ∉ history_messages
                      (HistoryController.getHistory ObjectId tie x (Some y) q
                         w').2)).
Proof.
  intros Hc w'.
  destruct (sendMessage_201 _ _ _ _ _ _ _ _ Hc)
    as (text & sender & m & _ & _ & _ & _ & Hm & Hchats & _ & Hr).
  exists m. split; [exact Hr|]. split; [by subst m|].
  assert (m ∈ chats w') as Hin.
  { unfold w'. rewrite Hchats. apply elem_of_app. right. by left. }
  split.
  - intros b Hnoroom Hrc. rewrite Hnoroom, Hrc in Hm. split.
    + intros ObjectId tie x y q Hy. rewrite (history_direct _ _ _ _ _ _ _ Hy).
      split.
      * intros (cur & target & Hx & Hy' & _ & Hq). revert Hq.
        unfold HistoryController.direct_between. subst m. cbn.
        rewrite andb_true_iff, orb_true_iff, !bool_decide_eq_true.
        intros [[[-> Heq]|[-> Heq]] _]; inversion Heq; subst; auto.
      * intros [[Hx Hy']|[Hx Hy']].
        -- exists a, b. do 3 (split; [done|]).
           unfold HistoryController.direct_between. subst m. cbn.
           by rewrite bool_decide_eq_true_2.
        -- exists b, a. do 3 (split; [done|]).
           unfold HistoryController.direct_between. subst m. cbn.
           rewrite andb_true_r, orb_true_iff, !bool_decide_eq_true. by right.
    + intros ObjectId tie x rid Hrid. rewrite (history_room _ _ _ _ _ _ Hrid).
      unfold HistoryController.in_room. subst m. cbn.
      rewrite bool_decide_eq_false_2 by done. by intros [_ ?].
  - intros rid Hrid. rewrite Hrid in Hm. split.
    + intros ObjectId tie x rid' Hrid'.
      rewrite (history_room _ _ _ _ _ _ Hrid').
      unfold HistoryController.in_room. subst m. cbn.
      rewrite bool_decide_eq_true. split; [by intros [_ [= ->]] | by intros ->].
    + intros ObjectId tie x y q Hy. rewrite (history_direct _ _ _ _ _ _ _ Hy).
      intros (cur & target & _ & _ & _ & Hq). revert Hq.
      unfold HistoryController.direct_between. subst m. cbn.
      by rewrite andb_false_r.
Qed.

Lemma saved_message_is_in_the_right_histories_witness :
  exists m,
    chat_code (MessageController.sendMessage alice (Some bob) (Some "Hi Bob!")
                 None (Some "tmp1") 100 "m1" chat_world0).2 = 201
    /\ Chat._id m = "m1"
    /\ m ∈ history_messages
            (HistoryController.getHistory example_ObjectId example_tie bob
               (Some alice) None chat_world1).2.
Proof.
  destruct (saved_message_is_in_the_right_histories alice (Some bob)
              (Some "Hi Bob!") None (Some "tmp1") 100 "m1" chat_world0
              ltac:(reflexivity))
    as (m & _ & Hid & Hdirect & _).
  exists m. split; [reflexivity|]. split; [exact Hid|].
  destruct (Hdirect bob ltac:(reflexivity) ltac:(reflexivity)) as [Hiff _].
  apply (Hiff example_ObjectId example_tie bob alice None); [discriminate|].
  right. split; reflexivity.
Defined.

(** [getHistory] writes nothing.  It answers 400 when neither a user nor a
    room is given; a user takes precedence over a room.  Asked for a
    user, it answers 500 when the id given, or the caller's, is not a
    well-formed id, and otherwise 200 with exactly the stored messages
    without a room between the caller and that user, in either direction.
    Asked for a room, it answers 200 with exactly the stored messages of
    that room, whoever asks.  The messages come in ascending order of
    timestamp, those with equal timestamps as the store orders them.
    Asked by either end, a conversation between two users gives the same
    status code and the same messages. *)
Theorem getHistory_returns
    (ObjectId : string -> option string) (tie : Chat.t -> Chat.t -> bool)
    (current : string) (userId roomId : option string) (w : ChatWorld) :
  (HistoryController.getHistory ObjectId tie current userId roomId w).1 = w
  /\ (present userId = None -> present roomId = None ->
      (HistoryController.getHistory ObjectId tie current userId roomId w).2
      = mkChatResponse 400 (Error "userId or roomId required"))
  /\ (forall u, present userId = Some u ->
        (ObjectId u = None \/ ObjectId current = None ->
         (HistoryController.getHistory ObjectId tie current userId roomId w).2
         = mkChatResponse 500 (Error "Server error"))
        /\ (forall target cur,
              ObjectId u = Some target -> ObjectId current = Some cur ->
              exists ms,
                (HistoryController.getHistory ObjectId tie current userId
                   roomId w).2 = mkChatResponse 200 (Messages ms false)
                /\ Sorted
                     (fun m n => (Chat.timestamp m <= Chat.timestamp n)%Z) ms
                /\ forall m,
                     m ∈ ms
                     <-> m ∈ chats w
                         /\ Chat.room m = None
                         /\ ((Chat.sender m = cur
                              /\ Chat.receiver m = Some target)
                             \/ (Chat.sender m = target
                                 /\ Chat.receiver m = Some cur))))
  /\ (forall rid, present userId = None -> present roomId = Some rid ->
        exists ms,
          (HistoryController.getHistory ObjectId tie current userId roomId w).2
          = mkChatResponse 200 (Messages ms false)
          /\ Sorted (fun m n => (Chat.timestamp m <= Chat.timestamp n)%Z) ms
          /\ forall m, m ∈ ms <-> m ∈ chats w /\ Chat.room m = Some rid)
  /\ (forall other q q' tie',
        current <> "" -> other <> "" ->
        chat_code (HistoryController.getHistory ObjectId tie current
                     (Some other) q w).2
        = chat_code (HistoryController.getHistory ObjectId tie' other
                       (Some current) q' w).2
        /\ forall m,
             m ∈ history_messages
                   (HistoryController.getHistory ObjectId tie current
                      (Some other) q w).2
             <-> m ∈ history_messages
                       (HistoryController.getHistory ObjectId tie' other
                          (Some current) q' w).2).
Proof.
  split; [|split; [|split; [|split]]].
  - unfold HistoryController.getHistory.
    by repeat case_match.
  - intros Hu Hr. unfold HistoryController.getHistory. by rewrite Hu, Hr.
  - intros u Hu. unfold HistoryController.getHistory. rewrite Hu. split.
    + intros [Hn|Hn]; rewrite Hn; [done|]. by destruct (ObjectId u).
    + intros target cur Ht Hcur. rewrite Ht, Hcur.
      destruct (find_sorted_spec tie
                  (HistoryController.direct_between cur target) w)
        as (_ & ms & Hr & Hs & Hin).
      exists ms. split; [exact Hr|]. split; [exact Hs|].
      intros m. rewrite Hin. unfold HistoryController.direct_between.
      rewrite andb_true_iff, orb_true_iff, !bool_decide_eq_true. tauto.
  - intros rid Hu Hr. unfold HistoryController.getHistory. rewrite Hu, Hr.
    destruct (find_sorted_spec tie (HistoryController.in_room rid) w)
      as (_ & ms & Hresp & Hs & Hin).
    exists ms. split; [exact Hresp|]. split; [exact Hs|].
    intros m. rewrite Hin. unfold HistoryController.in_room.
    by rewrite bool_decide_eq_true.
  - intros other q q' tie' Hc Ho. split.
    + unfold HistoryController.getHistory.
      rewrite (present_Some _ Hc), (present_Some _ Ho).
      by destruct (ObjectId other), (ObjectId current).
    + intros m. rewrite (history_direct _ _ _ _ _ _ _ Ho),
        (history_direct _ _ _ _ _ _ _ Hc).
      split; intros (x & y & Hx & Hy & Hin & Hq); exists y, x;
        (do 3 (split; [done|])); revert Hq;
        unfold HistoryController.direct_between;
        rewrite !andb_true_iff, !orb_true_iff, !bool_decide_eq_true; tauto.
Qed.

(** In the examples: asked for the messages with a user whose id is not
    well-formed, [getHistory] answers 500; asked by bob for those with
    alice, it answers with the two messages they exchanged, the older one
    first. *)
Lemma getHistory_examples :
  (HistoryController.getHistory example_ObjectId example_tie bob
     (Some "not-an-id") None chat_world3).2
  = mkChatResponse 500 (Error "Server error")
  /\ map Chat._id
       (history_messages
          (HistoryController.getHistory example_ObjectId example_tie bob
             (Some alice) None chat_world3).2)
     = ["m1"; "m2"].
Proof. split; reflexivity. Qed.

(** ** Unread counts *)

Section Unread.

Import HistoryController.

Lemma count_by_lookup key ms k :
  count_by key ms !! k
  = match length (List.filter (fun m => bool_decide (key m = k)) ms) with
    | 0 => None
    | S n => Some (S n)
    end.
Proof.
  induction ms as [|m ms IH]; simpl; [done|].
  case_bool_decide as Hk; simpl.
  - subst k. rewrite lookup_insert_eq, IH. by destruct (length _).
  - rewrite lookup_insert_ne by done. exact IH.
Qed.

Lemma count_of_count_by key ms k :
  count_of (count_by key ms) k
  = length (List.filter (fun m => bool_decide (key m = k)) ms).
Proof. unfold count_of. rewrite count_by_lookup. by destruct (length _). Qed.

Lemma filter_filter {A} (f g : A -> bool) (l : list A) :
  List.filter f (List.filter g l) = List.filter (fun x => g x && f x) l.
Proof.
  induction l as [|x l IH]; simpl; [done|].
  destruct (g x); simpl; [|done]. destruct (f x); by rewrite IH.
Qed.

(** The two counts of [getUnreadCounts] as numbers of stored messages. *)
Lemma unread_counts current w contact rid :
  unread_by_contact (getUnreadCounts current w).2 contact
  = length (List.filter
              (fun m => unread_direct current m
                        && bool_decide (Chat.sender m = contact)) (chats w))
  /\ unread_by_room (getUnreadCounts current w).2 rid
     = length (List.filter
                 (fun m => unread_in_rooms current m
                           && bool_decide (Chat.room m = Some rid)) (chats w)).
Proof.
  unfold getUnreadCounts, unread_by_contact, unread_by_room. cbn.
  rewrite !count_of_count_by, !filter_filter. split; [done|].
  f_equal. apply filter_ext. intros m. unfold unread_in_rooms, room_key.
  destruct (Chat.room m) as [x|]; cbn; [|done].
  destruct (negb _ && _); cbn; [|done].
  apply bool_decide_ext. split; [by intros -> | by intros [= ->]].
Qed.

End Unread.

(** [getUnreadCounts] writes nothing.  For every contact it reports the
    number of stored messages without a room that the contact sent to the
    caller and whose status is sent or delivered; for every room, the
    number of messages of that room not sent by the caller with such a
    status, whether or not the caller belongs to the room.  The two objects
    have no entry for a count of zero. *)
Theorem getUnreadCounts_counts (current : string) (w : ChatWorld) :
  (HistoryController.getUnreadCounts current w).1 = w
  /\ exists byContact byRoom,
       (HistoryController.getUnreadCounts current w).2
       = mkChatResponse 200 (Unread byContact byRoom)
       /\ (forall contact,
             count_of byContact contact
             = length
                 (List.filter
                    (fun m =>
                       bool_decide
                         (Chat.receiver m = Some current
                          /\ Chat.room m = None
                          /\ Chat.sender m = contact
                          /\ (Chat.status m = "sent"
                              \/ Chat.status m = "delivered")))
                    (chats w)))
       /\ (forall rid,
             count_of byRoom rid
             = length
                 (List.filter
                    (fun m =>
                       bool_decide
                         (Chat.room m = Some rid
                          /\ Chat.sender m <> current
                          /\ (Chat.status m = "sent"
                              \/ Chat.status m = "delivered")))
                    (chats w)))
       /\ (forall key, byContact !! key <> Some 0 /\ byRoom !! key <> Some 0).
Proof.
  split; [done|]. eexists _, _. split; [reflexivity|].
  split; [|split].
  - intros contact.
    destruct (unread_counts current w contact "") as [H _].
    unfold unread_by_contact in H. cbn in H. rewrite H. f_equal.
    apply filter_ext. intros m.
    unfold HistoryController.unread_direct, HistoryController.not_seen.
    apply eq_true_iff_eq.
    rewrite !andb_true_iff, orb_true_iff, !bool_decide_eq_true. tauto.
  - intros rid.
    destruct (unread_counts current w "" rid) as [_ H].
    unfold unread_by_room in H. cbn in H. rewrite H. f_equal.
    apply filter_ext. intros m.
    unfold HistoryController.unread_in_rooms, HistoryController.not_seen.
    apply eq_true_iff_eq.
    rewrite !andb_true_iff, orb_true_iff, negb_true_iff, !bool_decide_eq_true,
      bool_decide_eq_false.
    intuition congruence.
  - intros key. rewrite !count_by_lookup. split; by destruct (length _).
Qed.

(** A saved message counts as unread for those it is for, and only for
    them.  A direct message from [a] to [b] adds one to what [b] has
    unread from [a] and changes no other count of anybody.  A message by
    [a] to a room adds one to the count of that room for every user but
    [a], and changes no other count. *)
Theorem saved_message_is_unread_for_the_others
    (a : string) (receiverId content roomId clientTempId : option string)
    (now : Z) (newId : string) (w : ChatWorld) :
  chat_code (MessageController.sendMessage a receiverId content roomId
               clientTempId now newId w).2 = 201 ->
  let w' := (MessageController.sendMessage a receiverId content roomId
               clientTempId now newId w).1 in
  (forall b, present roomId = None -> present receiverId = Some b ->
     forall x contact rid,
       unread_by_contact (HistoryController.getUnreadCounts x w').2 contact
       = unread_by_contact (HistoryController.getUnreadCounts x w).2 contact
         + (if bool_decide (x = b /\ contact = a) then 1 else 0)
       /\ unread_by_room (HistoryController.getUnreadCounts x w').2 rid
          = unread_by_room (HistoryController.getUnreadCounts x w).2 rid)
  /\ (forall room, present roomId = Some room ->
        forall x contact rid,
          unread_by_room (HistoryController.getUnreadCounts x w').2 rid
          = unread_by_room (HistoryController.getUnreadCounts x w).2 rid
            + (if bool_decide (rid = room /\ x <> a) then 1 else 0)
          /\ unread_by_contact (HistoryController.getUnreadCounts x w').2 contact
             = unread_by_contact (HistoryController.getUnreadCounts x w).2 contact).
Proof.
  intros Hc w'.
  destruct (sendMessage_201 _ _ _ _ _ _ _ _ Hc)
    as (text & sender & m & _ & _ & _ & _ & Hm & Hchats & _ & _).
  assert (forall x contact rid,
            unread_by_contact (HistoryController.getUnreadCounts x w').2 contact
            = unread_by_contact (HistoryController.getUnreadCounts x w).2 contact
              + (if HistoryController.unread_direct x m
                    && bool_decide (Chat.sender m = contact) then 1 else 0)
            /\ unread_by_room (HistoryController.getUnreadCounts x w').2 rid
               = unread_by_room (HistoryController.getUnreadCounts x w).2 rid
                 + (if HistoryController.unread_in_rooms x m
                       && bool_decide (Chat.room m = Some rid) then 1 else 0))
    as Hadd.
  { intros x contact rid.
    destruct (unread_counts x w' contact rid) as [-> ->].
    destruct (unread_counts x w contact rid) as [-> ->].
    unfold w'. rewrite Hchats, !List.filter_app, !length_app. cbn [List.filter].
    split; apply (f_equal (Nat.add _)); by destruct (_ && _). }
  split.
  - intros b Hnoroom Hrc x contact rid. rewrite Hnoroom, Hrc in Hm.
    destruct (Hadd x contact rid) as [Hd Hr].
    assert (HistoryController.unread_direct x m
            && bool_decide (Chat.sender m = contact)
            = bool_decide (x = b /\ contact = a)) as Ed.
    { subst m. unfold HistoryController.unread_direct, HistoryController.not_seen.
      cbn. apply eq_true_iff_eq.
      rewrite ?andb_true_iff, ?orb_true_iff, ?bool_decide_eq_true.
      intuition congruence. }
    assert (HistoryController.unread_in_rooms x m
            && bool_decide (Chat.room m = Some rid) = false) as Er
      by (by subst m).
    rewrite Ed in Hd. rewrite Er in Hr. split; [exact Hd | lia].
  - intros room Hroom x contact rid. rewrite Hroom in Hm.
    destruct (Hadd x contact rid) as [Hd Hr].
    assert (HistoryController.unread_in_rooms x m
            && bool_decide (Chat.room m = Some rid)
            = bool_decide (rid = room /\ x <> a)) as Er.
    { subst m. unfold HistoryController.unread_in_rooms, HistoryController.not_seen.
      cbn. apply eq_true_iff_eq.
      rewrite ?andb_true_iff, ?orb_true_iff, ?negb_true_iff, ?bool_decide_eq_true,
        ?bool_decide_eq_false.
      intuition congruence. }
    assert (HistoryController.unread_direct x m
            && bool_decide (Chat.sender m = contact) = false) as Ed
      by (by subst m).
    rewrite Ed in Hd. rewrite Er in Hr. split; [exact Hr | lia].
Qed.

Lemma saved_message_is_unread_for_the_others_witness :
  chat_code (MessageController.sendMessage carol None (Some "Hello everyone")
               (Some "room1") None 300 "m3" chat_world2).2 = 201
  /\ unread_by_room (HistoryController.getUnreadCounts alice chat_world3).2 "room1"
     = 1
  /\ unread_by_room (HistoryController.getUnreadCounts carol chat_world3).2 "room1"
     = 0.
Proof.
  destruct (saved_message_is_unread_for_the_others carol None
              (Some "Hello everyone") (Some "room1") None 300 "m3" chat_world2
              ltac:(reflexivity)) as [_ Hroom].
  split; [reflexivity|]. split.
  - destruct (Hroom "room1" ltac:(reflexivity) alice "" "room1") as [H _].
    unfold chat_world3. rewrite H. reflexivity.
  - destruct (Hroom "room1" ltac:(reflexivity) carol "" "room1") as [H _].
    unfold chat_world3. rewrite H. reflexivity.
Defined.

Section Delivery.

Import MessageController.

Lemma in_emit_to_sockets e ss ev :
  e ∈ emit_to_sockets ss ev
  <-> exists s, s ∈ ss /\ e = mkChatEmit (Socket.id s) ev.
Proof.
  unfold emit_to_sockets. rewrite list_elem_of_fmap.
  split; intros (s & H1 & H2); exists s; done.
Qed.

Lemma in_sockets_of_user u sockets s :
  s ∈ sockets_of_user u sockets <-> s ∈ sockets /\ Socket.user s = Some u.
Proof.
  unfold sockets_of_user. rewrite !list_elem_of_In, filter_In.
  by rewrite bool_decide_eq_true.
Qed.

(** The events a saved request emits. *)
Lemma sendMessage_emitted userId receiverId content roomId clientTempId now newId w :
  chat_code (sendMessage userId receiverId content roomId clientTempId now newId w).2
  = 201 ->
  exists m,
    (sendMessage userId receiverId content roomId clientTempId now newId w).2
    = mkChatResponse 201 (Saved m (present clientTempId))
    /\ chat_emitted
         (sendMessage userId receiverId content roomId clientTempId now newId w).1
       = chat_emitted w
         ++ match chat_io w with
            | None => []
            | Some sockets =>
                match present roomId, present receiverId with
                | Some rid, _ =>
                    [mkChatEmit rid (receiveMessage m (present clientTempId))]
                | None, Some b =>
                    emit_to_sockets (sockets_of_user b sockets)
                      (receiveMessage m (present clientTempId))
                    ++ emit_to_sockets (sockets_of_user userId sockets)
                         (receiveMessage m (present clientTempId))
                | None, None => []
                end
                ++ emit_to_sockets (sockets_of_user userId sockets)
                     (messageStatusUpdate newId "sent" (present clientTempId))
            end.
Proof.
  unfold sendMessage.
  destruct (present content) as [text|]; [|discriminate].
  destruct (findUser userId (users w)) as [sender|]; [|discriminate].
  destruct (present roomId) as [rid|] eqn:Er;
    [|destruct (present receiverId) as [rc|] eqn:Ec; [|discriminate]];
    (destruct (findChat newId (chats w)) eqn:Ef; [discriminate|]);
    intros _; eexists; (split; [reflexivity|]); done.
Qed.

End Delivery.

(** What a saved message sets off, with [global.__io] set.  A direct
    message from [a] to [b] is emitted only to sockets of [a] and of [b]:
    every socket of [b] and every socket of [a] gets [receiveMessage], and
    the status update goes to the sockets of [a] alone.  For a room
    message the events are exactly these: one [receiveMessage] to the
    socket.io room named by the room id, then one status update to each
    socket of the sender, in the order of the sockets. *)
Theorem message_events_reach_only_the_parties
    (a : string) (receiverId content roomId clientTempId : option string)
    (now : Z) (newId : string) (w : ChatWorld) (sockets : list Socket.t) :
  chat_code (MessageController.sendMessage a receiverId content roomId
               clientTempId now newId w).2 = 201 ->
  chat_io w = Some sockets ->
  exists m E,
    (MessageController.sendMessage a receiverId content roomId clientTempId now
       newId w).2 = mkChatResponse 201 (Saved m (present clientTempId))
    /\ chat_emitted (MessageController.sendMessage a receiverId content roomId
                       clientTempId now newId w).1 = chat_emitted w ++ E
    /\ (forall s, s ∈ sockets -> Socket.user s = Some a ->
          mkChatEmit (Socket.id s)
            (messageStatusUpdate newId "sent" (present clientTempId)) ∈ E)
    /\ (forall b, present roomId = None -> present receiverId = Some b ->
          (forall e, e ∈ E ->
             exists s, s ∈ sockets /\ chat_target e = Socket.id s
               /\ (Socket.user s = Some a
                   \/ (Socket.user s = Some b
                       /\ chat_event e = receiveMessage m (present clientTempId))))
          /\ (forall s, s ∈ sockets ->
                Socket.user s = Some a \/ Socket.user s = Some b ->
                mkChatEmit (Socket.id s)
                  (receiveMessage m (present clientTempId)) ∈ E))
    /\ (forall rid, present roomId = Some rid ->
          E = mkChatEmit rid (receiveMessage m (present clientTempId))
              :: map (fun s =>
                        mkChatEmit (Socket.id s)
                          (messageStatusUpdate newId "sent"
                             (present clientTempId)))
                   (List.filter
                      (fun s => bool_decide (Socket.user s = Some a)) sockets)).
Proof.
  intros Hc Hio.
  destruct (sendMessage_emitted _ _ _ _ _ _ _ _ Hc) as (m & Hr & He).
  rewrite Hio in He. eexists m, _. split; [exact Hr|]. split; [exact He|].
  split; [|split].
  - intros s Hs Hu. apply elem_of_app. right.
    apply in_emit_to_sockets. exists s. split; [|done].
    by apply in_sockets_of_user.
  - intros b Hnoroom Hrc. rewrite Hnoroom, Hrc. split.
    + intros e Hin.
      repeat (apply elem_of_app in Hin as [Hin|Hin]);
        apply in_emit_to_sockets in Hin as (s & Hs & ->);
        apply in_sockets_of_user in Hs as [Hs Hu];
        exists s; (split; [done|]); (split; [done|]); auto.
    + intros s Hs [Hu|Hu]; apply elem_of_app; left; apply elem_of_app;
        [right | left]; apply in_emit_to_sockets; exists s;
        (split; [by apply in_sockets_of_user | done]).
  - intros rid Hrid. by rewrite Hrid.
Qed.

Lemma message_events_reach_only_the_parties_witness :
  exists m E,
    chat_code (MessageController.sendMessage alice (Some bob) (Some "Hi Bob!")
                 None (Some "tmp1") 100 "m1" chat_world0).2 = 201
    /\ chat_io chat_world0
       = Some [Socket.mk "s1" (Some bob) []; Socket.mk "s3" (Some alice) []]
    /\ chat_emitted chat_world1 = E
    /\ mkChatEmit "s1" (receiveMessage m (Some "tmp1")) ∈ E.
Proof.
  destruct (message_events_reach_only_the_parties alice (Some bob)
              (Some "Hi Bob!") None (Some "tmp1") 100 "m1" chat_world0 _
              ltac:(reflexivity) ltac:(reflexivity))
    as (m & E & _ & Hem & _ & Hdirect & _).
  exists m, E. split; [reflexivity|]. split; [reflexivity|].
  split; [exact Hem|].
  destruct (Hdirect bob ltac:(reflexivity) ltac:(reflexivity)) as [_ Hall].
  apply (Hall (Socket.mk "s1" (Some bob) [])); [by left | by right].
Defined.
